(** * Diabetes_predictor: the enhanced preprocessing pipeline and the
      prediction service, as a shallow embedding.

    Sources embedded here:
    - [services/agents/enhanced_eda_preprocess.py]: column classification and
      its overrides, [enhanced_imputation], [detect_outliers_iqr],
      [handle_outliers], [feature_engineering],
      [handle_high_cardinality_categorical] and the model-ready half of
      [enhanced_preprocessing] (one-hot encoding, scaling, feature selection,
      scaler persistence);
    - [services/app/services/prediction.py]: [load_scaler], the risk
      calculators and the model branch of [predict_diabetes_risk].

    Conventions.  A pandas table is an ordered list of named columns; a cell is
    a missing marker, a number, a text or a boolean.  Finite float64 values are
    modelled by rationals with exact arithmetic ([NaN] is the missing marker
    [NA]); computed numbers are kept in lowest terms so that equal values are
    equal terms.  The percentages of the outlier reports, and the sums,
    products and roundings of the risk calculators of the prediction service,
    are computed as the code computes them, in float64 arithmetic
    ([binary64]).  A Python [dict] with string keys is a [gmap string _].
    A raised exception is [None] in the option monad. *)

From Stdlib Require Import ZArith QArith Qround Qabs Lqa Lia String Ascii.
From Stdlib Require Import DecimalString DecimalZ.
From Stdlib Require Import Reals Lra.
From stdpp Require Import base option list sorting strings gmap.

Local Open Scope string_scope.
Local Open Scope list_scope.

(** ** Python strings *)

Definition lower_ascii (c : ascii) : ascii :=
  let n := nat_of_ascii c in
  if ((65 <=? n) && (n <=? 90))%nat then ascii_of_nat (n + 32) else c.

(** [str.lower] on ASCII text: the letters A to Z are mapped and every other
    character is kept, as the texts the code compares with are ASCII. *)
Fixpoint lower (s : string) : string :=
  match s with
  | EmptyString => EmptyString
  | String c r => String (lower_ascii c) (lower r)
  end.

(** [needle in hay] on strings. *)
Fixpoint contains (needle hay : string) : bool :=
  String.prefix needle hay ||
  match hay with
  | EmptyString => false
  | String _ r => contains needle r
  end.

(** [x in xs] for a list of strings. *)
Definition mem (x : string) (xs : list string) : bool :=
  existsb (String.eqb x) xs.
Arguments mem : simpl never.

(** Truthiness of an optional string such as [target_col]: [None] and the
    empty string are false. *)
Definition truthy (t : option string) : bool :=
  match t with
  | Some s => negb (String.eqb s "")
  | None => false
  end.

(** ** Numbers *)

Definition Qltb (x y : Q) : bool :=
  match Qcompare x y with Lt => true | _ => false end.

Definition Qleb (x y : Q) : bool := negb (Qltb y x).

(** Python's [str] on a float64 that holds an integer, such as a year:
    [2019.0].  It is used to run the pipeline on concrete tables. *)
Definition str_of_integral (q : Q) : string :=
  NilZero.string_of_int (Z.to_int (Qfloor q)) +:+ ".0".

(** ** Tables *)

(** The storage types the pipeline tells apart: [int64]/[float64], [bool],
    [object] (text) and the [category] type that [pd.cut] returns. *)
Inductive dtype := DNumber | DBool | DObject | DCategory.

Definition dtype_eqb (a b : dtype) : bool :=
  match a, b with
  | DNumber, DNumber | DBool, DBool | DObject, DObject | DCategory, DCategory => true
  | _, _ => false
  end.

(** [pd.api.types.is_numeric_dtype]: numbers and booleans. *)
Definition is_numeric_dtype (d : dtype) : bool :=
  match d with DNumber | DBool => true | _ => false end.

(** A cell over a number type [num]; the pipeline computes over [Q], the
    statement about the fitted scaler is read over the reals. *)
Inductive cell (num : Type) :=
| NA
| Num (x : num)
| Str (s : string)
| Flag (b : bool).
Arguments NA {num}.
Arguments Num {num} x.
Arguments Str {num} s.
Arguments Flag {num} b.

Record column (num : Type) := Column {
  cname : string;
  cdtype : dtype;
  cells : list (cell num)
}.
Arguments Column {num} cname cdtype cells.
Arguments cname {num} c.
Arguments cdtype {num} c.
Arguments cells {num} c.

Definition frame (num : Type) := list (column num).

Section Frames.
Context {num : Type}.

(** [s.isnull()] on one cell. *)
Definition isnull (c : cell num) : bool :=
  match c with NA => true | _ => false end.

(** [s.isnull().sum()]. *)
Definition missing_count (cs : list (cell num)) : nat :=
  length (filter (fun c => isnull c = true) cs).

(** [df.columns]. *)
Definition columns (df : frame num) : list string := cname <$> df.

(** [df[name]]; [None] is the [KeyError]. *)
Fixpoint get_col (df : frame num) (n : string) : option (column num) :=
  match df with
  | [] => None
  | c :: r => if String.eqb (cname c) n then Some c else get_col r n
  end.

(** [df[name] = values]: overwrite in place or append a new column. *)
Fixpoint set_col (df : frame num) (n : string) (d : dtype) (cs : list (cell num))
  : frame num :=
  match df with
  | [] => [Column n d cs]
  | c :: r =>
      if String.eqb (cname c) n then Column n d cs :: r
      else c :: set_col r n d cs
  end.

(** [df.drop(columns=[name])]. *)
Definition drop_col (df : frame num) (n : string) : frame num :=
  filter (fun c => cname c ≠ n) df.

(** Number of rows: the length of the first column. *)
Definition nrows (df : frame num) : nat :=
  match df with [] => 0 | c :: _ => length (cells c) end.

(** [s.fillna(v)]. *)
Definition fillna (v : cell num) (cs : list (cell num)) : list (cell num) :=
  (fun c => if isnull c then v else c) <$> cs.
End Frames.


(** ** FeatureEngineer: [pd.cut] and the BMI risk bands *)

(** A bin edge: a finite number or [float('inf')]. *)
Inductive edge := Fin (q : Q) | PosInf.

Definition edge_ltb (e : edge) (x : Q) : bool :=
  match e with Fin b => Qltb b x | PosInf => false end.

(** [bins.searchsorted(x, side='left')] on increasing bins: the number of
    edges strictly below [x]. *)
Fixpoint searchsorted_left (bins : list edge) (x : Q) : nat :=
  match bins with
  | [] => 0
  | b :: r => if edge_ltb b x then S (searchsorted_left r x) else 0
  end.

(** [pd.cut(x, bins, labels)] with its defaults [right=True],
    [include_lowest=False]: the bin index is [searchsorted_left]; index 0 (at
    or below the first edge) and index [len(bins)] give a missing value. *)
Definition cut (bins : list edge) (labels : list string) (v : cell Q) : cell Q :=
  match v with
  | Num x =>
      let i := searchsorted_left bins x in
      if ((i =? 0) || (i =? length bins))%nat then NA
      else match labels !! (i - 1)%nat with Some l => Str l | None => NA end
  | _ => NA
  end.

Definition bmi_bins : list edge :=
  [Fin 0; Fin 18.5; Fin 25; Fin 30; Fin 35; PosInf]%Q.
Definition bmi_labels : list string :=
  ["underweight"; "normal"; "overweight"; "obese_1"; "obese_2"].

Definition age_bins : list edge := [Fin 0; Fin 35; Fin 45; Fin 65; PosInf]%Q.
Definition age_labels : list string :=
  ["low_risk"; "moderate_risk"; "high_risk"; "very_high_risk"].

(** The value of [bmi_risk_level] in one row. *)
Definition bmi_risk_level (v : cell Q) : cell Q := cut bmi_bins bmi_labels v.
Definition age_diabetes_risk (v : cell Q) : cell Q := cut age_bins age_labels v.

(** The buckets as the specification words them: left-closed intervals, the
    first one unbounded below. *)
Definition bmi_bucket_spec (x : Q) : string :=
  if Qltb x 18.5 then "underweight"
  else if Qltb x 25 then "normal"
  else if Qltb x 30 then "overweight"
  else if Qltb x 35 then "obese_1"
  else "obese_2".

(** ** Python values held in report and feature dictionaries *)

Inductive pyval :=
| PInt (z : Z)
| PFloat (q : option Q)   (* [None] is NaN *)
| PStr (s : string)
| PBool (b : bool).

(** A loop whose body can raise: [for x in l: a = f(a, x)]. *)
Fixpoint foldM {A B : Type} (f : A -> B -> option A) (a : A) (l : list B) : option A :=
  match l with
  | [] => Some a
  | x :: r => match f a x with Some a' => foldM f a' r | None => None end
  end.

(** ** ColumnClassifier: storage types and the two overrides *)

(** [c != target_col]; nothing equals an absent target. *)
Definition ne_target (c : string) (t : option string) : bool :=
  match t with
  | Some t => negb (String.eqb c t)
  | None => true
  end.

(** [list.remove(x)]: drops the first occurrence. *)
Fixpoint list_remove (x : string) (l : list string) : list string :=
  match l with
  | [] => []
  | y :: r => if String.eqb y x then r else y :: list_remove x r
  end.

(** The classifier's state: the table and the two feature-name lists. *)
Record classified := Classified {
  cl_df : frame Q;
  cl_numeric : list string;
  cl_categorical : list string
}.

Definition initial_numeric (df : frame Q) (t : option string) : list string :=
  cname <$> (List.filter
    (fun c => is_numeric_dtype (cdtype c) && ne_target (cname c) t) df).

Definition initial_categorical (df : frame Q) (t : option string) : list string :=
  cname <$> (List.filter
    (fun c => dtype_eqb (cdtype c) DObject && ne_target (cname c) t) df).

Section Classifier.
(** Python's [str] on a float64 or int64 value; which digits it prints does
    not matter below, only that it is applied to the numbers. *)
Variable str_of_num : Q -> string.

(** [s.astype(str)]: every cell is printed, a NaN as the text [nan]. *)
Definition astype_str_cell (c : cell Q) : cell Q :=
  match c with
  | NA => Str "nan"
  | Num x => Str (str_of_num x)
  | Str s => Str s
  | Flag b => Str (if b then "True" else "False")
  end.

Definition astype_str (cs : list (cell Q)) : list (cell Q) := astype_str_cell <$> cs.

(** [s.replace('nan', pd.NA)]. *)
Definition replace_nan_cell (c : cell Q) : cell Q :=
  match c with
  | Str s => if String.eqb s "nan" then NA else Str s
  | _ => c
  end.

Definition replace_nan (cs : list (cell Q)) : list (cell Q) := replace_nan_cell <$> cs.

(** The [year] override: moved to the categorical list and stringified. *)
Definition override_year (st : classified) : classified :=
  if mem "year" (cl_numeric st) then
    {| cl_df := match get_col (cl_df st) "year" with
                | Some c => set_col (cl_df st) "year" DObject (astype_str (cells c))
                | None => cl_df st
                end;
       cl_numeric := list_remove "year" (cl_numeric st);
       cl_categorical := cl_categorical st ++ ["year"] |}
  else st.

(** The [gestational_history] override: moved, stringified, and the text
    [nan] turned back into a missing value. *)
Definition override_gestational (st : classified) : classified :=
  if mem "gestational_history" (cl_numeric st) then
    {| cl_df := match get_col (cl_df st) "gestational_history" with
                | Some c => set_col (cl_df st) "gestational_history" DObject
                              (replace_nan (astype_str (cells c)))
                | None => cl_df st
                end;
       cl_numeric := list_remove "gestational_history" (cl_numeric st);
       cl_categorical := cl_categorical st ++ ["gestational_history"] |}
  else st.

(** Step 2 of [enhanced_preprocessing]. *)
Definition classify_columns (df : frame Q) (t : option string) : classified :=
  override_gestational (override_year
    {| cl_df := df;
       cl_numeric := initial_numeric df t;
       cl_categorical := initial_categorical df t |}).
End Classifier.

(** ** ImputationEngine *)

(** The number a numeric cell holds. *)
Definition cell_num (c : cell Q) : option Q :=
  match c with
  | Num x => Some x
  | Flag b => Some (if b then 1 else 0)%Q
  | _ => None
  end.

(** The values of a column with the missing ones dropped. *)
Definition numbers (cs : list (cell Q)) : list Q := omap cell_num cs.

Fixpoint insert_sorted (x : Q) (l : list Q) : list Q :=
  match l with
  | [] => [x]
  | y :: r => if Qleb x y then x :: l else y :: insert_sorted x r
  end.

Definition sort_Q (l : list Q) : list Q := foldr insert_sorted [] l.

(** [s.median()]: the middle value of the sorted non-missing values, the mean
    of the two middle ones when their number is even, NaN ([None]) when there
    is none. *)
Definition median (cs : list (cell Q)) : option Q :=
  let s := sort_Q (numbers cs) in
  let n := length s in
  if (n =? 0)%nat then None
  else if Nat.odd n then s !! (n / 2)%nat
  else
    match s !! (n / 2 - 1)%nat, s !! (n / 2)%nat with
    | Some a, Some b => Some (Qred ((a + b) / 2))
    | _, _ => None
    end.

(** [s.fillna(m)] for a computed statistic: filling with NaN changes nothing. *)
Definition fillna_num (m : option Q) (cs : list (cell Q)) : list (cell Q) :=
  match m with
  | Some x => fillna (Num x) cs
  | None => cs
  end.

(** Equality of two present values, as [==] and [groupby] see it. *)
Definition cell_eqb (a b : cell Q) : bool :=
  match a, b with
  | Num x, Num y => Qeq_bool x y
  | Str s, Str u => String.eqb s u
  | Flag x, Flag y => Bool.eqb x y
  | _, _ => false
  end.

(** The cells of the rows whose key equals [k]. *)
Fixpoint group_of (k : cell Q) (keys cs : list (cell Q)) : list (cell Q) :=
  match keys, cs with
  | k' :: ks, c :: r => if cell_eqb k' k then c :: group_of k ks r else group_of k ks r
  | _, _ => []
  end.

(** [df.groupby(target)[col].transform(lambda x: ...)]: in each target group
    the missing cells get the group's median, or the column's median when the
    group has none; a row whose target is missing belongs to no group and
    comes back as NaN. *)
Fixpoint group_median_rows (keys0 cs0 keys cs : list (cell Q)) : list (cell Q) :=
  match keys, cs with
  | k :: ks, c :: r =>
      (if isnull k then NA
       else
         let m := match median (group_of k keys0 cs0) with
                  | Some g => Some g
                  | None => median cs0
                  end in
         if isnull c then match m with Some x => Num x | None => c end else c)
      :: group_median_rows keys0 cs0 ks r
  | _, _ => []
  end.

Definition group_median_fill (keys cs : list (cell Q)) : list (cell Q) :=
  group_median_rows keys cs keys cs.

Definition medical_features : list string :=
  ["bmi"; "hbA1c_level"; "blood_glucose_level"; "sleep_hours"].

Definition gender_linked_features : list string :=
  ["gestational_history"; "gestational_diabetes"; "pregnancy_history"].

Definition male_values : list string := ["male"; "m"; "man"].

(** One record of the imputation report. *)
Definition imputation_record (missing : nat) (method : string) : gmap string pyval :=
  <["missing_count" := PInt (Z.of_nat missing)]>
    (<["imputation_method" := PStr method]> ∅).

(** The body of the numeric loop for one column. *)
Definition impute_numeric (t : option string) (df0 : frame Q)
    (st : frame Q * gmap string (gmap string pyval)) (col : string)
  : option (frame Q * gmap string (gmap string pyval)) :=
  let '(df, info) := st in
  c ← get_col df col;
  let missing := missing_count (cells c) in
  if (0 <? missing)%nat then
    if mem col medical_features then
      new ← (if truthy t && mem (default "" t) (columns df0) then
               tc ← get_col df (default "" t);
               Some (group_median_fill (cells tc) (cells c))
             else Some (fillna_num (median (cells c)) (cells c)));
      Some (set_col df col (cdtype c) new,
            <[col := imputation_record missing
                       (if truthy t then "group_median" else "median")]> info)
    else
      Some (set_col df col (cdtype c) (fillna_num (median (cells c)) (cells c)),
            <[col := imputation_record missing "median"]> info)
  else Some (df, info).

(** An order on present values, used to sort the modes: texts by code point,
    numbers by value. *)
Definition cell_ltb (a b : cell Q) : bool :=
  match a, b with
  | Num x, Num y => Qltb x y
  | Str s, Str u => String.ltb s u
  | Flag x, Flag y => negb x && y
  | Num _, _ => true
  | Flag _, Str _ => true
  | _, _ => false
  end.

Definition count_of (v : cell Q) (cs : list (cell Q)) : nat :=
  length (List.filter (cell_eqb v) cs).

(** [s.mode()[0]]: the most frequent present value, the smallest one on a
    tie; [None] when [s.mode()] is empty. *)
Definition mode (cs : list (cell Q)) : option (cell Q) :=
  foldr (fun v acc =>
           match acc with
           | None => Some v
           | Some w =>
               if (count_of w cs <? count_of v cs)%nat
                  || ((count_of w cs =? count_of v cs)%nat && cell_ltb v w)
               then Some v else Some w
           end)
        None (List.filter (fun c => negb (isnull c)) cs).

(** [s.unique()]: the distinct values in order of first appearance, a missing
    value included once. *)
Fixpoint unique_from (seen : list (cell Q)) (cs : list (cell Q)) : list (cell Q) :=
  match cs with
  | [] => []
  | c :: r =>
      if existsb (fun s => if isnull c then isnull s else cell_eqb s c) seen
      then unique_from seen r
      else c :: unique_from (c :: seen) r
  end.

Definition unique (cs : list (cell Q)) : list (cell Q) := unique_from [] cs.

(** [df.loc[mask, col] = df.loc[mask, col].fillna(v)] with
    [mask = (gender == g)]. *)
Fixpoint fill_where (g v : cell Q) (genders cs : list (cell Q)) : list (cell Q) :=
  match genders, cs with
  | g' :: gs, c :: r =>
      (if cell_eqb g' g && isnull c then v else c) :: fill_where g v gs r
  | _, r => r
  end.

(** The body of the loop over the gender values; [gender_val.lower()] raises
    on a value that is not a text. *)
Definition impute_gender_value (genders : list (cell Q)) (cs : list (cell Q))
    (g : cell Q) : option (list (cell Q)) :=
  match g with
  | NA => Some cs
  | Str s =>
      if mem (lower s) male_values then
        Some (fill_where g (Str "Not Applicable") genders cs)
      else
        match mode (group_of g genders cs) with
        | Some m => Some (fill_where g m genders cs)
        | None => Some (fill_where g (Str "No") genders cs)
        end
  | _ => None
  end.

(** [gender_col = 'gender' if 'gender' in df.columns else 'sex']. *)
Definition gender_name (df : frame Q) : string :=
  if mem "gender" (columns df) then "gender" else "sex".

(** ['gender' in df.columns or 'sex' in df.columns]. *)
Definition has_gender (df : frame Q) : bool :=
  mem "gender" (columns df) || mem "sex" (columns df).

(** The condition under which a numeric column is filled per target group:
    a medical column, a target name that is given and is a column. *)
Definition grouped (t : option string) (df : frame Q) (col : string) : bool :=
  mem col medical_features && truthy t && mem (default "" t) (columns df).

(** The body of the categorical loop for one column. *)
Definition impute_categorical
    (st : frame Q * gmap string (gmap string pyval)) (col : string)
  : option (frame Q * gmap string (gmap string pyval)) :=
  let '(df, info) := st in
  c ← get_col df col;
  let missing := missing_count (cells c) in
  if (0 <? missing)%nat then
    if mem (lower col) gender_linked_features then
      if has_gender df then
        gc ← get_col df (gender_name df);
        new ← foldM (impute_gender_value (cells gc)) (cells c) (unique (cells gc));
        Some (set_col df col (cdtype c) new,
              <[col := imputation_record missing "gender_aware"]> info)
      else
        Some (set_col df col (cdtype c) (fillna (Str "Not Applicable") (cells c)),
              <[col := imputation_record missing "not_applicable"]> info)
    else
      match mode (cells c) with
      | Some m =>
          Some (set_col df col (cdtype c) (fillna m (cells c)),
                <[col := imputation_record missing "mode"]> info)
      | None =>
          Some (set_col df col (cdtype c) (fillna (Str "Unknown") (cells c)),
                <[col := imputation_record missing "unknown"]> info)
      end
  else Some (df, info).

(** [enhanced_imputation(df, numeric_cols, categorical_cols, target_col)]. *)
Definition enhanced_imputation (df : frame Q) (numeric_cols categorical_cols : list string)
    (t : option string) : option (frame Q * gmap string (gmap string pyval)) :=
  st ← foldM (impute_numeric t df) (df, ∅) numeric_cols;
  foldM impute_categorical st categorical_cols.

(** Steps 2 and 3 of [enhanced_preprocessing]: classify, then impute. *)
Definition classify_and_impute (str_of_num : Q -> string) (df : frame Q)
    (t : option string) : option (frame Q * gmap string (gmap string pyval)) :=
  let st := classify_columns str_of_num df t in
  enhanced_imputation (cl_df st) (cl_numeric st) (cl_categorical st) t.


(** ** OutlierTreatment *)

(** [s.quantile(q)]: linear interpolation between the two sorted values
    around position [q * (n - 1)]; NaN ([None]) on a column without values. *)
Definition quantile (cs : list (cell Q)) (q : Q) : option Q :=
  let s := sort_Q (numbers cs) in
  let n := length s in
  if (n =? 0)%nat then None
  else
    let pos := (q * inject_Z (Z.of_nat (n - 1)))%Q in
    let j := Z.to_nat (Qfloor pos) in
    let frac := (pos - inject_Z (Qfloor pos))%Q in
    match s !! j with
    | Some a =>
        match s !! S j with
        | Some b => Some (Qred (a + (b - a) * frac))
        | None => Some (Qred a)
        end
    | None => None
    end.

(** The bounds [Q1 - multiplier * IQR] and [Q3 + multiplier * IQR]. *)
Definition iqr_bounds (cs : list (cell Q)) (multiplier : Q) : option (Q * Q) :=
  match quantile cs 0.25, quantile cs 0.75 with
  | Some q1, Some q3 =>
      Some (Qred (q1 - multiplier * (q3 - q1)), Qred (q3 + multiplier * (q3 - q1)))
  | _, _ => None
  end.

(** [(x < lower_bound) | (x > upper_bound)]; false on a missing value and
    when the bounds are NaN. *)
Definition is_outlier (b : option (Q * Q)) (c : cell Q) : bool :=
  match b, cell_num c with
  | Some (lo, hi), Some x => Qltb x lo || Qltb hi x
  | _, _ => false
  end.

(** [detect_outliers_iqr(series, multiplier)]: the outlier mask. *)
Definition detect_outliers_iqr (cs : list (cell Q)) (multiplier : Q) : list bool :=
  is_outlier (iqr_bounds cs multiplier) <$> cs.

(** [mask.sum()]. *)
Definition count_true (mask : list bool) : nat := length (List.filter (fun b : bool => b) mask).

(** [np.where(s < lower_bound, lower_bound, s)]. *)
Definition cap_low (lo : Q) (c : cell Q) : cell Q :=
  match cell_num c with
  | Some x => if Qltb x lo then Num lo else c
  | None => c
  end.

(** [np.where(s > upper_bound, upper_bound, s)]. *)
Definition cap_high (hi : Q) (c : cell Q) : cell Q :=
  match cell_num c with
  | Some x => if Qltb hi x then Num hi else c
  | None => c
  end.

(** What the [cap] branch of [handle_outliers] does to one column: nothing
    when no value is flagged, otherwise the two [np.where] passes with the
    bounds computed from the column as it stands. *)
Definition cap_outliers (cs : list (cell Q)) (multiplier : Q) : list (cell Q) :=
  if (0 <? count_true (detect_outliers_iqr cs multiplier))%nat then
    match iqr_bounds cs multiplier with
    | Some (lo, hi) => cap_high hi <$> (cap_low lo <$> cs)
    | None => cs
    end
  else cs.

(** [df[~mask]]: the rows whose mask is false, in every column. *)
Fixpoint keep_rows {A : Type} (mask : list bool) (xs : list A) : list A :=
  match mask, xs with
  | m :: ms, x :: r => if m then keep_rows ms r else x :: keep_rows ms r
  | _, _ => xs
  end.

Definition drop_rows (mask : list bool) (df : frame Q) : frame Q :=
  (fun c => Column (cname c) (cdtype c) (keep_rows mask (cells c))) <$> df.

(** Rounding to the nearest integer, ties to the even one. *)
Definition round_half_even (q : Q) : Z :=
  let f := Qfloor q in
  let r := (q - inject_Z f)%Q in
  if Qltb r (1 # 2) then f
  else if Qltb (1 # 2) r then (f + 1)%Z
  else if Z.even f then f else (f + 1)%Z.

(** The decimal with two digits nearest to a rational, ties to even. *)
Definition round2 (q : Q) : Q := Qred (inject_Z (round_half_even (q * 100)) / 100).

(** ** Percentages: float64 arithmetic *)

(** The float64 nearest to a rational, ties to the even significand, written
    as a rational: 53 bits of significand, exponents down to the subnormal
    range.  (The percentages rounded with it are at most 100, far from the
    overflow threshold.) *)
Definition binary64 (q : Q) : Q :=
  if Qeq_bool q 0 then 0%Q
  else
    let a := Qabs q in
    let e0 := (Z.log2 (Qnum a) - Z.log2 (Zpos (Qden a)) - 52)%Z in
    let e1 := if Qltb a (Qpower 2 (e0 + 52)) then (e0 - 1)%Z else e0 in
    let e := Z.max e1 (-1074) in
    let v := Qred (inject_Z (round_half_even (a / Qpower 2 e)) * Qpower 2 e) in
    if Qltb q 0 then Qred (- v) else v.

(** [count / rows * 100] on two integers: a float division, then a float
    product. *)
Definition percent_of (count rows : nat) : Q :=
  binary64 (binary64 (inject_Z (Z.of_nat count) / inject_Z (Z.of_nat rows)) * 100).

(** [round(x, 2)] on a Python float: the decimal with two digits nearest to
    the exact value of [x], then the float nearest to that decimal. *)
Definition py_round2 (x : Q) : Q := binary64 (round2 x).

(** [round(x, 2)] on a NumPy float ([np.float64.__round__], the algorithm of
    [np.round]): [rint(x * 100) / 100], the product and the quotient rounded
    as floats. *)
Definition np_round2 (x : Q) : Q :=
  binary64 (inject_Z (round_half_even (binary64 (x * 100))) / 100).

(** [round(outlier_count / len(df) * 100, 2)]; the count is a NumPy integer
    ([Series.sum] of the mask), so the quotient is a NumPy float, [round] is
    NumPy's, and a table without rows gives NaN rather than an exception. *)
Definition outlier_percentage (count rows : nat) : option Q :=
  if (rows =? 0)%nat then None
  else Some (np_round2 (percent_of count rows)).

(** One record of [outlier_info]. *)
Definition outlier_record (count rows : nat) (method : string) : gmap string pyval :=
  <["outlier_count" := PInt (Z.of_nat count)]>
  (<["outlier_percentage" := PFloat (outlier_percentage count rows)]>
  (<["method_applied" := PStr method]> ∅)).

(** The body of the loop of [handle_outliers] for one column; [df0] is the
    table the function was called with. *)
Definition handle_outliers_col (df0 : frame Q) (method : string) (multiplier : Q)
    (st : frame Q * gmap string (gmap string pyval)) (col : string)
  : option (frame Q * gmap string (gmap string pyval)) :=
  let '(df, info) := st in
  c ← get_col df col;
  let outliers := detect_outliers_iqr (cells c) multiplier in
  let outlier_count := count_true outliers in
  let df' :=
    if (0 <? outlier_count)%nat then
      if String.eqb method "cap" then
        set_col df col DNumber (cap_outliers (cells c) multiplier)
      else if String.eqb method "remove" then drop_rows outliers df
      else df
    else df in
  Some (df',
        <[col := outlier_record outlier_count (nrows df0)
                   (if (0 <? outlier_count)%nat then method else "none")]> info).

(** [handle_outliers(df, numeric_cols, method, multiplier)]. *)
Definition handle_outliers (df : frame Q) (numeric_cols : list string)
    (method : string) (multiplier : Q)
  : option (frame Q * gmap string (gmap string pyval)) :=
  foldM (handle_outliers_col df method multiplier) (df, ∅) numeric_cols.


(** A column whose second capping pass moves a value again. *)
Definition skewed_table : frame Q :=
  [ Column "glucose" DNumber [Num 0%Q; Num 100%Q; Num 100%Q; Num 100%Q] ].

(** A column with one far value whose quartiles survive the capping. *)
Definition spiked_column : list (cell Q) :=
  [Num 1%Q; Num 2%Q; Num 3%Q; Num 4%Q; Num 100%Q].

(** ** The model-ready half: numbers it computes with *)

(** The arithmetic the scaler and the selection report need.  The model-ready
    half is written over any such arithmetic: exact over the reals
    ([Arith_R]), exact over the rationals as long as the square roots are
    rational ([Arith_Q], whose [n_sqrt] is partial), float64 over the
    rationals ([Arith_binary64]). *)
Class Arith (num : Type) := {
  n_of_Z : Z -> num;
  n_add : num -> num -> num;
  n_sub : num -> num -> num;
  n_mul : num -> num -> num;
  n_div : num -> num -> num;
  n_is_zero : num -> bool;
  n_leb : num -> num -> bool;
  n_sqrt : num -> option num
}.

(** The exact square root of a rational, when it is rational. *)
Definition Qsqrt_exact (q : Q) : option Q :=
  let r := Qred q in
  let a := Z.sqrt (Qnum r) in
  let b := Z.sqrt (Zpos (Qden r)) in
  if ((a * a =? Qnum r) && (b * b =? Zpos (Qden r)))%Z
  then Some (Qred (Qmake a (Z.to_pos b))) else None.

#[export] Instance Arith_Q : Arith Q := {
  n_of_Z := inject_Z;
  n_add x y := Qred (x + y);
  n_sub x y := Qred (x - y);
  n_mul x y := Qred (x * y);
  n_div x y := Qred (x / y);
  n_is_zero x := Qeq_bool x 0;
  n_leb := Qleb;
  n_sqrt := Qsqrt_exact
}.

(** The float64 nearest to the square root of a rational. *)
Definition binary64_sqrt (q : Q) : Q :=
  if Qltb 0 q then
    let e0 := ((Z.log2 (Qnum q) - Z.log2 (Zpos (Qden q))) / 2 - 52)%Z in
    let e1 := if Qltb q (Qpower 2 (2 * (e0 + 52))) then (e0 - 1)%Z else e0 in
    let e2 := if Qltb q (Qpower 2 (2 * (e1 + 53))) then e1 else (e1 + 1)%Z in
    let s := (q / Qpower 2 (2 * e2))%Q in
    let m := Z.sqrt (Qfloor s) in
    let h := ((inject_Z m + (1 # 2)) * (inject_Z m + (1 # 2)))%Q in
    let m' := if Qltb s h then m
              else if Qltb h s then (m + 1)%Z
              else if Z.even m then m else (m + 1)%Z in
    Qred (inject_Z m' * Qpower 2 e2)
  else 0%Q.

(** Float64 arithmetic on the rationals that are float64 numbers: every
    operation is the exact one followed by [binary64]. *)
Definition Arith_binary64 : Arith Q := {|
  n_of_Z z := binary64 (inject_Z z);
  n_add x y := binary64 (x + y);
  n_sub x y := binary64 (x - y);
  n_mul x y := binary64 (x * y);
  n_div x y := binary64 (x / y);
  n_is_zero x := Qeq_bool x 0;
  n_leb := Qleb;
  n_sqrt x := Some (binary64_sqrt x)
|}.

#[export] Instance Arith_R : Arith R := {
  n_of_Z := IZR;
  n_add := Rplus;
  n_sub := Rminus;
  n_mul := Rmult;
  n_div := Rdiv;
  n_is_zero x := if Req_dec_T x 0 then true else false;
  n_leb x y := if Rle_dec x y then true else false;
  n_sqrt x := Some (sqrt x)
}.

(** What [StandardScaler] stores for one column; a column without any value
    has NaN statistics. *)
Inductive fitted (num : Type) :=
| Stats (mean scale : num)
| NoStats.
Arguments Stats {num} mean scale.
Arguments NoStats {num}.

(** One row of the feature-selection report; a NaN score is [None]. *)
Record selection_row (num : Type) := SelectionRow {
  feature : string;
  score : option num;
  selected : bool;
  protected : bool
}.
Arguments SelectionRow {num} feature score selected protected.
Arguments feature {num} s.
Arguments score {num} s.
Arguments selected {num} s.
Arguments protected {num} s.

(** What the model-ready half returns: the table written to
    [diabetes_enhanced_ml_ready.csv], the [feature_selection_applied] flag,
    the selection report when it is written, and the scaler dumped to
    [feature_scaler.pkl] when one is dumped. *)
Record ml_output (num : Type) := MLOutput {
  ml_table : frame num;
  ml_selection_applied : bool;
  ml_selection_report : option (list (selection_row num));
  ml_persisted_scaler : option (list (string * fitted num))
}.
Arguments MLOutput {num} ml_table ml_selection_applied ml_selection_report ml_persisted_scaler.
Arguments ml_table {num} m.
Arguments ml_selection_applied {num} m.
Arguments ml_selection_report {num} m.
Arguments ml_persisted_scaler {num} m.

(** [[f(x) for x in l]] where [f] can raise. *)
Fixpoint mapM {A B : Type} (f : A -> option B) (l : list A) : option (list B) :=
  match l with
  | [] => Some []
  | x :: r =>
      match f x with
      | Some y => match mapM f r with Some ys => Some (y :: ys) | None => None end
      | None => None
      end
  end.

Definition protected_terms : list string :=
  ["gestational"; "pregnancy"; "hba1c"; "glucose"; "bmi"; "age"].

(** [any(term in col.lower() for term in protected_terms)]. *)
Definition is_protected_name (col : string) : bool :=
  existsb (fun term => contains term (lower col)) protected_terms.

Section ModelReady.
Context {num : Type} `{Arith num}.

(** *** StandardScaler *)

(** The float a cell converts to: [None] is the [ValueError] on a text,
    [Some None] a NaN. *)
Definition cell_value (c : cell num) : option (option num) :=
  match c with
  | NA => Some None
  | Num x => Some (Some x)
  | Flag b => Some (Some (n_of_Z (if b then 1 else 0)))
  | Str _ => None
  end.

Definition n_sum (l : list num) : num := foldr n_add (n_of_Z 0) l.

Definition n_mean (l : list num) : num :=
  n_div (n_sum l) (n_of_Z (Z.of_nat (length l))).

(** The population variance, as [StandardScaler] computes it. *)
Definition n_variance (l : list num) : num :=
  let m := n_mean l in
  n_div (n_sum ((fun x => n_mul (n_sub x m) (n_sub x m)) <$> l))
        (n_of_Z (Z.of_nat (length l))).

(** [scale_]: the standard deviation, 1 for a constant column. *)
Definition n_scale (l : list num) : option num :=
  let v := n_variance l in
  if n_is_zero v then Some (n_of_Z 1) else n_sqrt v.

(** [StandardScaler().fit] on one column: a column without rows is refused
    (a [ValueError]: 0 samples), NaN cells are disregarded. *)
Definition scaler_fit (cs : list (cell num)) : option (fitted num) :=
  if (length cs =? 0)%nat then None
  else
    vs ← mapM cell_value cs;
    let xs := omap (fun v => v) vs in
    if (length xs =? 0)%nat then Some NoStats
    else s ← n_scale xs; Some (Stats (n_mean xs) s).

(** [transform] on one column: [(x - mean_) / scale_], NaN cells kept. *)
Definition scaler_transform (f : fitted num) (cs : list (cell num)) : list (cell num) :=
  match f with
  | Stats m s =>
      (fun c => match cell_value c with
                | Some (Some x) => Num (n_div (n_sub x m) s)
                | _ => c
                end) <$> cs
  | NoStats => cs
  end.

(** [scaler.fit_transform(df[names])] column by column: the fitted statistics
    and the scaled cells of each named column. *)
Definition fit_transform (df : frame num) (names : list string)
  : option (list (string * fitted num * list (cell num))) :=
  mapM (fun n =>
          c ← get_col df n;
          f ← scaler_fit (cells c);
          Some (n, f, scaler_transform f (cells c))) names.

(** [df[names] = scaled]. *)
Definition assign_scaled (df : frame num)
    (scaled : list (string * fitted num * list (cell num))) : frame num :=
  foldl (fun d x => set_col d (fst (fst x)) DNumber (snd x)) df scaled.

(** [scaler.fit(df[names])]: the statistics under the feature names, in
    order. *)
Definition fit_frame (df : frame num) (names : list string)
  : option (list (string * fitted num)) :=
  mapM (fun n => c ← get_col df n; f ← scaler_fit (cells c); Some (n, f)) names.

(** *** CardinalityReducer *)

(** The text a cell holds; categorical columns hold texts. *)
Definition cell_text (c : cell num) : option string :=
  match c with Str s => Some s | _ => None end.

(** The distinct texts of a column in order of first appearance. *)
Definition distinct_texts (cs : list (cell num)) : list string :=
  remove_dups (omap cell_text cs).

(** [s.nunique()]. *)
Definition nunique (cs : list (cell num)) : nat := length (distinct_texts cs).

Definition text_count (s : string) (cs : list (cell num)) : nat :=
  length (List.filter (String.eqb s) (omap cell_text cs)).

(** The sort that [value_counts] applies to the counted values
    ([Series.sort_values(ascending=False)], NumPy's quicksort), taken as
    given: it puts the larger counts first, and the order it gives to values
    of equal count is its own. *)
Variable sort_counts : list (string * nat) -> list (string * nat).

(** [s.value_counts()]: the distinct values with their counts, counted in
    order of first appearance and then sorted. *)
Definition value_counts (cs : list (cell num)) : list (string * nat) :=
  sort_counts ((fun s => (s, text_count s cs)) <$> distinct_texts cs).

(** [value_counts.head(n).index.tolist()]. *)
Definition top_categories (n : nat) (cs : list (cell num)) : list string :=
  take n (fst <$> value_counts cs).

(** [x if x in top_categories else 'Other']. *)
Definition group_other (tops : list string) (c : cell num) : cell num :=
  match c with
  | Str s => if mem s tops then c else Str "Other"
  | _ => Str "Other"
  end.

Definition grouping_record (kept original : nat) : gmap string pyval :=
  <["method" := PStr "frequency_grouping"]>
  (<["kept_categories" := PInt (Z.of_nat kept)]>
  (<["original_categories" := PInt (Z.of_nat original)]> ∅)).

Definition target_encoding_record (new_column : string) (original : nat)
  : gmap string pyval :=
  <["method" := PStr "target_encoding"]>
  (<["new_column" := PStr new_column]>
  (<["original_categories" := PInt (Z.of_nat original)]> ∅)).

(** [TargetEncoder().fit_transform(df[[col]], df[target])] of scikit-learn:
    taken as given, it may raise. *)
Variable target_encoder : list (cell num) -> list (cell num) -> option (list (cell num)).

Definition frequency_grouping (max_categories : nat) (df : frame num)
    (info : gmap string (gmap string pyval)) (c : column num)
  : frame num * gmap string (gmap string pyval) :=
  let tops := top_categories max_categories (cells c) in
  (set_col df (cname c) DObject (group_other tops <$> cells c),
   <[cname c := grouping_record (length tops + 1) (nunique (cells c))]> info).

(** The loop body of [handle_high_cardinality_categorical]. *)
Definition handle_high_cardinality_col (df0 : frame num) (t : option string)
    (max_categories : nat)
    (st : frame num * gmap string (gmap string pyval)) (col : string)
  : option (frame num * gmap string (gmap string pyval)) :=
  let '(df, info) := st in
  c ← get_col df col;
  if (max_categories <? nunique (cells c))%nat then
    if String.eqb col "location" then
      Some (frequency_grouping max_categories df info c)
    else if truthy t && mem (default "" t) (columns df0) then
      tc ← get_col df (default "" t);
      enc ← target_encoder (cells c) (cells tc);
      Some (set_col df (col +:+ "_target_encoded") DNumber enc,
            <[col := target_encoding_record (col +:+ "_target_encoded")
                       (nunique (cells c))]> info)
    else Some (frequency_grouping max_categories df info c)
  else Some (df, info).

Definition handle_high_cardinality_categorical (df : frame num)
    (categorical_cols : list string) (t : option string) (max_categories : nat)
  : option (frame num * gmap string (gmap string pyval)) :=
  foldM (handle_high_cardinality_col df t max_categories) (df, ∅) categorical_cols.

(** *** One-hot encoding *)

(** The categories of a column in sorted order. *)
Definition sorted_categories (cs : list (cell num)) : list string :=
  @merge_sort _ (fun a b => String.leb a b = true)
    (fun a b => decide (String.leb a b = true)) (distinct_texts cs).

(** The indicator column of one category; a missing cell is in none. *)
Definition dummy_column (col : string) (cs : list (cell num)) (v : string) : column num :=
  Column (col +:+ "_" +:+ v) DBool
    ((fun c => Flag (match c with Str s => String.eqb s v | _ => false end)) <$> cs).

Definition dummies_of (df : frame num) (col : string) : option (list (column num)) :=
  c ← get_col df col;
  Some (dummy_column col (cells c) <$> sorted_categories (cells c)).

(** [pd.get_dummies(df, columns=cols, drop_first=False)]: the other columns
    in their order, then the indicator columns of each encoded column. *)
Definition get_dummies (df : frame num) (cols : list string) : option (frame num) :=
  ds ← mapM (dummies_of df) cols;
  Some (List.filter (fun c => negb (mem (cname c) cols)) df ++ mjoin ds).

(** The categorical columns without a target-encoded companion. *)
Definition categorical_for_encoding (df : frame num) (categorical_cols : list string)
  : list string :=
  List.filter
    (fun col => negb (existsb (contains (col +:+ "_target_encoded")) (columns df)))
    categorical_cols.

Definition target_encoded_cols (df : frame num) : list string :=
  List.filter (contains "target_encoded") (columns df).

Definition is_numeric_col (df : frame num) (col : string) : bool :=
  match get_col df col with
  | Some c => is_numeric_dtype (cdtype c)
  | None => false
  end.

Definition final_numeric_cols (df_ml : frame num) (numeric_cols : list string)
  : list string :=
  List.filter (fun col => mem col (columns df_ml) && is_numeric_col df_ml col) numeric_cols
  ++ target_encoded_cols df_ml.

(** *** FeatureSelector *)

(** [SelectKBest(score_func=f_classif, k=k).fit(X, y)] of scikit-learn, taken
    as given: the scores and the support mask, or an exception. *)
Variable select_k_best :
  nat -> frame num -> list (cell num) -> option (list (option num) * list bool).

(** [df[names]]. *)
Definition select_columns (df : frame num) (names : list string) : option (frame num) :=
  mapM (get_col df) names.

(** [X.columns] with [X = df_ml.drop(columns=[target])]. *)
Definition feature_columns (df_ml : frame num) (target : string) : frame num :=
  List.filter (fun c => negb (String.eqb (cname c) target)) df_ml.

Definition numeric_feature_cols (X : frame num) : list string :=
  List.filter (is_numeric_col X) (columns X).

Definition categorical_feature_cols (X : frame num) : list string :=
  List.filter (fun col => negb (is_numeric_col X col)) (columns X).

Definition protected_features (X : frame num) : list string :=
  List.filter is_protected_name (columns X).

Definition protected_numeric (X : frame num) : list string :=
  let numeric := numeric_feature_cols X in
  List.filter (fun col => mem col numeric) (protected_features X).

Definition selectable_numeric (X : frame num) : list string :=
  let kept := protected_numeric X in
  List.filter (fun col => negb (mem col kept)) (numeric_feature_cols X).

(** The outer condition of step 10. *)
Definition selection_triggered (df_ml : frame num) (t : option string) : bool :=
  truthy t && mem (default "" t) (columns df_ml) && (50 <? length (columns df_ml))%nat.

(** The inner condition: [selectable_numeric and len(numeric_feature_cols) > 30]. *)
Definition selection_worthwhile (X : frame num) : bool :=
  negb (length (selectable_numeric X) =? 0)%nat
  && (30 <? length (numeric_feature_cols X))%nat.

(** Whether the selection branch is taken. *)
Definition selection_runs (df_ml : frame num) (t : option string) : bool :=
  selection_triggered df_ml t
  && selection_worthwhile (feature_columns df_ml (default "" t)).

(** [pd.Series(names)[mask].tolist()]; the lengths must agree. *)
Fixpoint mask_select (names : list string) (mask : list bool) : option (list string) :=
  match names, mask with
  | [], [] => Some []
  | n :: r, b :: m =>
      match mask_select r m with
      | Some l => Some (if b then n :: l else l)
      | None => None
      end
  | _, _ => None
  end.

(** The rows of the two report tables before sorting. *)
Fixpoint selectable_rows (names : list string) (scores : list (option num))
    (mask : list bool) : list (selection_row num) :=
  match names, scores, mask with
  | n :: r, s :: ss, b :: m => SelectionRow n s b false :: selectable_rows r ss m
  | _, _, _ => []
  end.

Definition protected_rows (names : list string) : list (selection_row num) :=
  (fun n => SelectionRow n (Some (n_of_Z 999)) true true) <$> names.

(** The order of [sort_values('score', ascending=False)]: higher scores
    first, NaN last. *)
Definition score_ge (a b : selection_row num) : bool :=
  match score a, score b with
  | Some x, Some y => n_leb y x
  | Some _, None => true
  | None, Some _ => false
  | None, None => true
  end.

Definition sort_by_score (rows : list (selection_row num)) : list (selection_row num) :=
  @merge_sort _ (fun a b => score_ge a b = true)
    (fun a b => decide (score_ge a b = true)) rows.

(** Step 10 of [enhanced_preprocessing]: the table, the flag and the report. *)
Definition feature_selection (df_ml : frame num) (t : option string)
  : option (frame num * bool * option (list (selection_row num))) :=
  if selection_triggered df_ml t then
    let target := default "" t in
    let X := feature_columns df_ml target in
    if selection_worthwhile X then
      let selectable := selectable_numeric X in
      let k_selectable := Nat.max 1 (Nat.min 15 (length selectable)) in
      Xs ← select_columns X selectable;
      y ← get_col df_ml target;
      '(scores, support) ← select_k_best k_selectable Xs (cells y);
      chosen ← mask_select selectable support;
      out ← select_columns df_ml
               (protected_numeric X ++ chosen ++ categorical_feature_cols X ++ [target]);
      Some (out, true,
            Some (sort_by_score
                    (protected_rows (protected_numeric X)
                     ++ selectable_rows selectable scores support)))
    else Some (df_ml, false, None)
  else Some (df_ml, false, None).

(** [final_numeric_in_ml]. *)
Definition final_numeric_in_ml (df_ml : frame num) (final_numeric : list string)
    (t : option string) : list string :=
  List.filter (fun col => mem col final_numeric && ne_target col t) (columns df_ml).

(** The one-hot encoded table of step 8. *)
Definition encode_categoricals (df_clean : frame num) (categorical_cols : list string)
  : option (frame num) :=
  let encode := categorical_for_encoding df_clean categorical_cols in
  if (length encode =? 0)%nat then Some df_clean else get_dummies df_clean encode.

(** The scaled table of step 9. *)
Definition scale_numeric (df_ml : frame num) (final_numeric : list string)
  : option (frame num) :=
  if (length final_numeric =? 0)%nat then Some df_ml
  else s ← fit_transform df_ml final_numeric; Some (assign_scaled df_ml s).

(** Steps 8 to 10 of [enhanced_preprocessing], from the cleaned table and the
    two feature lists to the model-ready table and the persisted scaler. *)
Definition prepare_ml (df_clean : frame num) (numeric_cols categorical_cols : list string)
    (t : option string) : option (ml_output num) :=
  df_ml ← encode_categoricals df_clean categorical_cols;
  let final_numeric := final_numeric_cols df_ml numeric_cols in
  scaled ← scale_numeric df_ml final_numeric;
  '(out, applied, report) ← feature_selection scaled t;
  persisted ←
    (if (length final_numeric =? 0)%nat then Some None
     else
       let names := final_numeric_in_ml out final_numeric t in
       if (length names =? 0)%nat then Some None
       else s ← fit_frame out names; Some (Some s));
  Some (MLOutput out applied report persisted).

(** The [feature_selection_applied] entry of the processing summary. *)
Definition summary_feature_selection_applied (df_ml df_clean : frame num) : string :=
  if (length (columns df_ml) =? length (columns df_clean))%nat then "No" else "Yes".
End ModelReady.

(** ** FeatureEngineer: the derived columns *)

(** [pd.cut] on a column; a text cell makes it raise. *)
Definition cut_column (bins : list edge) (labels : list string) (cs : list (cell Q))
  : option (list (cell Q)) :=
  mapM (fun c => match c with Str _ => None | _ => Some (cut bins labels c) end) cs.

(** An operand of [+] in a row-wise sum: a number or a text. *)
Inductive operand := ONum (q : Q) | OText (s : string).

(** The cell of one column in row [i] as an operand: the sum skips missing
    cells, which count for 0; a boolean counts for 0 or 1. *)
Definition summand (c : cell Q) : operand :=
  match c with
  | Str s => OText s
  | _ => ONum (default 0%Q (cell_num c))
  end.

(** [a + b]: numbers add, texts concatenate, a number and a text raise a
    [TypeError]. *)
Definition py_add (a b : operand) : option operand :=
  match a, b with
  | ONum x, ONum y => Some (ONum (Qred (x + y)))
  | OText s, OText u => Some (OText (s +:+ u))
  | _, _ => None
  end.

Definition operand_cell (o : operand) : cell Q :=
  match o with ONum q => Num q | OText s => Str s end.

(** The sum of one row, taken from the left. *)
Definition row_sum (xs : list (cell Q)) : option (cell Q) :=
  match summand <$> xs with
  | [] => Some (Num 0%Q)
  | o :: r => operand_cell <$> foldM py_add o r
  end.

(** [df[names].sum(axis=1)]: the rows are summed over the named columns; a
    [category] column does not support the sum. *)
Definition row_sums (df : frame Q) (names : list string) : option (list (cell Q)) :=
  cols ← mapM (get_col df) names;
  if existsb (fun c => dtype_eqb (cdtype c) DCategory) cols then None
  else mapM (fun i => row_sum ((fun c => default NA (cells c !! i)) <$> cols))
            (seq 0 (nrows df)).

(** The storage type of [df[names].sum(axis=1)] on a table with rows: the
    rows are summed as Python objects, and the result stays of type [object],
    as soon as the columns have no common numeric type, that is with a text
    column or with booleans next to numbers. *)
Definition sum_dtype (df : frame Q) (names : list string) : dtype :=
  let dtypes := omap (fun n => cdtype <$> get_col df n) names in
  let has d := existsb (dtype_eqb d) dtypes in
  if has DObject || (has DBool && has DNumber) then DObject else DNumber.

(** [s.map({'low': 0, 'moderate': 1, 'high': 2}).fillna(0)]. *)
Definition activity_score (c : cell Q) : cell Q :=
  match c with
  | Str "low" => Num 0%Q
  | Str "moderate" => Num 1%Q
  | Str "high" => Num 2%Q
  | _ => Num 0%Q
  end.

(** [2 if 7 <= x <= 9 else (1 if 6 <= x <= 10 else 0) if pd.notna(x) else 0];
    comparing a text with a number raises. *)
Definition sleep_quality (c : cell Q) : option (cell Q) :=
  match c with
  | NA => Some (Num 0%Q)
  | Str _ => None
  | _ =>
      match cell_num c with
      | Some x =>
          Some (Num (if Qleb 7 x && Qleb x 9 then 2
                     else if Qleb 6 x && Qleb x 10 then 1 else 0)%Q)
      | None => Some (Num 0%Q)
      end
  end.

(** [s.map({'urban': 1.1, 'rural': 0.9}).fillna(1.0)]. *)
Definition urban_weight (c : cell Q) : Q :=
  match c with
  | Str "urban" => 1.1%Q
  | Str "rural" => 0.9%Q
  | _ => 1%Q
  end.

(** [environmental_risk * weight], row by row. *)
Fixpoint location_risk (env urban : list (cell Q)) : option (list (cell Q)) :=
  match env, urban with
  | e :: er, u :: ur =>
      match e with
      | Str _ => None
      | _ =>
          match location_risk er ur with
          | Some r =>
              Some (match cell_num e with
                    | Some x => Num (Qred (x * urban_weight u))
                    | None => NA
                    end :: r)
          | None => None
          end
      end
  | _, _ => Some []
  end.

Definition health_indicators : list string :=
  ["hypertension"; "heart_disease"; "family_history"].

(** One conditional derivation: when [present] holds, the column [name] is
    set from [cells] and [name] is appended to the new features. *)
Definition derive (present : bool) (name : string) (d : dtype)
    (new_cells : frame Q -> option (list (cell Q)))
    (st : frame Q * list string) : option (frame Q * list string) :=
  if present then
    cs ← new_cells (fst st);
    Some (set_col (fst st) name d cs, snd st ++ [name])
  else Some st.

(** [feature_engineering(df, target_col)]: the table with the derived
    columns and the list of their names.  The storage types are those of a
    table that has rows. *)
Definition feature_engineering (df : frame Q) : option (frame Q * list string) :=
  let has n := mem n (columns df) in
  let available := List.filter has health_indicators in
  let lifestyle_factors :=
    (if has "physical_activity" then ["activity_score"] else [])
    ++ (if has "sleep_hours" then ["sleep_quality"] else []) in
  st ← derive (has "bmi") "bmi_risk_level" DCategory
         (fun d => c ← get_col d "bmi"; cut_column bmi_bins bmi_labels (cells c))
         (df, []);
  st ← derive (has "age") "age_diabetes_risk" DCategory
         (fun d => c ← get_col d "age"; cut_column age_bins age_labels (cells c)) st;
  st ← derive (negb (length available =? 0)%nat) "health_risk_score"
         (sum_dtype df available) (fun d => row_sums d available) st;
  st ← derive (has "physical_activity") "activity_score" DNumber
         (fun d => c ← get_col d "physical_activity"; Some (activity_score <$> cells c)) st;
  st ← derive (has "sleep_hours") "sleep_quality" DNumber
         (fun d => c ← get_col d "sleep_hours"; mapM sleep_quality (cells c)) st;
  st ← derive (negb (length lifestyle_factors =? 0)%nat) "lifestyle_score" DNumber
         (fun d => row_sums d lifestyle_factors) st;
  derive (has "environmental_risk" && has "urban_rural") "location_risk" DNumber
         (fun d => e ← get_col d "environmental_risk";
                   u ← get_col d "urban_rural";
                   location_risk (cells e) (cells u)) st.

(** Step 5 of [enhanced_preprocessing]: the new features whose storage type
    is [object] join the categorical list, all the others the numeric list.
    A column made by [pd.cut] has the type [category], not [object]. *)
Definition extend_feature_lists (df : frame Q) (new_features : list string)
    (numeric_cols categorical_cols : list string) : list string * list string :=
  let new_categorical :=
    List.filter (fun f => match get_col df f with
                          | Some c => dtype_eqb (cdtype c) DObject
                          | None => false
                          end) new_features in
  let new_numeric := List.filter (fun f => negb (mem f new_categorical)) new_features in
  (numeric_cols ++ new_numeric, categorical_cols ++ new_categorical).

(** ** PipelineOrchestrator *)

(** Row [i] of a table. *)
Definition row_at (df : frame Q) (i : nat) : list (cell Q) :=
  (fun c => default NA (cells c !! i)) <$> df.

(** Equality of rows for [drop_duplicates]: two missing cells are equal. *)
Definition cell_same (a b : cell Q) : bool :=
  match a, b with
  | NA, NA => true
  | _, _ => cell_eqb a b
  end.

Fixpoint row_same (a b : list (cell Q)) : bool :=
  match a, b with
  | [], [] => true
  | x :: r, y :: s => cell_same x y && row_same r s
  | _, _ => false
  end.

(** [df.duplicated()]: the rows equal to an earlier row. *)
Definition duplicated (df : frame Q) : list bool :=
  (fun i => existsb (fun j => row_same (row_at df j) (row_at df i)) (seq 0 i))
    <$> seq 0 (nrows df).

(** [df.drop_duplicates().reset_index(drop=True)]. *)
Definition drop_duplicates (df : frame Q) : frame Q := drop_rows (duplicated df) df.

(** What [enhanced_preprocessing] writes: the readable table and the
    model-ready output. *)
Record pipeline_output := PipelineOutput {
  readable : frame Q;
  ml_ready : ml_output Q
}.

Section Orchestrator.
(** The arithmetic of the scaler and the estimators of pandas and
    scikit-learn the pipeline calls are parameters. *)
Variable arith : Arith Q.
Variable str_of_num : Q -> string.
Variable sort_counts : list (string * nat) -> list (string * nat).
Variable target_encoder : list (cell Q) -> list (cell Q) -> option (list (cell Q)).
Variable select_k_best :
  nat -> frame Q -> list (cell Q) -> option (list (option Q) * list bool).

(** [enhanced_preprocessing(df, outdir, target_col, handle_outliers_method,
    use_feature_engineering)], files apart.  The imputation report is given
    its three column names after [reset_index]: an empty report has the index
    column only, and the assignment raises a [ValueError]. *)
Definition enhanced_preprocessing (df : frame Q) (t : option string)
    (handle_outliers_method : string) (use_feature_engineering : bool)
  : option pipeline_output :=
  let st := classify_columns str_of_num (drop_duplicates df) t in
  '(df1, imputation_info) ←
     enhanced_imputation (cl_df st) (cl_numeric st) (cl_categorical st) t;
  _ ← (if (size imputation_info =? 0)%nat then None else Some tt);
  df2 ← (if negb (length (cl_numeric st) =? 0)%nat
            && negb (String.eqb handle_outliers_method "none")
         then r ← handle_outliers df1 (cl_numeric st) handle_outliers_method 1.5;
              Some (fst r)
         else Some df1);
  '(df3, numeric_cols, categorical_cols) ←
     (if use_feature_engineering then
        '(d, new_features) ← feature_engineering df2;
        let '(n, c) := extend_feature_lists d new_features
                         (cl_numeric st) (cl_categorical st) in
        Some (d, n, c)
      else Some (df2, cl_numeric st, cl_categorical st));
  '(df_clean, _) ←
     handle_high_cardinality_categorical sort_counts target_encoder df3
       categorical_cols t 15;
  ml ← @prepare_ml Q arith select_k_best df_clean numeric_cols categorical_cols t;
  Some (PipelineOutput df_clean ml).
End Orchestrator.

(** *** Stand-ins for the estimators, to run the pipeline on concrete
    tables; the theorems hold for any functions in their place. *)

(** A stable descending sort of the counted values: equal counts stay in
    order of first appearance. *)
Fixpoint insert_count (x : string * nat) (l : list (string * nat))
  : list (string * nat) :=
  match l with
  | [] => [x]
  | y :: r => if (snd y <=? snd x)%nat then x :: l else y :: insert_count x r
  end.

Definition stable_sort_counts (l : list (string * nat)) : list (string * nat) :=
  foldr insert_count [] l.

(** Keeps the first [k] features, every score 0. *)
Definition first_k_selector (k : nat) (X : frame Q) (y : list (cell Q))
  : option (list (option Q) * list bool) :=
  Some (replicate (length X) (Some 0%Q),
        (replicate (Nat.min k (length X)) true ++ replicate (length X - k) false)%list).

(** Encodes every category by 0. *)
Definition zero_target_encoder (cs ts : list (cell Q)) : option (list (cell Q)) :=
  Some ((fun _ => Num 0%Q) <$> cs).

(** *** More concrete tables *)

(** [prefix0 .. prefix(n-1)]. *)
Definition numbered (prefix : string) (n : nat) : list string :=
  (fun i => prefix +:+ NilZero.string_of_uint (Nat.to_uint i)) <$> seq 0 n.

(** 25 protected and 25 selectable numeric features, and the target. *)
Definition wide_table : frame Q :=
  (((fun n => Column n DNumber [Num 0%Q; Num 1%Q])
      <$> (numbered "age_" 25 ++ numbered "f_" 25)%list)
   ++ [Column "diabetes" DNumber [Num 0%Q; Num 1%Q]])%list.

Definition wide_selection
  : option (frame Q * bool * option (list (selection_row Q))) :=
  Eval vm_compute in feature_selection first_k_selector wide_table (Some "diabetes").

Definition wide_selected : frame Q :=
  match wide_selection with Some (out, _, _) => out | None => [] end.

Definition wide_report : option (list (selection_row Q)) :=
  match wide_selection with Some (_, _, report) => report | None => None end.

(** A cleaned table as step 6 leaves it: the text column [city] kept next
    to its target encoding, and a categorical column to encode. *)
Definition kept_text_table : frame Q :=
  [ Column "bmi" DNumber [Num 1%Q; Num 3%Q];
    Column "city" DObject [Str "Galle"; Str "Kandy"];
    Column "city_target_encoded" DNumber [Num 0%Q; Num 1%Q];
    Column "smoking" DObject [Str "never"; Str "current"];
    Column "diabetes" DNumber [Num 0%Q; Num 1%Q] ].

Definition kept_text_ml : ml_output Q :=
  {| ml_table :=
       [ Column "bmi" DNumber [Num (-1)%Q; Num 1%Q];
         Column "city" DObject [Str "Galle"; Str "Kandy"];
         Column "city_target_encoded" DNumber [Num (-1)%Q; Num 1%Q];
         Column "diabetes" DNumber [Num 0%Q; Num 1%Q];
         Column "smoking_current" DBool [Flag false; Flag true];
         Column "smoking_never" DBool [Flag true; Flag false] ];
     ml_selection_applied := false;
     ml_selection_report := None;
     ml_persisted_scaler :=
       Some [("bmi", Stats 0%Q 1%Q); ("city_target_encoded", Stats 0%Q 1%Q)] |}.

(** A raw table with a [bmi] and an [age] column. *)
Definition bands_table : frame Q :=
  [ Column "bmi" DNumber [Num 22%Q; Num 31%Q];
    Column "age" DNumber [Num 30%Q; Num 50%Q];
    Column "diabetes" DNumber [Num 0%Q; Num 1%Q] ].

(** A raw table with a gap to impute: the [bmi] of the third row is
    missing. *)
Definition gap_table : frame Q :=
  [ Column "bmi" DNumber [Num 22%Q; Num 31%Q; NA; Num 24%Q];
    Column "age" DNumber [Num 30%Q; Num 50%Q; Num 40%Q; Num 61%Q];
    Column "diabetes" DNumber [Num 0%Q; Num 1%Q; Num 0%Q; Num 1%Q] ].

(** The test for a cell that is a 0/1 flag. *)
Definition is_flag {num : Type} (c : cell num) : bool :=
  match c with Flag _ => true | _ => false end.

(** *** The scaler over the reals: vocabulary and a concrete table *)

(** The numbers of a column that converts to floats. *)
Definition values_of {num : Type} (vs : list (option num)) : list num :=
  omap (fun v => v) vs.

(** The column holds at least one number. *)
Definition has_value {num : Type} (cs : list (cell num)) : bool :=
  existsb (fun c => match c with Num _ | Flag _ => true | _ => false end) cs.

(** The numbers a column holds; a boolean counts for 0 or 1. *)
Definition column_numbers (cs : list (cell R)) : list R :=
  omap (fun c => match c with
                 | Num x => Some x
                 | Flag b => Some (if b then 1%R else 0%R)
                 | _ => None
                 end) cs.

(** The mean and the standard deviation of a list of numbers, in the words
    of the specification: [mu] is the mean of [xs] when [n * mu] is their
    sum, [sigma] is their (population) standard deviation when it is not
    negative and [n * sigma^2] is the sum of the squared distances to the
    mean. *)
Definition Rsum (xs : list R) : R := foldr Rplus 0%R xs.

Definition mean_of (xs : list R) (mu : R) : Prop :=
  xs <> [] /\ Rmult (INR (length xs)) mu = Rsum xs.

Definition std_of (xs : list R) (sigma : R) : Prop :=
  exists mu, mean_of xs mu /\ Rle 0 sigma /\
    Rmult (INR (length xs)) (Rmult sigma sigma)
    = Rsum ((fun x => Rmult (Rminus x mu) (Rminus x mu)) <$> xs).



(** Its [bmi] column standardized by mean 3 and scale 2. *)
Definition real_scaled : list (cell R) :=
  scaler_transform (Stats (n_mean [1%R; 5%R]) 2%R) [Num 1%R; Num 5%R].






(** ** The prediction service ([services/app/services/prediction.py]) *)

Module Prediction.

(** A scaler object: feature names, means and scales, in order. *)
Record scaler := Scaler {
  feature_names_in_ : list string;
  mean_ : list Q;
  scale_ : list Q
}.

(** A loaded classifier: [predict_proba(row)[0][1]] on the row of named
    feature values, or an exception. *)
Definition model := list (string * pyval) -> option Q.

(** What is on disk when the service starts: the two models with their
    feature schemas under [models/], and the scaler the pipeline dumped to
    [data/processed_enhanced/feature_scaler.pkl]. *)
Record files := Files {
  diabetes_women_model_pkl : option model;
  women_model_features_json : option (list string);
  diabetes_men_model_pkl : option model;
  men_model_features_json : option (list string);
  feature_scaler_pkl : option scaler
}.

(** The state of [DiabetesPredictionService]. *)
Record service := Service {
  women_model : option model;
  men_model : option model;
  women_features : option (list string);
  men_features : option (list string);
  feature_scaler : option scaler
}.

(** The validated request ([PredictionRequest]), as far as the service reads
    it. *)
Record request := Request {
  age : Z;
  gender : string;
  height : Q;
  weight : Q;
  gestationalHistory : string;
  smoking : string;
  hbA1c : option Q;
  bloodGlucose : option Q
}.

(** The fields of the returned dictionary that do not depend on the
    recommendation texts. *)
Record prediction := Prediction {
  error : option string;
  risk_percentage : Q;
  risk_level : string;
  model_used : string;
  bmi : Q;
  confidence : string;
  has_clinical_data : bool
}.

(** The class [HardcodedScaler] of [load_scaler]. *)
Definition HardcodedScaler : scaler :=
  {| feature_names_in_ := ["age"; "bmi"; "hbA1c_level"; "blood_glucose_level"];
     mean_ := [41.885856; 27.3207671; 5.527507; 138.05806]%Q;
     scale_ := [22.51672729; 6.63675023; 1.07066674; 40.70793251]%Q |}.

(** [load_scaler]: no file is read. *)
Definition load_scaler (fs : files) : option scaler := Some HardcodedScaler.

(** [load_models]: a schema is read only next to its model. *)
Definition load_models (fs : files) (scaler_slot : option scaler) : service :=
  {| women_model := diabetes_women_model_pkl fs;
     men_model := diabetes_men_model_pkl fs;
     women_features :=
       match diabetes_women_model_pkl fs with
       | Some _ => women_model_features_json fs
       | None => None
       end;
     men_features :=
       match diabetes_men_model_pkl fs with
       | Some _ => men_model_features_json fs
       | None => None
       end;
     feature_scaler := scaler_slot |}.

(** [__init__]. *)
Definition init (fs : files) : service := load_models fs (load_scaler fs).

(** [round(x, digits)] on a float: the decimal with [digits] digits nearest
    to the exact value of [x], ties to even, then the float nearest to that
    decimal. *)
Definition round_to (digits : nat) (q : Q) : Q :=
  let p := inject_Z (10 ^ Z.of_nat digits) in
  binary64 (inject_Z (round_half_even (q * p)) / p).

(** A feature value as a number; a text has none. *)
Definition as_number (v : pyval) : option Q :=
  match v with
  | PInt z => Some (inject_Z z)
  | PFloat (Some q) => Some q
  | PFloat None => None
  | PBool b => Some (if b then 1 else 0)%Q
  | PStr _ => None
  end.

(** Truthiness of [features.get(key, False)]. *)
Definition flag_of (features : gmap string pyval) (key : string) : bool :=
  match features !! key with
  | Some (PBool b) => b
  | Some (PInt z) => negb (z =? 0)%Z
  | Some (PFloat (Some q)) => negb (Qeq_bool q 0)
  | Some (PFloat None) => true
  | Some (PStr s) => negb (String.eqb s "")
  | None => false
  end.

(** [features[key] if key in features else d]. *)
Definition feature_or (features : gmap string pyval) (key : string) (d : pyval) : pyval :=
  default d (features !! key).

(** [v >= k] on a feature value and a number: false on NaN, a [TypeError]
    on a text. *)
Definition at_least (v : pyval) (k : Q) : option bool :=
  match v with
  | PInt z => Some (Qleb k (inject_Z z))
  | PFloat (Some q) => Some (Qleb k q)
  | PFloat None => Some false
  | PBool b => Some (Qleb k (if b then 1 else 0))
  | PStr _ => None
  end.

(** A chain [if v >= k1: risk_score += x1 / elif v >= k2: risk_score += x2]:
    the float added for the first threshold [v] reaches, nothing (0) when it
    reaches none. *)
Fixpoint increment (v : pyval) (steps : list (Q * Q)) : option Q :=
  match steps with
  | [] => Some 0%Q
  | (k, x) :: r =>
      match at_least v k with
      | Some true => Some (binary64 x)
      | Some false => increment v r
      | None => None
      end
  end.

(** [a + b] on floats. *)
Definition float_add (a b : Q) : Q := binary64 (a + b).

(** [min(risk_score, cap)] on floats, the cap a literal. *)
Definition capped (cap risk_score : Q) : Q :=
  if Qltb (binary64 cap) risk_score then binary64 cap else risk_score.

(** [_calculate_lifestyle_risk]: the score starts at 0.0 and the increments
    are added in the order of the four blocks. *)
Definition calculate_lifestyle_risk (features : gmap string pyval) : option Q :=
  let age := feature_or features "age" (PInt 35) in
  r1 ← increment age [(65, 0.3); (50, 0.2); (35, 0.1)]%Q;
  let bmi := feature_or features "bmi" (PInt 25) in
  r2 ← increment bmi [(35, 0.25); (30, 0.2); (25, 0.1)]%Q;
  let r3 := (if flag_of features "gender_Male" then binary64 0.05 else 0)%Q in
  let r4 := (if flag_of features "smoking_history_current" then binary64 0.1
             else if flag_of features "smoking_history_former" then binary64 0.05
             else 0)%Q in
  let risk_score := float_add (float_add (float_add (float_add 0 r1) r2) r3) r4 in
  Some (capped 0.8 risk_score).

(** [_calculate_risk_with_clinical]. *)
Definition calculate_risk_with_clinical (features : gmap string pyval) : option Q :=
  let hba1c := feature_or features "hbA1c_level" (PFloat (Some 5.7%Q)) in
  let glucose := feature_or features "blood_glucose_level" (PInt 95) in
  r1 ← increment hba1c [(6.5, 0.7); (5.7, 0.4)]%Q;
  r2 ← increment glucose [(126, 0.3); (100, 0.15)]%Q;
  l ← calculate_lifestyle_risk features;
  let lifestyle_risk := binary64 (l * binary64 0.3) in
  let risk_score := float_add (float_add (float_add 0 r1) r2) lifestyle_risk in
  Some (capped 0.95 risk_score).

(** The fallback of [predict_diabetes_risk]: probability, model name and
    confidence. *)
Definition risk_calculator (features : gmap string pyval) (clinical : bool)
  : option (Q * string * string) :=
  if clinical then
    r ← calculate_risk_with_clinical features;
    Some (r, "Risk Calculator (Clinical + Lifestyle)", "moderate")
  else
    r ← calculate_lifestyle_risk features;
    Some (r, "Risk Calculator (Lifestyle Only)", "moderate").

(** The message of the [TypeError] of a calculator: the first comparison on
    a text is [hba1c >= 6.5] with clinical data, and one with an integer
    otherwise. *)
Definition comparison_error (features : gmap string pyval) (clinical : bool) : string :=
  match clinical, feature_or features "hbA1c_level" (PFloat (Some 5.7%Q)) with
  | true, PStr _ => "'>=' not supported between instances of 'str' and 'float'"
  | _, _ => "'>=' not supported between instances of 'str' and 'int'"
  end.

(** [index] of a text in a list of categories. *)
Fixpoint index_of (x : string) (l : list string) : Z :=
  match l with
  | [] => 0
  | y :: r => if String.eqb x y then 0 else (1 + index_of x r)%Z
  end.

(** The body-mass index [preprocess_input] computes:
    [weight / ((height / 100) ** 2)], as the exact quotient. *)
Definition request_bmi (req : request) : Q :=
  Qred (weight req / ((height req / 100) * (height req / 100))).

(** [has_clinical_data]. *)
Definition request_is_clinical (req : request) : bool :=
  match hbA1c req, bloodGlucose req with
  | None, None => false
  | _, _ => true
  end.

(** [float(v) if v and v != '' else d]: a value of 0 is falsy. *)
Definition clinical_value (v : option Q) (d : Q) : Q :=
  match v with
  | Some x => if Qeq_bool x 0 then d else x
  | None => d
  end.

(** The part of the feature dictionary every request gets. *)
Definition base_features (req : request) (gender : string) : gmap string pyval :=
  let age := inject_Z (age req) in
  let bmi := request_bmi req in
  let smoking_history := lower (smoking req) in
  let gender_safe := lower gender in
  let bmi_risk :=
    if Qleb 25 bmi && Qltb bmi 30 then "overweight"
    else if Qleb 30 bmi && Qltb bmi 35 then "obese_1"
    else if Qleb 35 bmi then "obese_2"
    else if Qltb bmi 18.5 then "underweight"
    else "normal" in
  let age_risk :=
    if Qleb 65 age then "very_high_risk"
    else if Qleb 50 age then "high_risk"
    else if Qleb 35 age then "moderate_risk"
    else "low_risk" in
  list_to_map
    [ ("age", PFloat (Some age));
      ("bmi", PFloat (Some bmi));
      ("hbA1c_level", PFloat (Some (clinical_value (hbA1c req) 5.7)));
      ("blood_glucose_level", PFloat (Some (clinical_value (bloodGlucose req) 95)));
      ("gender_Female", PBool (String.eqb gender_safe "female"));
      ("gender_Male", PBool (String.eqb gender_safe "male"));
      ("smoking_history_No Info", PBool (String.eqb smoking_history "no info"));
      ("smoking_history_current", PBool (String.eqb smoking_history "current"));
      ("smoking_history_ever", PBool (String.eqb smoking_history "ever"));
      ("smoking_history_former", PBool (String.eqb smoking_history "former"));
      ("smoking_history_never", PBool (String.eqb smoking_history "never"));
      ("smoking_history_not current",
         PBool (String.eqb smoking_history "not current"));
      ("bmi_category_Normal", PBool (Qleb 18.5 bmi && Qltb bmi 25));
      ("bmi_category_Obese", PBool (Qleb 30 bmi));
      ("bmi_category_Overweight", PBool (Qleb 25 bmi && Qltb bmi 30));
      ("bmi_category_Underweight", PBool (Qltb bmi 18.5));
      ("age_group_Adult", PBool (Qleb 18 age && Qltb age 40));
      ("age_group_Child", PBool (Qltb age 18));
      ("age_group_Middle-aged", PBool (Qleb 40 age && Qltb age 60));
      ("age_group_Senior", PBool (Qleb 60 age));
      ("location_Delaware", PBool false);
      ("location_Kansas", PBool false);
      ("location_Kentucky", PBool false);
      ("alcohol_intake_none", PBool true);
      ("region_income_high", PBool true);
      ("year_2019", PBool false);
      ("year_2022", PBool true);
      ("bmi_risk_level",
         PInt (index_of bmi_risk
                 ["normal"; "underweight"; "overweight"; "obese_1"; "obese_2"]));
      ("age_diabetes_risk",
         PInt (index_of age_risk
                 ["low_risk"; "moderate_risk"; "high_risk"; "very_high_risk"])) ].

(** The feature dictionary: the gestational entries are added for women. *)
Definition request_features (req : request) (gender : string) : gmap string pyval :=
  if String.eqb (lower gender) "female" then
    let yes := mem (lower (gestationalHistory req)) ["yes"; "true"; "1"] in
    <["gestational_history_0.0" := PBool (negb yes)]>
    (<["gestational_history_1.0" := PBool yes]>
    (<["gestational_history_No" := PBool false]>
    (<["gestational_history_Not Applicable" := PBool false]>
       (base_features req gender))))
  else base_features req gender.

(** [preprocess_input]: the feature dictionary and [has_clinical_data];
    a height of 0 makes the BMI division raise ([None]). *)
Definition preprocess_input (req : request) (gender : string)
  : option (gmap string pyval * bool) :=
  if Qeq_bool (height req) 0 then None
  else Some (request_features req gender, request_is_clinical req).

(** The numeric features the service scales: a fixed list. *)
Definition numeric_features : list string :=
  ["age"; "bmi"; "hbA1c_level"; "blood_glucose_level"].

(** [str.title] on a one-word ASCII text. *)
Definition title (s : string) : string :=
  match s with
  | EmptyString => EmptyString
  | String c r =>
      let n := nat_of_ascii c in
      String (if ((97 <=? n) && (n <=? 122))%nat then ascii_of_nat (n - 32) else c)
             (lower r)
  end.

(** The value given to a schema column the request did not produce. *)
Definition default_feature (gender col : string) : pyval :=
  if contains "gestational" (lower col) then PBool false
  else if mem col ["gender_Female"; "gender_Male"]
       then PBool (String.eqb col ("gender_" +:+ title gender))
  else PInt 0.

(** The one-row [feature_df] reordered to the schema, with the defaults. *)
Definition feature_row (features : gmap string pyval) (gender : string)
    (schema : list string) : list (string * pyval) :=
  (fun col => (col, default (default_feature gender col) (features !! col))) <$> schema.

(** [feature_df[names]] on the row; a name off the schema is the [KeyError]. *)
Definition row_values (row : list (string * pyval)) (names : list string)
  : option (list pyval) :=
  mapM (fun n => snd <$> List.find (fun x => String.eqb (fst x) n) row) names.

(** [HardcodedScaler.transform]: [(X - mean_) / scale_] along the row. *)
Fixpoint transform (xs means scales : list Q) : list Q :=
  match xs, means, scales with
  | x :: xr, m :: mr, s :: sr => Qred ((x - m) / s) :: transform xr mr sr
  | _, _, _ => []
  end.

(** [feature_df[names] = values]. *)
Fixpoint assign_row (row : list (string * pyval)) (names : list string) (vals : list Q)
  : list (string * pyval) :=
  match names, vals with
  | n :: nr, v :: vr =>
      assign_row ((fun x => if String.eqb (fst x) n then (fst x, PFloat (Some v)) else x)
                    <$> row) nr vr
  | _, _ => row
  end.

(** The [try] block of [predict_diabetes_risk] (lines 284 to 335): [None] is
    any exception raised in it. *)
Definition model_probability (svc : service) (m : model) (schema : list string)
    (features : gmap string pyval) (gender : string) : option Q :=
  let row := feature_row features gender schema in
  row' ← match feature_scaler svc with
         | Some sc =>
             vals ← row_values row numeric_features;
             xs ← mapM as_number vals;
             Some (assign_row row numeric_features (transform xs (mean_ sc) (scale_ sc)))
         | None => Some row
         end;
  m row'.

Definition failed (message : string) : prediction :=
  {| error := Some ("Prediction failed: " +:+ message);
     risk_percentage := 0; risk_level := "unknown"; model_used := "Error";
     bmi := 0; confidence := "none"; has_clinical_data := false |}.

(** The rest of [predict_diabetes_risk], from the probability on. *)
Definition report (features : gmap string pyval) (clinical : bool)
    (r : Q * string * string) : prediction :=
  let '(risk_probability, used, conf) := r in
  let pct := round_to 1 (binary64 (risk_probability * 100)) in
  match features !! "bmi" ≫= as_number with
  | Some b =>
      {| error := None;
         risk_percentage := pct;
         risk_level := if Qltb pct 30 then "low" else if Qltb pct 60 then "moderate"
                       else "high";
         model_used := used;
         bmi := round_to 2 b;
         confidence := conf;
         has_clinical_data := clinical |}
  | None => failed "'bmi'"
  end.

(** [predict_diabetes_risk(user_input)]. *)
Definition predict_diabetes_risk (svc : service) (req : request) : prediction :=
  let gender := lower (gender req) in
  match preprocess_input req gender with
  | None => failed "Invalid input data: float division by zero"
  | Some (features, clinical) =>
      let fallback :=
        match risk_calculator features clinical with
        | Some r => report features clinical r
        | None => failed (comparison_error features clinical)
        end in
      let choice :=
        if String.eqb gender "female" && bool_decide (is_Some (women_model svc)) then
          Some (women_model svc, women_features svc, "Women-Specific XGBoost")
        else if String.eqb gender "male" && bool_decide (is_Some (men_model svc)) then
          Some (men_model svc, men_features svc, "Men-Specific XGBoost")
        else None in
      match choice with
      | Some (Some m, Some schema, model_name) =>
          match model_probability svc m schema features gender with
          | Some p =>
              report features clinical
                (p, model_name +:+ " Model (Clinical + Lifestyle)", "high")
          | None => fallback
          end
      | Some (_, _, _) => failed "object of type 'NoneType' has no len()"
      | None => fallback
      end
  end.

(** *** Concrete inputs *)

(** A scaler as the pipeline persists it: its own feature list, mean 0 and
    scale 1. *)
Definition pipeline_scaler : scaler :=
  {| feature_names_in_ := ["bmi"; "age"; "health_risk_score"];
     mean_ := [0; 0; 0]%Q;
     scale_ := [1; 1; 1]%Q |}.

(** A stand-in for a pickled classifier. *)
Definition constant_model (p : Q) : model := fun _ => Some p.

Definition full_schema : list string :=
  ["age"; "bmi"; "hbA1c_level"; "blood_glucose_level"; "gender_Female"; "gender_Male"].

(** A schema without [hbA1c_level] and [blood_glucose_level]. *)
Definition short_schema : list string := ["age"; "bmi"; "gender_Female"; "gender_Male"].

Definition disk (schema : list string) : files :=
  {| diabetes_women_model_pkl := Some (constant_model 0.25);
     women_model_features_json := Some schema;
     diabetes_men_model_pkl := None;
     men_model_features_json := None;
     feature_scaler_pkl := Some pipeline_scaler |}.

Definition sample_request : request :=
  {| age := 45; gender := "female"; height := 170; weight := 80;
     gestationalHistory := "no"; smoking := "never";
     hbA1c := Some 5.9%Q; bloodGlucose := None |}.

(** The same directory with the men's model in place of the women's. *)
Definition men_disk (schema : list string) : files :=
  {| diabetes_women_model_pkl := None;
     women_model_features_json := None;
     diabetes_men_model_pkl := Some (constant_model 0.25);
     men_model_features_json := Some schema;
     feature_scaler_pkl := Some pipeline_scaler |}.

End Prediction.

(** *** Vocabulary for the imputation contract *)

(** Row [i] of a column holds a value. *)
Definition present_at (cs : list (cell Q)) (i : nat) : Prop :=
  exists v, cs !! i = Some v /\ isnull v = false.

(** A rewrite of a column that keeps its length and never loses a value. *)
Definition keeps_present (cs cs' : list (cell Q)) : Prop :=
  length cs' = length cs /\ forall i, present_at cs i -> present_at cs' i.

(** Column [n] of [df'] is a value-keeping rewrite of column [n] of [df], and
    the two tables have the same column names. *)
Definition evolves_on (n : string) (df df' : frame Q) : Prop :=
  columns df' = columns df /\
  forall c, get_col df n = Some c ->
    exists c', get_col df' n = Some c' /\ keeps_present (cells c) (cells c').

(** Column [col] exists and has no missing value. *)
Definition no_missing_in (df : frame Q) (col : string) : Prop :=
  exists c, get_col df col = Some c /\ missing_count (cells c) = 0.

(** Column [col] exists and holds a value in every row where [keys] does. *)
Definition filled_where (df : frame Q) (col : string) (keys : list (cell Q)) : Prop :=
  exists c, get_col df col = Some c /\
    forall i k, keys !! i = Some k -> isnull k = false ->
      i < length (cells c) -> present_at (cells c) i.

(** No name in [cols] is the target: what [c != target_col] ensures. *)
Definition excludes_target (t : option string) (cols : list string) : bool :=
  forallb (fun c => ne_target c t) cols.

(** *** Tables used as concrete inputs *)

(** A numerically stored [year] and [gestational_history], each with one
    missing value. *)
Definition year_table : frame Q :=
  [ Column "year" DNumber [Num 2019%Q; NA; Num 2022%Q];
    Column "gestational_history" DNumber [Num 1%Q; NA; Num 0%Q];
    Column "diabetes" DNumber [Num 0%Q; Num 1%Q; Num 0%Q] ].

(** A text-valued [gestational_history] that precedes [gender]; row 1 has
    neither a gender nor a gestational history. *)
Definition gender_gap_table : frame Q :=
  [ Column "gestational_history" DObject [Str "Yes"; NA; NA; Str "No"];
    Column "gender" DObject [Str "Female"; NA; Str "Male"; Str "Female"];
    Column "smoking_history" DObject [Str "never"; NA; Str "never"; Str "current"];
    Column "age" DNumber [Num 40%Q; NA; Num 50%Q; Num 60%Q];
    Column "diabetes" DNumber [Num 0%Q; Num 1%Q; Num 0%Q; Num 1%Q] ].

(** What [enhanced_imputation] returns on [gender_gap_table]. *)
Definition gender_gap_imputed : frame Q :=
  [ Column "gestational_history" DObject [Str "Yes"; NA; Str "Not Applicable"; Str "No"];
    Column "gender" DObject [Str "Female"; Str "Female"; Str "Male"; Str "Female"];
    Column "smoking_history" DObject [Str "never"; Str "never"; Str "never"; Str "current"];
    Column "age" DNumber [Num 40%Q; Num 50%Q; Num 50%Q; Num 60%Q];
    Column "diabetes" DNumber [Num 0%Q; Num 1%Q; Num 0%Q; Num 1%Q] ].

(** The imputation report for [gender_gap_table]. *)
Definition gender_gap_report : gmap string (gmap string pyval) :=
  <["gestational_history" := imputation_record 2 "gender_aware"]>
  (<["gender" := imputation_record 1 "mode"]>
  (<["smoking_history" := imputation_record 1 "mode"]>
  (<["age" := imputation_record 1 "median"]> ∅))).

(** A numeric column without any value, and a medical column next to a
    target with a missing value. *)
Definition empty_column_table : frame Q :=
  [ Column "bmi" DNumber [Num 20%Q; NA; Num 30%Q];
    Column "waist" DNumber [NA; NA; NA];
    Column "diabetes" DNumber [Num 0%Q; Num 1%Q; NA] ].

(** ** Target detection ([guess_target] and [main]) *)

(** The names [guess_target] tries, in order. *)
Definition common_targets : list string :=
  ["Outcome"; "outcome"; "target"; "Target"; "label"; "Label"; "class"; "Class";
   "diabetes"; "Diabetes"; "has_diabetes"; "diabetic"; "Diabetic"].

(** [guess_target(df)]: the first common name that is a column. *)
Definition guess_target {num : Type} (df : frame num) : option string :=
  List.find (fun c => mem c (columns df)) common_targets.

(** [args.target or guess_target(df)] in [main]. *)
Definition resolve_target {num : Type} (arg : option string) (df : frame num)
  : option string :=
  if truthy arg then arg else guess_target df.

(** ** Vocabulary for the properties of the cleaning steps *)

(** Every column has as many cells as the table has rows. *)
Definition rectangular {num : Type} (df : frame num) : Prop :=
  forall c, c ∈ df -> length (cells c) = nrows df.

(** The positions a mask keeps, counted from [start]. *)
Fixpoint kept_from (start : nat) (mask : list bool) : list nat :=
  match mask with
  | [] => []
  | b :: m => if b then kept_from (S start) m else start :: kept_from (S start) m
  end.

(** A table with a repeated row, a missing cell included. *)
Definition repeated_rows_table : frame Q :=
  [ Column "age" DNumber [Num 40%Q; Num 50%Q; Num 40%Q; Num 40%Q];
    Column "bmi" DNumber [NA; Num 22%Q; NA; Num 30%Q] ].

(** The methods an imputation record can name. *)
Definition imputation_methods : list string :=
  ["group_median"; "median"; "gender_aware"; "not_applicable"; "mode"; "unknown"].

(** ** The outlier analysis of [comprehensive_eda] *)

(** [s.dropna()]. *)
Definition dropna {num : Type} (cs : list (cell num)) : list (cell num) :=
  List.filter (fun c => negb (isnull c)) cs.

(** One record of the outlier analysis of [comprehensive_eda] (step 8) for a
    numeric column: the bounds are computed on the values that are present,
    and the share is taken of their number.  Both counts are Python
    integers ([len]), so a column without any value raises a
    [ZeroDivisionError] ([None]) and [round] is Python's. *)
Definition eda_outlier_record (col : string) (cs : list (cell Q))
  : option (gmap string pyval) :=
  let data := dropna cs in
  let bounds := iqr_bounds data 1.5 in
  let outliers := List.filter (is_outlier bounds) data in
  if (length data =? 0)%nat then None
  else
    Some (<["column" := PStr col]>
         (<["outlier_count" := PInt (Z.of_nat (length outliers))]>
         (<["outlier_percentage" :=
              PFloat (Some (py_round2 (percent_of (length outliers) (length data))))]>
         (<["lower_bound" := PFloat (fst <$> bounds)]>
         (<["upper_bound" := PFloat (snd <$> bounds)]> ∅))))).

(** The loop of step 8 over the numeric feature columns. *)
Definition eda_outlier_analysis (df : frame Q) (numeric_cols : list string)
  : option (list (gmap string pyval)) :=
  mapM (fun col => c ← get_col df col; eda_outlier_record col (cells c)) numeric_cols.

(** A table with a numeric column that holds no value. *)
Definition sparse_table : frame Q :=
  [ Column "glucose" DNumber [Num 0%Q; NA; Num 100%Q; Num 100%Q; Num 100%Q];
    Column "waist" DNumber [NA; NA; NA; NA; NA] ].

(** ** Vocabulary for the derived and the encoded columns *)

(** The names [feature_engineering] can give to a derived column, in the
    order in which it derives them. *)
Definition derived_features : list string :=
  ["bmi_risk_level"; "age_diabetes_risk"; "health_risk_score"; "activity_score";
   "sleep_quality"; "lifestyle_score"; "location_risk"].

(** The [new_features.append] calls of [feature_engineering], each under its
    condition on the columns of the input. *)
Definition engineered_names (df : frame Q) : list string :=
  let has n := mem n (columns df) in
  (if has "bmi" then ["bmi_risk_level"] else [])
  ++ (if has "age" then ["age_diabetes_risk"] else [])
  ++ (if existsb has health_indicators then ["health_risk_score"] else [])
  ++ (if has "physical_activity" then ["activity_score"] else [])
  ++ (if has "sleep_hours" then ["sleep_quality"] else [])
  ++ (if has "physical_activity" || has "sleep_hours" then ["lifestyle_score"] else [])
  ++ (if has "environmental_risk" && has "urban_rural" then ["location_risk"] else []).

(** Whether [health_risk_score] is derived as a column of type [object]. *)
Definition text_health_score (df : frame Q) : bool :=
  let has n := mem n (columns df) in
  existsb has health_indicators
  && dtype_eqb (sum_dtype df (List.filter has health_indicators)) DObject.

(** A table whose health indicators are texts. *)
Definition text_indicators_table : frame Q :=
  [ Column "bmi" DNumber [Num 22%Q; Num 31%Q];
    Column "hypertension" DObject [Str "yes"; Str "no"];
    Column "heart_disease" DObject [Str "no"; Str "no"];
    Column "diabetes" DNumber [Num 1%Q; Num 0%Q] ].

(** What [feature_engineering] returns on it. *)
Definition text_indicators_engineered : frame Q :=
  [ Column "bmi" DNumber [Num 22%Q; Num 31%Q];
    Column "hypertension" DObject [Str "yes"; Str "no"];
    Column "heart_disease" DObject [Str "no"; Str "no"];
    Column "diabetes" DNumber [Num 1%Q; Num 0%Q];
    Column "bmi_risk_level" DCategory [Str "normal"; Str "obese_1"];
    Column "health_risk_score" DObject [Str "yesno"; Str "nono"] ].

(** What [feature_engineering] returns on [bands_table]. *)
Definition bands_engineered : frame Q :=
  [ Column "bmi" DNumber [Num 22%Q; Num 31%Q];
    Column "age" DNumber [Num 30%Q; Num 50%Q];
    Column "diabetes" DNumber [Num 0%Q; Num 1%Q];
    Column "bmi_risk_level" DCategory [Str "normal"; Str "obese_1"];
    Column "age_diabetes_risk" DCategory [Str "low_risk"; Str "high_risk"] ].

(** What is taken as known of the sort of [value_counts]: it rearranges the
    counted values and puts no smaller count before a larger one. *)
Definition sorts_descending (sort : list (string * nat) -> list (string * nat)) : Prop :=
  forall l, sort l ≡ₚ l /\ StronglySorted (fun a b => (snd b <= snd a)%nat) (sort l).

(** A column of cities, each named once but [Galle]. *)
Definition cities : list (cell Q) :=
  [Str "Kandy"; Str "Galle"; Str "Jaffna"; Str "Galle"; NA].


(** ** The prediction service: the validated request and the flag groups *)

(** The age band [preprocess_input] encodes (lines 194 to 202). *)
Definition service_age_risk (age : Q) : string :=
  if Qleb 65 age then "very_high_risk"
  else if Qleb 50 age then "high_risk"
  else if Qleb 35 age then "moderate_risk"
  else "low_risk".

Definition age_risk_categories : list string :=
  ["low_risk"; "moderate_risk"; "high_risk"; "very_high_risk"].

(** [Field(..., ge=lo, le=hi)]. *)
Definition in_range (lo hi x : Q) : bool := Qleb lo x && Qleb x hi.

(** [PredictionRequest] ([schemas/prediction.py]) on the fields the service
    reads: the bounds of the fields and the validator that lower-cases
    [gestationalHistory]; [None] is the validation error. *)
Definition validate_request (r : Prediction.request) : option Prediction.request :=
  if (18 <=? Prediction.age r)%Z && (Prediction.age r <=? 120)%Z
     && in_range 100 250 (Prediction.height r)
     && in_range 30 300 (Prediction.weight r)
     && mem (lower (Prediction.gestationalHistory r)) ["yes"; "no"]
     && match Prediction.hbA1c r with Some h => in_range 3 15 h | None => true end
     && match Prediction.bloodGlucose r with Some g => in_range 50 500 g | None => true end
  then Some {| Prediction.age := Prediction.age r;
               Prediction.gender := Prediction.gender r;
               Prediction.height := Prediction.height r;
               Prediction.weight := Prediction.weight r;
               Prediction.gestationalHistory := lower (Prediction.gestationalHistory r);
               Prediction.smoking := Prediction.smoking r;
               Prediction.hbA1c := Prediction.hbA1c r;
               Prediction.bloodGlucose := Prediction.bloodGlucose r |}
  else None.

Definition bmi_category_flags : list string :=
  ["bmi_category_Normal"; "bmi_category_Obese"; "bmi_category_Overweight";
   "bmi_category_Underweight"].

Definition age_group_flags : list string :=
  ["age_group_Adult"; "age_group_Child"; "age_group_Middle-aged"; "age_group_Senior"].

Definition smoking_flags : list string :=
  ["smoking_history_No Info"; "smoking_history_current"; "smoking_history_ever";
   "smoking_history_former"; "smoking_history_never"; "smoking_history_not current"].

Definition gender_flags : list string := ["gender_Female"; "gender_Male"].

Definition gestational_flags : list string :=
  ["gestational_history_0.0"; "gestational_history_1.0"; "gestational_history_No";
   "gestational_history_Not Applicable"].

(** What a chain of thresholds can add to the score. *)
Definition increments (steps : list (Q * Q)) : list Q :=
  0%Q :: ((fun s => binary64 (snd s)) <$> steps).

(** The values [_calculate_lifestyle_risk] can return, one for each way
    through its four blocks. *)
Definition lifestyle_values : list Q :=
  r1 ← increments [(65, 0.3); (50, 0.2); (35, 0.1)]%Q;
  r2 ← increments [(35, 0.25); (30, 0.2); (25, 0.1)]%Q;
  r3 ← [binary64 0.05; 0%Q];
  r4 ← [binary64 0.1; binary64 0.05; 0%Q];
  [Prediction.capped 0.8
     (Prediction.float_add
        (Prediction.float_add (Prediction.float_add (Prediction.float_add 0 r1) r2) r3)
        r4)].

(** The values [_calculate_risk_with_clinical] can return. *)
Definition clinical_values : list Q :=
  r1 ← increments [(6.5, 0.7); (5.7, 0.4)]%Q;
  r2 ← increments [(126, 0.3); (100, 0.15)]%Q;
  l ← lifestyle_values;
  [Prediction.capped 0.95
     (Prediction.float_add
        (Prediction.float_add (Prediction.float_add 0 r1) r2)
        (binary64 (l * binary64 0.3)))].

(** The number of entries of [keys] that are set in a feature dictionary. *)
Definition flags_set (features : gmap string pyval) (keys : list string) : nat :=
  length (List.filter (Prediction.flag_of features) keys).

Definition validated_sample : Prediction.request :=
  {| Prediction.age := 52; Prediction.gender := "Male"; Prediction.height := 180;
     Prediction.weight := 90; Prediction.gestationalHistory := "No";
     Prediction.smoking := "former";
     Prediction.hbA1c := Some 7.1%Q; Prediction.bloodGlucose := Some 140%Q |}.

Definition no_models : Prediction.files :=
  {| Prediction.diabetes_women_model_pkl := None;
     Prediction.women_model_features_json := None;
     Prediction.diabetes_men_model_pkl := None;
     Prediction.men_model_features_json := None;
     Prediction.feature_scaler_pkl := None |}.

(** A request whose gender is neither of the two the models are trained
    for. *)
Definition other_gender_request : Prediction.request :=
  {| Prediction.age := 40; Prediction.gender := "Other"; Prediction.height := 165;
     Prediction.weight := 70; Prediction.gestationalHistory := "no";
     Prediction.smoking := "current";
     Prediction.hbA1c := None; Prediction.bloodGlucose := None |}.

(** A models directory where the women's model lacks its feature schema. *)
Definition schema_missing : Prediction.files :=
  {| Prediction.diabetes_women_model_pkl := Some (Prediction.constant_model 0.25);
     Prediction.women_model_features_json := None;
     Prediction.diabetes_men_model_pkl := None;
     Prediction.men_model_features_json := None;
     Prediction.feature_scaler_pkl := None |}.

(** * Properties *)

(** ** Strings, numbers and tables *)

Lemma mem_spec x xs : mem x xs = true <-> x ∈ xs.
Proof.
  unfold mem. rewrite existsb_exists. split.
  - intros (y & Hy & He). apply String.eqb_eq in He. subst.
    by apply list_elem_of_In.
  - intros H. exists x. split; [by apply list_elem_of_In | apply String.eqb_refl].
Qed.

Lemma mem_false x xs : mem x xs = false <-> x ∉ xs.
Proof.
  rewrite <- mem_spec. destruct (mem x xs); split; congruence.
Qed.

Lemma Qltb_lt x y : Qltb x y = true <-> (x < y)%Q.
Proof.
  unfold Qltb. rewrite Qlt_alt. destruct (Qcompare x y); split; congruence.
Qed.

Lemma Qltb_ge x y : Qltb x y = false <-> (y <= x)%Q.
Proof.
  rewrite <- not_true_iff_false, Qltb_lt. split; [apply Qnot_lt_le | apply Qle_not_lt].
Qed.

Lemma Qltb_irrefl x : Qltb x x = false.
Proof. apply Qltb_ge, Qle_refl. Qed.

Section FrameFacts.
Context {num : Type}.
Implicit Types (df : frame num) (cs : list (cell num)).

Lemma get_col_name df n c : get_col df n = Some c -> cname c = n.
Proof.
  induction df as [|d r IH]; simpl; [done|].
  destruct (String.eqb (cname d) n) eqn:E; [|done].
  intros [= <-]. by apply String.eqb_eq.
Qed.

Lemma get_col_elem df n c : get_col df n = Some c -> c ∈ df.
Proof.
  induction df as [|d r IH]; simpl; [done|].
  destruct (String.eqb (cname d) n); [intros [= <-]; left | intros; right; auto].
Qed.

Lemma get_col_Some df n : n ∈ columns df -> is_Some (get_col df n).
Proof.
  induction df as [|d r IH]; simpl.
  - intros H. by apply elem_of_nil in H.
  - intros H. destruct (String.eqb (cname d) n) eqn:E; [eauto|].
    apply elem_of_cons in H as [->|H]; [|auto].
    by rewrite String.eqb_refl in E.
Qed.

Lemma get_col_None df n : get_col df n = None <-> n ∉ columns df.
Proof.
  split.
  - intros H Hin. apply get_col_Some in Hin as [c Hc]. congruence.
  - induction df as [|d r IH]; simpl; [done|].
    intros H. destruct (String.eqb (cname d) n) eqn:E.
    + apply String.eqb_eq in E. exfalso. apply H. rewrite E. by left.
    + apply IH. intros Hin. apply H. by right.
Qed.

Lemma get_set_col_eq df n d cs : get_col (set_col df n d cs) n = Some (Column n d cs).
Proof.
  induction df as [|c r IH]; simpl.
  - by rewrite String.eqb_refl.
  - destruct (String.eqb (cname c) n) eqn:E; simpl.
    + by rewrite String.eqb_refl.
    + by rewrite E.
Qed.

Lemma get_set_col_ne df n m d cs :
  n ≠ m -> get_col (set_col df n d cs) m = get_col df m.
Proof.
  intros Hne. induction df as [|c r IH]; simpl.
  - destruct (String.eqb n m) eqn:E; [|done]. by apply String.eqb_eq in E.
  - destruct (String.eqb (cname c) n) eqn:E; simpl.
    + apply String.eqb_eq in E. rewrite E.
      destruct (String.eqb n m) eqn:E'; [|done]. by apply String.eqb_eq in E'.
    + by rewrite IH.
Qed.

Lemma fillna_no_missing v cs : isnull v = false -> missing_count (fillna v cs) = 0.
Proof.
  intros Hv. unfold missing_count, fillna.
  induction cs as [|c r IH]; simpl; [done|].
  rewrite filter_cons. destruct c; simpl; rewrite ?Hv; simpl;
    try (rewrite decide_False by done); auto.
Qed.

Lemma fillna_length v cs : length (fillna v cs) = length cs.
Proof. apply length_fmap. Qed.

Lemma missing_count_0 cs : missing_count cs = 0 <-> Forall (fun c => isnull c = false) cs.
Proof.
  unfold missing_count. induction cs as [|c r IH]; simpl.
  - split; auto.
  - rewrite filter_cons. destruct (isnull c) eqn:E.
    + rewrite decide_True by done. simpl. split; [lia|].
      intros H. inversion H; congruence.
    + rewrite decide_False by congruence. rewrite IH. split.
      * intros H. by constructor.
      * intros H. by inversion H.
Qed.
End FrameFacts.

(** ** FeatureEngineer: the BMI risk bands *)

(** What [pd.cut] computes for [bmi_risk_level]: right-closed intervals
    [(0, 18.5]], [(18.5, 25]], [(25, 30]], [(30, 35]], [(35, inf)], and a
    missing value at or below 0. *)
Lemma bmi_risk_level_intervals (x : Q) :
  bmi_risk_level (Num x) =
    if Qleb x 0 then NA
    else if Qleb x 18.5 then Str "underweight"
    else if Qleb x 25 then Str "normal"
    else if Qleb x 30 then Str "overweight"
    else if Qleb x 35 then Str "obese_1"
    else Str "obese_2".
Proof.
  unfold bmi_risk_level, cut, bmi_bins, bmi_labels, Qleb. simpl.
  destruct (Qltb 0 x); simpl; [|done].
  destruct (Qltb 18.5 x); simpl; [|done].
  destruct (Qltb 25 x); simpl; [|done].
  destruct (Qltb 30 x); simpl; [|done].
  destruct (Qltb 35 x); simpl; done.
Qed.

(** Away from the four thresholds and for a positive value the code and the
    specification's buckets agree. *)
Lemma bmi_risk_level_agrees_off_boundary (x : Q) :
  (0 < x)%Q ->
  ~ (x == 18.5)%Q -> ~ (x == 25)%Q -> ~ (x == 30)%Q -> ~ (x == 35)%Q ->
  bmi_risk_level (Num x) = Str (bmi_bucket_spec x).
Proof.
  intros H0 H1 H2 H3 H4. rewrite bmi_risk_level_intervals.
  unfold bmi_bucket_spec, Qleb.
  assert (Qltb 0 x = true) as -> by (by apply Qltb_lt). simpl.
  repeat match goal with
  | |- context [Qltb ?a ?b] =>
      let E := fresh "E" in
      destruct (Qltb a b) eqn:E;
      [apply Qltb_lt in E | apply Qltb_ge in E]
  end; simpl; try done; exfalso; Lqa.lra.
Qed.

(** C5 (the code departs from the claim).  At each threshold the code puts the
    value in the lower-named bucket, where the specification's buckets put it
    in the higher-named one; a BMI of 0 gets no bucket at all. *)
Theorem bmi_risk_level_boundaries :
  bmi_risk_level (Num 18.5%Q) = Str "underweight" /\ bmi_bucket_spec 18.5 = "normal" /\
  bmi_risk_level (Num 25%Q) = Str "normal" /\ bmi_bucket_spec 25 = "overweight" /\
  bmi_risk_level (Num 30%Q) = Str "overweight" /\ bmi_bucket_spec 30 = "obese_1" /\
  bmi_risk_level (Num 35%Q) = Str "obese_1" /\ bmi_bucket_spec 35 = "obese_2" /\
  bmi_risk_level (Num 0%Q) = NA /\ bmi_bucket_spec 0 = "underweight".
Proof. repeat split; vm_compute; reflexivity. Qed.

(** ** ColumnClassifier: what the overrides do to missing values *)

(** After [astype(str)] alone, as on [year], no cell is missing any more:
    every NaN has been printed. *)
Lemma astype_str_no_missing str cs : missing_count (astype_str str cs) = 0.
Proof.
  apply missing_count_0, Forall_fmap, Forall_forall. intros c _. by destruct c.
Qed.

Lemma astype_str_missing str cs i :
  cs !! i = Some NA -> astype_str str cs !! i = Some (Str "nan").
Proof. intros H. unfold astype_str. by rewrite list_lookup_fmap, H. Qed.

(** With the [replace('nan', pd.NA)] that follows on [gestational_history],
    a missing cell is missing again. *)
Lemma gestational_keeps_missing str cs i :
  cs !! i = Some NA -> replace_nan (astype_str str cs) !! i = Some NA.
Proof.
  intros H. unfold replace_nan, astype_str. by rewrite !list_lookup_fmap, H.
Qed.

(** C8 (the code departs from the claim).  On a table whose [year] and
    [gestational_history] are stored as numbers, each with a missing value in
    row 1, the classifier moves both to the categorical list and stringifies
    them; the missing gestational history stays missing, the missing year
    becomes the text [nan]. *)
Theorem year_override_prints_missing :
  let st := classify_columns str_of_integral year_table (Some "diabetes") in
  cl_numeric st = [] /\
  cl_categorical st = ["year"; "gestational_history"] /\
  get_col (cl_df st) "year"
    = Some (Column "year" DObject [Str "2019.0"; Str "nan"; Str "2022.0"]) /\
  get_col (cl_df st) "gestational_history"
    = Some (Column "gestational_history" DObject [Str "1.0"; NA; Str "0.0"]).
Proof. vm_compute. repeat split; reflexivity. Qed.

(** ** Loops that can raise *)
Lemma foldM_preserve {A B} (f : A -> B -> option A) (P : A -> Prop) l a a' :
  (forall a y a', y ∈ l -> P a -> f a y = Some a' -> P a') ->
  P a -> foldM f a l = Some a' -> P a'.
Proof.
  revert a. induction l as [|x r IH]; simpl; intros a Hf Ha H.
  - by inversion H; subst.
  - destruct (f a x) as [a1|] eqn:E; [|done].
    apply (IH a1); [|eapply Hf; eauto; by left|done].
    intros b y b' Hy. apply Hf. by right.
Qed.

Lemma foldM_reach {A B} (f : A -> B -> option A) (I P : A -> Prop) x l a a' :
  (forall a y a', y ∈ l -> I a -> f a y = Some a' -> I a') ->
  (forall a a', I a -> f a x = Some a' -> P a') ->
  (forall a y a', y ∈ l -> P a -> f a y = Some a' -> P a') ->
  x ∈ l -> I a -> foldM f a l = Some a' -> P a'.
Proof.
  revert a. induction l as [|y r IH]; simpl; intros a HI HP HPP Hin Ha H.
  - by apply elem_of_nil in Hin.
  - destruct (f a y) as [a1|] eqn:E; [|done].
    apply elem_of_cons in Hin as [->|Hin].
    + eapply (foldM_preserve f P r a1); [|by eapply HP|done].
      intros b z b' Hz. apply HPP. by right.
    + apply (IH a1); [| done | |done | |done].
      * intros b z b' Hz. apply HI. by right.
      * intros b z b' Hz. apply HPP. by right.
      * eapply HI; eauto. by left.
Qed.

(** ** ImputationEngine: columns *)
Lemma keeps_present_refl cs : keeps_present cs cs.
Proof. split; auto. Qed.

Lemma keeps_present_trans a b c :
  keeps_present a b -> keeps_present b c -> keeps_present a c.
Proof. intros [L1 H1] [L2 H2]. split; [congruence | auto]. Qed.

Lemma present_at_lt cs i : present_at cs i -> i < length cs.
Proof. intros (v & Hv & _). by eapply lookup_lt_Some. Qed.

Lemma no_missing_present cs :
  missing_count cs = 0 <-> forall i, i < length cs -> present_at cs i.
Proof.
  rewrite missing_count_0, Forall_lookup. split.
  - intros H i Hi. destruct (lookup_lt_is_Some_2 cs i Hi) as [v Hv].
    exists v. eauto.
  - intros H i v Hv. destruct (H i) as (w & Hw & Hn); [by eapply lookup_lt_Some|].
    congruence.
Qed.

Lemma keeps_present_no_missing cs cs' :
  keeps_present cs cs' -> missing_count cs = 0 -> missing_count cs' = 0.
Proof.
  intros [L H]. rewrite !no_missing_present. intros H0 i Hi. apply H, H0. lia.
Qed.

Lemma fillna_keeps v cs : keeps_present cs (fillna v cs).
Proof.
  split; [apply fillna_length|]. intros i (w & Hw & Hn). exists w.
  unfold fillna. rewrite list_lookup_fmap, Hw. simpl. by rewrite Hn.
Qed.

Lemma fillna_num_keeps m cs : keeps_present cs (fillna_num m cs).
Proof. destruct m; [apply fillna_keeps | apply keeps_present_refl]. Qed.

(** The median is defined as soon as the column holds a number. *)
Lemma insert_sorted_length x l : length (insert_sorted x l) = S (length l).
Proof. induction l as [|y r IH]; simpl; [done|]. destruct (Qleb x y); simpl; auto. Qed.

Lemma sort_Q_length l : length (sort_Q l) = length l.
Proof.
  induction l as [|x r IH]; simpl; [done|]. by rewrite insert_sorted_length, IH.
Qed.

Lemma median_is_Some cs : numbers cs <> [] -> is_Some (median cs).
Proof.
  intros H. unfold median. rewrite sort_Q_length.
  assert (0 < length (numbers cs)) as Hn by (destruct (numbers cs); simpl; [done|lia]).
  set (n := length (numbers cs)) in *.
  assert (length (sort_Q (numbers cs)) = n) as Hl by apply sort_Q_length.
  destruct (Nat.eqb_spec n 0) as [|_]; [lia|].
  assert (n / 2 < n) as Hh by (apply Nat.div_lt; lia).
  destruct (Nat.odd n).
  - apply lookup_lt_is_Some_2. lia.
  - destruct (lookup_lt_is_Some_2 (sort_Q (numbers cs)) (n / 2 - 1)) as [a ->]; [lia|].
    destruct (lookup_lt_is_Some_2 (sort_Q (numbers cs)) (n / 2)) as [b ->]; [lia|].
    eauto.
Qed.

Lemma median_fill_no_missing cs :
  numbers cs <> [] -> missing_count (fillna_num (median cs) cs) = 0.
Proof.
  intros H. destruct (median_is_Some cs H) as [m ->]. simpl.
  by apply fillna_no_missing.
Qed.

(** A mode is a present value. *)
Lemma mode_present cs m : mode cs = Some m -> isnull m = false.
Proof.
  unfold mode.
  assert (Forall (fun c => isnull c = false) (List.filter (fun c => negb (isnull c)) cs)) as HF.
  { apply Forall_forall. intros c Hc. apply list_elem_of_In, filter_In in Hc as [_ Hc].
    by destruct (isnull c). }
  revert m. induction HF as [|v l Hv HF IH]; simpl; intros m; [done|].
  match goal with |- context [foldr ?f None l] => destruct (foldr f None l) as [w|] eqn:E end.
  - destruct (_ || _); intros [= <-]; auto.
  - intros [= <-]; auto.
Qed.

(** ** ImputationEngine: the loop over the gender values *)
Lemma cell_eqb_refl c : isnull c = false -> cell_eqb c c = true.
Proof.
  destruct c; simpl; try done; intros _.
  - apply Qeq_bool_iff. reflexivity.
  - apply String.eqb_refl.
  - by destruct b.
Qed.

Lemma cell_eqb_sym a b : cell_eqb a b = cell_eqb b a.
Proof.
  destruct a, b; simpl; try done.
  - apply Bool.eq_true_iff_eq. rewrite !Qeq_bool_iff. split; intros H; by symmetry.
  - apply String.eqb_sym.
  - by destruct b0, b.
Qed.

Lemma unique_from_covers seen cs c :
  c ∈ cs -> isnull c = false ->
  (exists s, s ∈ seen /\ cell_eqb s c = true) \/
  (exists g, g ∈ unique_from seen cs /\ cell_eqb c g = true).
Proof.
  revert seen. induction cs as [|c0 r IH]; intros seen Hin Hc.
  - by apply elem_of_nil in Hin.
  - simpl. destruct (existsb _ seen) eqn:E.
    + apply elem_of_cons in Hin as [->|Hin]; [|by apply IH].
      left. apply existsb_exists in E as (s & Hs & He). rewrite Hc in He.
      exists s. split; [by apply list_elem_of_In|done].
    + apply elem_of_cons in Hin as [->|Hin].
      * right. exists c0. split; [by left | by apply cell_eqb_refl].
      * destruct (IH (c0 :: seen) Hin Hc) as [(s & Hs & He)|(g & Hg & He)].
        -- apply elem_of_cons in Hs as [->|Hs].
           ++ right. exists c0. split; [by left|by rewrite cell_eqb_sym].
           ++ left. eauto.
        -- right. exists g. split; [by right|done].
Qed.

Lemma unique_covers cs c :
  c ∈ cs -> isnull c = false -> exists g, g ∈ unique cs /\ cell_eqb c g = true.
Proof.
  intros Hin Hc. destruct (unique_from_covers [] cs c Hin Hc) as [(s & Hs & _)|H]; [|done].
  by apply elem_of_nil in Hs.
Qed.

Lemma fill_where_length g v gs cs : length (fill_where g v gs cs) = length cs.
Proof.
  revert cs. induction gs as [|g' r IH]; intros [|c cs]; simpl; auto.
Qed.

Lemma fill_where_lookup g v gs cs i c :
  cs !! i = Some c ->
  fill_where g v gs cs !! i =
    Some (match gs !! i with
          | Some g' => if cell_eqb g' g && isnull c then v else c
          | None => c
          end).
Proof.
  revert cs i. induction gs as [|g' r IH]; intros [|c0 cs] [|i]; simpl; try done.
  - by intros [= ->].
  - apply IH.
Qed.

Lemma fill_where_keeps g v gs cs : keeps_present cs (fill_where g v gs cs).
Proof.
  split; [apply fill_where_length|]. intros i (w & Hw & Hn). exists w.
  rewrite (fill_where_lookup _ _ _ _ _ _ Hw), Hn. split; [|done].
  destruct (gs !! i); [|done]. by rewrite andb_false_r.
Qed.

Lemma fill_where_fills g v gs cs i g' :
  isnull v = false -> gs !! i = Some g' -> cell_eqb g' g = true ->
  i < length cs -> present_at (fill_where g v gs cs) i.
Proof.
  intros Hv Hg He Hi. destruct (lookup_lt_is_Some_2 cs i Hi) as [c Hc].
  unfold present_at. rewrite (fill_where_lookup _ _ _ _ _ _ Hc), Hg, He. simpl.
  destruct (isnull c) eqn:E; eauto.
Qed.

Lemma impute_gender_value_keeps gs cs g cs' :
  impute_gender_value gs cs g = Some cs' -> keeps_present cs cs'.
Proof.
  unfold impute_gender_value. destruct g; try done.
  - intros [= <-]. apply keeps_present_refl.
  - destruct (mem _ _); [intros [= <-]; apply fill_where_keeps|].
    destruct (mode _); intros [= <-]; apply fill_where_keeps.
Qed.

Lemma impute_gender_value_fills gs cs g cs' i g' :
  impute_gender_value gs cs g = Some cs' ->
  gs !! i = Some g' -> cell_eqb g' g = true -> i < length cs ->
  present_at cs' i.
Proof.
  unfold impute_gender_value. intros H Hg He Hi. destruct g; try done.
  - by destruct g'.
  - destruct (mem _ _); [injection H as <-; by eapply fill_where_fills|].
    destruct (mode _) as [m|] eqn:Em; injection H as <-.
    + eapply fill_where_fills; eauto. by eapply mode_present.
    + by eapply fill_where_fills.
Qed.

Lemma gender_loop_keeps gs cs l cs' :
  foldM (impute_gender_value gs) cs l = Some cs' -> keeps_present cs cs'.
Proof.
  intros H.
  apply (foldM_preserve (impute_gender_value gs) (keeps_present cs) l cs cs');
    [|apply keeps_present_refl|done].
  intros a y a' _ Ha Hs. eapply keeps_present_trans; [exact Ha|].
  by eapply impute_gender_value_keeps.
Qed.

Lemma gender_loop_fills gs cs cs' i g :
  foldM (impute_gender_value gs) cs (unique gs) = Some cs' ->
  gs !! i = Some g -> isnull g = false -> i < length cs ->
  present_at cs' i.
Proof.
  intros H Hg Hn Hi.
  destruct (unique_covers gs g) as (u & Hu & He); [by eapply list_elem_of_lookup_2|done|].
  apply (foldM_reach (impute_gender_value gs)
           (fun a => length a = length cs) (fun a => length a = length cs /\ present_at a i)
           u (unique gs) cs cs'); [| | |done|done|done].
  - intros a y a' _ Ha Hs. apply impute_gender_value_keeps in Hs as [-> _]. done.
  - intros a a' Ha Hs. split.
    + apply impute_gender_value_keeps in Hs as [-> _]. done.
    + eapply impute_gender_value_fills; eauto. lia.
  - intros a y a' _ [Ha Hp] Hs. apply impute_gender_value_keeps in Hs as [L K].
    split; [congruence|auto].
Qed.

(** ** ImputationEngine: the median per target group *)
Lemma group_median_rows_lookup keys0 cs0 keys cs i k c :
  keys !! i = Some k -> cs !! i = Some c ->
  group_median_rows keys0 cs0 keys cs !! i =
    Some (if isnull k then NA
          else if isnull c then
                 match (match median (group_of k keys0 cs0) with
                        | Some g => Some g
                        | None => median cs0
                        end) with
                 | Some x => Num x
                 | None => c
                 end
               else c).
Proof.
  revert cs i. induction keys as [|k0 r IH]; intros [|c0 cs] [|i]; simpl; try done.
  - by intros [= ->] [= ->].
  - apply IH.
Qed.

Lemma group_median_rows_present keys0 cs0 keys cs i k c :
  keys !! i = Some k -> isnull k = false -> cs !! i = Some c ->
  isnull c = false \/ numbers cs0 <> [] ->
  present_at (group_median_rows keys0 cs0 keys cs) i.
Proof.
  intros Hk Hn Hc H. unfold present_at.
  rewrite (group_median_rows_lookup _ _ _ _ _ _ _ Hk Hc), Hn.
  destruct (isnull c) eqn:E; [|eauto].
  destruct H as [|H]; [done|].
  destruct (median (group_of k keys0 cs0)); [eauto|].
  destruct (median_is_Some cs0 H) as [m ->]. eauto.
Qed.

(** ** ImputationEngine: one loop body at a time *)
Lemma columns_set_col (df : frame Q) n c d cs :
  get_col df n = Some c -> columns (set_col df n d cs) = columns df.
Proof.
  induction df as [|c0 r IH]; simpl; [done|].
  destruct (String.eqb (cname c0) n) eqn:E; simpl.
  - intros _. apply String.eqb_eq in E. unfold columns. simpl. by rewrite E.
  - intros H. unfold columns in *. simpl. f_equal. by apply IH.
Qed.

Lemma evolves_on_refl n df : evolves_on n df df.
Proof. split; [done|]. intros c Hc. exists c. split; [done|apply keeps_present_refl]. Qed.

Lemma evolves_on_trans n a b c :
  evolves_on n a b -> evolves_on n b c -> evolves_on n a c.
Proof.
  intros [C1 H1] [C2 H2]. split; [congruence|].
  intros x Hx. destruct (H1 x Hx) as (y & Hy & K1).
  destruct (H2 y Hy) as (z & Hz & K2). exists z. split; [done|].
  by eapply keeps_present_trans.
Qed.

Lemma set_col_evolves n (df : frame Q) y c d new :
  get_col df y = Some c -> (n = y -> keeps_present (cells c) new) ->
  evolves_on n df (set_col df y d new).
Proof.
  intros Hc Hk. split; [by eapply columns_set_col|].
  intros c0 Hc0. destruct (decide (y = n)) as [->|Hne].
  - rewrite get_set_col_eq. eexists. split; [done|]. simpl.
    assert (c0 = c) as -> by congruence. auto.
  - rewrite get_set_col_ne by done. exists c0. split; [done|apply keeps_present_refl].
Qed.

Lemma grouped_medical t df col : grouped t df col = true -> mem col medical_features = true.
Proof. unfold grouped. intros H. by apply andb_prop in H as [H%andb_prop _]; destruct H. Qed.

Lemma impute_numeric_shape t df0 df info y df' info' :
  impute_numeric t df0 (df, info) y = Some (df', info') ->
  exists c, get_col df y = Some c /\
    ((df' = df /\ missing_count (cells c) = 0) \/
     exists new, df' = set_col df y (cdtype c) new /\
       ((grouped t df0 y = true /\
         exists tc, get_col df (default "" t) = Some tc /\
                    new = group_median_fill (cells tc) (cells c)) \/
        (grouped t df0 y = false /\ new = fillna_num (median (cells c)) (cells c)))).
Proof.
  unfold impute_numeric, grouped. destruct (get_col df y) as [c|] eqn:Hc; simpl; [|done].
  intros H. exists c. split; [done|].
  destruct (Nat.ltb_spec 0 (missing_count (cells c))) as [Hm|Hm].
  - right. destruct (mem y medical_features) eqn:Em; simpl in *.
    + destruct (truthy t) eqn:Et; simpl in *.
      * destruct (mem (default "" t) (columns df0)) eqn:Eg; simpl in *.
        -- destruct (get_col df (default "" t)) as [tc|] eqn:Ht; simpl in *; [|done].
           injection H as <- _. eexists. split; [done|]. left. split; [done|]. eauto.
        -- injection H as <- _. eexists. split; [done|]. right. done.
      * injection H as <- _. eexists. split; [done|]. right. done.
    + injection H as <- _. eexists. split; [done|]. right. done.
  - left. injection H as <- _. split; [done|lia].
Qed.

Lemma impute_categorical_shape df info y df' info' :
  impute_categorical (df, info) y = Some (df', info') ->
  exists c, get_col df y = Some c /\
    ((df' = df /\ missing_count (cells c) = 0) \/
     exists new, df' = set_col df y (cdtype c) new /\
       if mem (lower y) gender_linked_features then
         if has_gender df then
           exists gc, get_col df (gender_name df) = Some gc /\
             foldM (impute_gender_value (cells gc)) (cells c) (unique (cells gc)) = Some new
         else new = fillna (Str "Not Applicable") (cells c)
       else exists v, isnull v = false /\ new = fillna v (cells c)).
Proof.
  unfold impute_categorical, has_gender, gender_name.
  destruct (get_col df y) as [c|] eqn:Hc; simpl; [|done].
  intros H. exists c. split; [done|].
  destruct (Nat.ltb_spec 0 (missing_count (cells c))) as [Hm|Hm].
  - right. destruct (mem (lower y) gender_linked_features).
    + destruct (mem "gender" (columns df) || mem "sex" (columns df)).
      * destruct (get_col df (if mem "gender" (columns df) then "gender" else "sex"))
          as [gc|] eqn:Hg; simpl in H; [|done].
        destruct (foldM (impute_gender_value (cells gc)) (cells c) (unique (cells gc)))
          as [new|] eqn:Hf; simpl in H; [|done].
        injection H as <- _. exists new. split; [done|]. eauto.
      * injection H as <- _. eexists. split; done.
    + destruct (mode (cells c)) as [m|] eqn:Em; injection H as <- _;
        eexists; (split; [done|]); eexists; (split; [|done]); [by eapply mode_present|done].
  - left. injection H as <- _. split; [done|lia].
Qed.

Lemma impute_numeric_evolves t df0 df info y df' info' n :
  impute_numeric t df0 (df, info) y = Some (df', info') ->
  mem n medical_features = false \/ grouped t df0 n = false ->
  evolves_on n df df'.
Proof.
  intros H Hn. apply impute_numeric_shape in H as (c & Hc & [[-> _]|(new & -> & Hs)]).
  - apply evolves_on_refl.
  - eapply set_col_evolves; [exact Hc|]. intros ->.
    destruct Hs as [[Hg _]|[_ ->]]; [|apply fillna_num_keeps].
    destruct Hn as [Hn|Hn]; [|congruence].
    apply grouped_medical in Hg. congruence.
Qed.

Lemma impute_categorical_evolves df info y df' info' n :
  impute_categorical (df, info) y = Some (df', info') -> evolves_on n df df'.
Proof.
  intros H. apply impute_categorical_shape in H as (c & Hc & [[-> _]|(new & -> & Hs)]).
  - apply evolves_on_refl.
  - eapply set_col_evolves; [exact Hc|]. intros _.
    destruct (mem (lower y) gender_linked_features).
    + destruct (has_gender df).
      * destruct Hs as (gc & _ & Hf). by eapply gender_loop_keeps.
      * subst. apply fillna_keeps.
    + destruct Hs as (v & _ & ->). apply fillna_keeps.
Qed.

Lemma evolves_no_missing n df df' :
  evolves_on n df df' -> no_missing_in df n -> no_missing_in df' n.
Proof.
  intros [_ H] (c & Hc & Hm). destruct (H c Hc) as (c' & Hc' & K).
  exists c'. split; [done|]. by eapply keeps_present_no_missing.
Qed.

Lemma evolves_filled_where n df df' keys :
  evolves_on n df df' -> filled_where df n keys -> filled_where df' n keys.
Proof.
  intros [_ H] (c & Hc & Hf). destruct (H c Hc) as (c' & Hc' & [L K]).
  exists c'. split; [done|]. intros i k Hk Hn Hi. apply K. eapply Hf; eauto. lia.
Qed.

(** The two loops. *)
Lemma categorical_loop_evolves n st cc st' :
  foldM impute_categorical st cc = Some st' -> evolves_on n (fst st) (fst st').
Proof.
  intros H.
  apply (foldM_preserve impute_categorical (fun a => evolves_on n (fst st) (fst a)) cc st st');
    [|apply evolves_on_refl|done].
  intros [d i] y [d' i'] _ Ha Hs. simpl in *.
  eapply evolves_on_trans; [exact Ha|]. by eapply impute_categorical_evolves.
Qed.

Lemma numeric_loop_evolves n t df0 st nc st' :
  mem n medical_features = false \/ grouped t df0 n = false ->
  foldM (impute_numeric t df0) st nc = Some st' -> evolves_on n (fst st) (fst st').
Proof.
  intros Hn H.
  apply (foldM_preserve (impute_numeric t df0) (fun a => evolves_on n (fst st) (fst a)) nc st st');
    [|apply evolves_on_refl|done].
  intros [d i] y [d' i'] _ Ha Hs. simpl in *.
  eapply evolves_on_trans; [exact Ha|]. by eapply impute_numeric_evolves.
Qed.

Lemma numeric_step_other t df0 df info y df' info' n :
  impute_numeric t df0 (df, info) y = Some (df', info') -> y <> n ->
  get_col df' n = get_col df n.
Proof.
  intros H Hne. apply impute_numeric_shape in H as (c & Hc & [[-> _]|(new & -> & _)]); [done|].
  by apply get_set_col_ne.
Qed.

Lemma categorical_step_other df info y df' info' n :
  impute_categorical (df, info) y = Some (df', info') -> y <> n ->
  get_col df' n = get_col df n.
Proof.
  intros H Hne. apply impute_categorical_shape in H as (c & Hc & [[-> _]|(new & -> & _)]); [done|].
  by apply get_set_col_ne.
Qed.

Lemma numeric_loop_other t df0 st nc st' n :
  n ∉ nc -> foldM (impute_numeric t df0) st nc = Some st' ->
  get_col (fst st') n = get_col (fst st) n.
Proof.
  intros Hn H.
  apply (foldM_preserve (impute_numeric t df0)
           (fun a => get_col (fst a) n = get_col (fst st) n) nc st st'); [|done|done].
  intros [d i] y [d' i'] Hy Ha Hs. simpl in *. rewrite <- Ha.
  eapply numeric_step_other; [done|]. intros ->. done.
Qed.

Lemma categorical_loop_other st cc st' n :
  n ∉ cc -> foldM impute_categorical st cc = Some st' ->
  get_col (fst st') n = get_col (fst st) n.
Proof.
  intros Hn H.
  apply (foldM_preserve impute_categorical
           (fun a => get_col (fst a) n = get_col (fst st) n) cc st st'); [|done|done].
  intros [d i] y [d' i'] Hy Ha Hs. simpl in *. rewrite <- Ha.
  eapply categorical_step_other; [done|]. intros ->. done.
Qed.

(** ** ImputationEngine: what each kind of column is guaranteed *)
Lemma enhanced_imputation_inv df nc cc t df' info :
  enhanced_imputation df nc cc t = Some (df', info) ->
  exists st, foldM (impute_numeric t df) (df, ∅) nc = Some st /\
             foldM impute_categorical st cc = Some (df', info).
Proof.
  unfold enhanced_imputation.
  destruct (foldM (impute_numeric t df) (df, ∅) nc) as [st|]; simpl; [eauto|done].
Qed.

Lemma has_gender_columns (a b : frame Q) :
  columns a = columns b -> has_gender a = has_gender b /\ gender_name a = gender_name b.
Proof. unfold has_gender, gender_name. by intros ->. Qed.

Lemma gender_name_not_medical df : mem (gender_name df) medical_features = false.
Proof. unfold gender_name. by destruct (mem "gender" (columns df)). Qed.

Lemma categorical_generic_filled st cc st' col :
  col ∈ cc -> mem (lower col) gender_linked_features = false ->
  foldM impute_categorical st cc = Some st' -> no_missing_in (fst st') col.
Proof.
  intros Hin Hg H.
  apply (foldM_reach impute_categorical (fun _ => True)
           (fun a => no_missing_in (fst a) col) col cc st st'); [done| | |done|done|done].
  - intros [d i] [d' i'] _ Hs. simpl.
    apply impute_categorical_shape in Hs as (c & Hc & [[-> Hm]|(new & -> & Hn)]).
    + by exists c.
    + rewrite Hg in Hn. destruct Hn as (v & Hv & ->).
      eexists. rewrite get_set_col_eq. split; [done|]. simpl. by apply fillna_no_missing.
  - intros [d i] y [d' i'] _ Ha Hs. simpl in *.
    eapply evolves_no_missing; [|exact Ha]. by eapply impute_categorical_evolves.
Qed.

Lemma categorical_no_gender_filled df st cc st' col :
  col ∈ cc -> mem (lower col) gender_linked_features = true ->
  has_gender df = false -> columns (fst st) = columns df ->
  foldM impute_categorical st cc = Some st' -> no_missing_in (fst st') col.
Proof.
  intros Hin Hg Hng Hcols H.
  apply (foldM_reach impute_categorical (fun a => columns (fst a) = columns df)
           (fun a => no_missing_in (fst a) col) col cc st st'); [| | |done|done|done].
  - intros [d i] y [d' i'] _ Ha Hs. simpl in *. rewrite <- Ha.
    by apply (impute_categorical_evolves d i y d' i' y) in Hs as [-> _].
  - intros [d i] [d' i'] Ha Hs. simpl in *.
    apply impute_categorical_shape in Hs as (c & Hc & [[-> Hm]|(new & -> & Hn)]).
    + by exists c.
    + rewrite Hg in Hn. destruct (has_gender_columns d df Ha) as [E _].
      rewrite E, Hng in Hn. subst new.
      eexists. rewrite get_set_col_eq. split; [done|]. simpl. by apply fillna_no_missing.
  - intros [d i] y [d' i'] _ Ha Hs. simpl in *.
    eapply evolves_no_missing; [|exact Ha]. by eapply impute_categorical_evolves.
Qed.

Lemma categorical_gender_filled df gc st cc st' col :
  col ∈ cc -> mem (lower col) gender_linked_features = true ->
  has_gender df = true -> get_col df (gender_name df) = Some gc ->
  evolves_on (gender_name df) df (fst st) ->
  foldM impute_categorical st cc = Some st' -> filled_where (fst st') col (cells gc).
Proof.
  intros Hin Hg Hhg Hgc Hev H.
  apply (foldM_reach impute_categorical (fun a => evolves_on (gender_name df) df (fst a))
           (fun a => filled_where (fst a) col (cells gc)) col cc st st');
    [| | |done|done|done].
  - intros [d i] y [d' i'] _ Ha Hs. simpl in *.
    eapply evolves_on_trans; [exact Ha|]. by eapply impute_categorical_evolves.
  - intros [d i] [d' i'] [Hcols Ha] Hs. simpl in *.
    destruct (Ha gc Hgc) as (gc' & Hgc' & [Lg Kg]).
    apply impute_categorical_shape in Hs as (c & Hc & [[-> Hm]|(new & -> & Hn)]).
    + exists c. split; [done|]. intros j k Hk Hnk Hj.
      by apply no_missing_present.
    + rewrite Hg in Hn. destruct (has_gender_columns d df Hcols) as [E1 E2].
      rewrite E1, Hhg, E2 in Hn. destruct Hn as (gc2 & Hgc2 & Hf).
      assert (gc2 = gc') as -> by congruence.
      eexists. rewrite get_set_col_eq. split; [done|]. simpl.
      intros j k Hk Hnk Hj.
      destruct (Kg j) as (g & Hgj & Hng); [by exists k|].
      eapply gender_loop_fills; eauto.
      apply gender_loop_keeps in Hf as [<- _]. done.
  - intros [d i] y [d' i'] _ Ha Hs. simpl in *.
    eapply evolves_filled_where; [|exact Ha]. by eapply impute_categorical_evolves.
Qed.

Lemma numeric_median_filled t df c st nc st' col :
  col ∈ nc -> grouped t df col = false ->
  get_col df col = Some c -> numbers (cells c) <> [] ->
  get_col (fst st) col = Some c ->
  foldM (impute_numeric t df) st nc = Some st' -> no_missing_in (fst st') col.
Proof.
  intros Hin Hg Hc Hnum Hst H.
  apply (foldM_reach (impute_numeric t df)
           (fun a => get_col (fst a) col = Some c \/ no_missing_in (fst a) col)
           (fun a => no_missing_in (fst a) col) col nc st st');
    [| | |done|by left|done].
  - intros [d i] y [d' i'] _ Ha Hs. simpl in *.
    destruct (decide (y = col)) as [->|Hne].
    + right. destruct Ha as [Ha|Ha].
      * apply impute_numeric_shape in Hs as (c1 & Hc1 & [[-> Hm]|(new & -> & Hn)]).
        -- by exists c1.
        -- destruct Hn as [[Hn _]|[_ ->]]; [congruence|].
           assert (c1 = c) as -> by congruence.
           eexists. rewrite get_set_col_eq. split; [done|]. simpl.
           by apply median_fill_no_missing.
      * eapply evolves_no_missing; [|exact Ha].
        eapply impute_numeric_evolves; [exact Hs|by right].
    + rewrite (numeric_step_other _ _ _ _ _ _ _ _ Hs Hne).
      destruct Ha as [Ha|(c1 & Hc1 & Hm)]; [by left|right].
      exists c1. by rewrite (numeric_step_other _ _ _ _ _ _ _ _ Hs Hne).
  - intros [d i] [d' i'] Ha Hs. simpl in *. destruct Ha as [Ha|Ha].
    + apply impute_numeric_shape in Hs as (c1 & Hc1 & [[-> Hm]|(new & -> & Hn)]).
      * by exists c1.
      * destruct Hn as [[Hn _]|[_ ->]]; [congruence|].
        assert (c1 = c) as -> by congruence.
        eexists. rewrite get_set_col_eq. split; [done|]. simpl.
        by apply median_fill_no_missing.
    + eapply evolves_no_missing; [|exact Ha].
      eapply impute_numeric_evolves; [exact Hs|by right].
  - intros [d i] y [d' i'] _ Ha Hs. simpl in *.
    eapply evolves_no_missing; [|exact Ha].
    eapply impute_numeric_evolves; [exact Hs|by right].
Qed.

Lemma group_median_rows_length keys0 cs0 keys cs :
  length (group_median_rows keys0 cs0 keys cs) = min (length keys) (length cs).
Proof.
  revert cs. induction keys as [|k r IH]; intros [|c cs]; simpl; auto.
Qed.

Lemma group_step_filled t df x tc c d i d' i' col :
  grouped t df col = true -> t = Some x -> numbers (cells c) <> [] ->
  get_col d x = Some tc ->
  get_col d col = Some c \/ filled_where d col (cells tc) ->
  impute_numeric t df (d, i) col = Some (d', i') ->
  filled_where d' col (cells tc).
Proof.
  intros Hg -> Hnum Hx Ha Hs.
  apply impute_numeric_shape in Hs as (c1 & Hc1 & [[-> Hm]|(new & -> & Hn)]).
  - destruct Ha as [Ha|Ha]; [|done]. exists c1. split; [done|].
    intros j k _ _ Hj. by apply no_missing_present.
  - destruct Hn as [(_ & tc' & Ht & ->)|[Hn _]]; [|congruence].
    simpl in Ht. assert (tc' = tc) as -> by congruence.
    eexists. rewrite get_set_col_eq. split; [done|]. simpl.
    intros j k Hk Hnk Hj. unfold group_median_fill in *.
    rewrite group_median_rows_length in Hj.
    destruct (lookup_lt_is_Some_2 (cells c1) j) as [cj Hcj]; [lia|].
    eapply group_median_rows_present; eauto.
    destruct Ha as [Ha|(c2 & Hc2 & Hf)].
    + right. congruence.
    + left. assert (c2 = c1) as -> by congruence.
      destruct (Hf j k Hk Hnk) as (w & Hw & Hnw); [lia|]. congruence.
Qed.

Lemma numeric_group_filled t df c x tc st nc st' col :
  col ∈ nc -> x ∉ nc -> grouped t df col = true -> t = Some x ->
  numbers (cells c) <> [] ->
  get_col (fst st) col = Some c -> get_col (fst st) x = Some tc ->
  foldM (impute_numeric t df) st nc = Some st' ->
  filled_where (fst st') col (cells tc).
Proof.
  intros Hin Hx Hg Ht Hnum Hc Htc H.
  cut (get_col (fst st') x = Some tc /\ filled_where (fst st') col (cells tc)); [by intros []|].
  apply (foldM_reach (impute_numeric t df)
           (fun a => get_col (fst a) x = Some tc /\
                     (get_col (fst a) col = Some c \/ filled_where (fst a) col (cells tc)))
           (fun a => get_col (fst a) x = Some tc /\ filled_where (fst a) col (cells tc))
           col nc st st'); [| | |done|by auto|done].
  - intros [d i] y [d' i'] Hy [Ha1 Ha2] Hs. simpl in *.
    assert (y <> x) as Hyx by (intros ->; done).
    split; [by rewrite (numeric_step_other _ _ _ _ _ _ _ _ Hs Hyx)|].
    destruct (decide (y = col)) as [->|Hne].
    + right. by eapply group_step_filled.
    + destruct Ha2 as [Ha2|(c1 & Hc1 & Hf)].
      * left. by rewrite (numeric_step_other _ _ _ _ _ _ _ _ Hs Hne).
      * right. exists c1. by rewrite (numeric_step_other _ _ _ _ _ _ _ _ Hs Hne).
  - intros [d i] [d' i'] [Ha1 Ha2] Hs. simpl in *.
    assert (col <> x) as Hyx by (intros ->; done).
    split; [by rewrite (numeric_step_other _ _ _ _ _ _ _ _ Hs Hyx)|].
    by eapply group_step_filled.
  - intros [d i] y [d' i'] Hy [Ha1 Ha2] Hs. simpl in *.
    assert (y <> x) as Hyx by (intros ->; done).
    split; [by rewrite (numeric_step_other _ _ _ _ _ _ _ _ Hs Hyx)|].
    destruct (decide (y = col)) as [->|Hne].
    + eapply group_step_filled; eauto.
    + destruct Ha2 as (c1 & Hc1 & Hf).
      exists c1. by rewrite (numeric_step_other _ _ _ _ _ _ _ _ Hs Hne).
Qed.

Lemma excludes_target_spec t cols x :
  excludes_target t cols = true -> t = Some x -> x ∉ cols.
Proof.
  unfold excludes_target. rewrite forallb_forall. intros H -> Hin.
  apply list_elem_of_In, H in Hin. simpl in Hin. by rewrite String.eqb_refl in Hin.
Qed.

(** C1, as amended.  When [enhanced_imputation] returns and the target is not
    among the listed features: the target column is unchanged; a categorical
    column that is not gender-linked has no missing value; a gender-linked
    column has none when the table has no gender column, and otherwise holds a
    value in every row whose gender is present; a numeric column filled by the
    column median has no missing value when it held at least one number; a
    medical column filled per target group holds a value in every row whose
    target is present, when it held at least one number. *)
Theorem enhanced_imputation_fills df numeric_cols categorical_cols t df' info :
  enhanced_imputation df numeric_cols categorical_cols t = Some (df', info) ->
  excludes_target t (numeric_cols ++ categorical_cols) = true ->
  (forall x, t = Some x -> get_col df' x = get_col df x) /\
  (forall col, col ∈ categorical_cols ->
     mem (lower col) gender_linked_features = false -> no_missing_in df' col) /\
  (forall col, col ∈ categorical_cols ->
     mem (lower col) gender_linked_features = true -> has_gender df = false ->
     no_missing_in df' col) /\
  (forall col gc, col ∈ categorical_cols ->
     mem (lower col) gender_linked_features = true -> has_gender df = true ->
     get_col df (gender_name df) = Some gc -> filled_where df' col (cells gc)) /\
  (forall col c, col ∈ numeric_cols -> grouped t df col = false ->
     get_col df col = Some c -> numbers (cells c) <> [] -> no_missing_in df' col) /\
  (forall col c x tc, col ∈ numeric_cols -> grouped t df col = true ->
     get_col df col = Some c -> numbers (cells c) <> [] ->
     t = Some x -> get_col df x = Some tc -> filled_where df' col (cells tc)).
Proof.
  intros H Hex. apply enhanced_imputation_inv in H as ([df1 info1] & H1 & H2).
  assert (forall n, evolves_on n df1 df') as Hcat.
  { intros n. by apply (categorical_loop_evolves n _ _ _ H2). }
  repeat split.
  - intros x ->. pose proof (excludes_target_spec _ _ x Hex eq_refl) as Hx.
    rewrite not_elem_of_app in Hx. destruct Hx as [Hx1 Hx2].
    pose proof (categorical_loop_other _ _ _ x Hx2 H2) as E2.
    pose proof (numeric_loop_other _ _ _ _ _ x Hx1 H1) as E1.
    simpl in *. congruence.
  - intros col Hin Hg. by apply (categorical_generic_filled _ _ _ col Hin Hg H2).
  - intros col Hin Hg Hng.
    apply (categorical_no_gender_filled df _ _ _ col Hin Hg Hng) in H2; [done|]. simpl.
    apply (numeric_loop_evolves "gender" _ _ _ _ _ (or_introl eq_refl) H1).
  - intros col gc Hin Hg Hhg Hgc.
    apply (categorical_gender_filled df gc _ _ _ col Hin Hg Hhg Hgc) in H2; [done|]. simpl.
    apply (numeric_loop_evolves _ _ _ _ _ _ (or_introl (gender_name_not_medical df)) H1).
  - intros col c Hin Hg Hc Hnum.
    eapply evolves_no_missing; [apply Hcat|].
    by apply (numeric_median_filled t df c (df, ∅) _ (df1, info1) col Hin Hg Hc Hnum Hc H1).
  - intros col c x tc Hin Hg Hc Hnum Ht Htc.
    eapply evolves_filled_where; [apply Hcat|].
    pose proof (excludes_target_spec _ _ x Hex Ht) as Hx.
    rewrite not_elem_of_app in Hx. destruct Hx as [Hx1 Hx2].
    by apply (numeric_group_filled t df c x tc (df, ∅) _ (df1, info1) col
                Hin Hx1 Hg Ht Hnum Hc Htc H1).
Qed.

(** C1 fails as stated: on [gender_gap_table] the stage returns, and the
    feature column [gestational_history] still has a missing value, in the row
    whose gender is missing too (the loop over the gender values skips it). *)
Lemma imputation_leaves_missing_gender_rows :
  classify_columns str_of_integral gender_gap_table (Some "diabetes")
    = Classified gender_gap_table ["age"]
        ["gestational_history"; "gender"; "smoking_history"] /\
  classify_and_impute str_of_integral gender_gap_table (Some "diabetes")
    = Some (gender_gap_imputed, gender_gap_report) /\
  (c ← get_col gender_gap_imputed "gestational_history"; Some (missing_count (cells c)))
    = Some 1.
Proof. repeat split; vm_compute; reflexivity. Qed.

(** Two more ways a feature keeps missing values: a numeric column without
    any number has no median to be filled with, and a medical column filled
    per target group comes back missing in the row whose target is missing
    (the value 30 of [bmi] is lost). *)
Lemma imputation_leaves_empty_numeric_column :
  (r ← classify_and_impute str_of_integral empty_column_table (Some "diabetes");
   Some (fst r))
  = Some [ Column "bmi" DNumber [Num 20%Q; Num 25%Q; NA];
           Column "waist" DNumber [NA; NA; NA];
           Column "diabetes" DNumber [Num 0%Q; Num 1%Q; NA] ].
Proof. vm_compute. reflexivity. Qed.

(** The amended contract at work on [gender_gap_table]. *)
Lemma enhanced_imputation_fills_witness :
  enhanced_imputation gender_gap_table ["age"]
    ["gestational_history"; "gender"; "smoking_history"] (Some "diabetes")
    = Some (gender_gap_imputed, gender_gap_report) /\
  excludes_target (Some "diabetes")
    (["age"] ++ ["gestational_history"; "gender"; "smoking_history"]) = true /\
  get_col gender_gap_imputed "diabetes" = get_col gender_gap_table "diabetes" /\
  no_missing_in gender_gap_imputed "smoking_history" /\
  filled_where gender_gap_imputed "gestational_history"
    [Str "Female"; NA; Str "Male"; Str "Female"] /\
  no_missing_in gender_gap_imputed "age".
Proof.
  assert (enhanced_imputation gender_gap_table ["age"]
            ["gestational_history"; "gender"; "smoking_history"] (Some "diabetes")
          = Some (gender_gap_imputed, gender_gap_report)) as H
    by reflexivity.
  assert (excludes_target (Some "diabetes")
            (["age"] ++ ["gestational_history"; "gender"; "smoking_history"]) = true) as Hex
    by reflexivity.
  destruct (enhanced_imputation_fills _ _ _ _ _ _ H Hex) as (T & G & _ & S & M & _).
  split; [exact H|]. split; [exact Hex|].
  split; [by apply T|].
  split; [apply G; [set_solver|reflexivity]|].
  split; [apply (S "gestational_history"
                  (Column "gender" DObject [Str "Female"; NA; Str "Male"; Str "Female"]));
          [set_solver|reflexivity|reflexivity|reflexivity]|].
  eapply (M "age"); [set_solver|reflexivity|reflexivity|vm_compute; discriminate].
Defined.

(** ** ColumnClassifier: the target is never a feature *)

Lemma excludes_target_app t a b :
  excludes_target t (a ++ b) = excludes_target t a && excludes_target t b.
Proof. apply forallb_app. Qed.

Lemma excludes_target_remove t x l :
  excludes_target t l = true -> excludes_target t (list_remove x l) = true.
Proof.
  unfold excludes_target. induction l as [|y r IH]; simpl; [done|].
  intros [H1 H2]%andb_prop. destruct (String.eqb y x); [done|].
  simpl. by rewrite H1, IH.
Qed.

Lemma excludes_target_mem t x l :
  excludes_target t l = true -> mem x l = true -> ne_target x t = true.
Proof.
  unfold excludes_target. rewrite forallb_forall, mem_spec.
  intros H Hin. by apply H, list_elem_of_In.
Qed.

Lemma initial_numeric_excludes df t : excludes_target t (initial_numeric df t) = true.
Proof.
  unfold excludes_target, initial_numeric. apply forallb_forall. intros x Hx.
  apply list_elem_of_In, list_elem_of_fmap in Hx as (c & -> & Hc).
  apply list_elem_of_In, filter_In in Hc as [_ Hc]. by apply andb_prop in Hc as [_ Hc].
Qed.

Lemma initial_categorical_excludes df t : excludes_target t (initial_categorical df t) = true.
Proof.
  unfold excludes_target, initial_categorical. apply forallb_forall. intros x Hx.
  apply list_elem_of_In, list_elem_of_fmap in Hx as (c & -> & Hc).
  apply list_elem_of_In, filter_In in Hc as [_ Hc]. by apply andb_prop in Hc as [_ Hc].
Qed.

(** The classifier never lists the target among the features. *)
Lemma classify_columns_excludes_target str df t :
  let st := classify_columns str df t in
  excludes_target t (cl_numeric st ++ cl_categorical st) = true.
Proof.
  unfold classify_columns.
  set (st0 := {| cl_df := df; cl_numeric := initial_numeric df t;
                 cl_categorical := initial_categorical df t |}).
  assert (excludes_target t (cl_numeric st0) = true /\
          excludes_target t (cl_categorical st0) = true) as H0.
  { split; [apply initial_numeric_excludes | apply initial_categorical_excludes]. }
  assert (forall st n f,
            excludes_target t (cl_numeric st) = true /\
            excludes_target t (cl_categorical st) = true ->
            let st' := if mem n (cl_numeric st)
                       then {| cl_df := f st; cl_numeric := list_remove n (cl_numeric st);
                               cl_categorical := cl_categorical st ++ [n] |}
                       else st in
            excludes_target t (cl_numeric st') = true /\
            excludes_target t (cl_categorical st') = true) as Hstep.
  { intros st n f [H1 H2]. simpl. destruct (mem n (cl_numeric st)) eqn:E; [|done]. simpl.
    split; [by apply excludes_target_remove|].
    rewrite excludes_target_app, H2. simpl.
    unfold excludes_target. simpl. by rewrite (excludes_target_mem t n _ H1 E). }
  simpl. rewrite excludes_target_app. apply andb_true_intro.
  unfold override_gestational, override_year.
  apply (Hstep _ "gestational_history"
           (fun st => match get_col (cl_df st) "gestational_history" with
                      | Some c => set_col (cl_df st) "gestational_history" DObject
                                    (replace_nan (astype_str str (cells c)))
                      | None => cl_df st end)).
  apply (Hstep st0 "year"
           (fun st => match get_col (cl_df st) "year" with
                      | Some c => set_col (cl_df st) "year" DObject (astype_str str (cells c))
                      | None => cl_df st end)).
  exact H0.
Qed.

(** ** OutlierTreatment: capping twice *)

(** With fixed bounds the two [np.where] passes are idempotent on a cell,
    whatever the bounds are. *)
Lemma cap_cell_idempotent lo hi c :
  cap_high hi (cap_low lo (cap_high hi (cap_low lo c))) = cap_high hi (cap_low lo c).
Proof.
  unfold cap_high, cap_low.
  destruct c as [|x|s|b]; simpl; try done;
    repeat (first
      [ rewrite Qltb_irrefl
      | match goal with
        | H : Qltb ?a ?b = _ |- context [Qltb ?a ?b] => rewrite H
        | |- context [if Qltb ?a ?b then _ else _] => destruct (Qltb a b) eqn:?
        end ]; simpl); done.
Qed.

Lemma cap_cells_idempotent lo hi (cs : list (cell Q)) :
  cap_high hi <$> (cap_low lo <$> (cap_high hi <$> (cap_low lo <$> cs)))
  = cap_high hi <$> (cap_low lo <$> cs).
Proof.
  rewrite <- !list_fmap_compose. apply list_fmap_ext. intros i c _. simpl.
  apply cap_cell_idempotent.
Qed.

Lemma iqr_bounds_quartiles cs cs' m :
  quantile cs' 0.25 = quantile cs 0.25 -> quantile cs' 0.75 = quantile cs 0.75 ->
  iqr_bounds cs' m = iqr_bounds cs m.
Proof. unfold iqr_bounds. by intros -> ->. Qed.

(** A column without flagged values is returned as it is. *)
Lemma cap_outliers_none cs m :
  count_true (detect_outliers_iqr cs m) = 0 -> cap_outliers cs m = cs.
Proof. unfold cap_outliers. by intros ->. Qed.

(** C7, as amended.  When the first capping pass leaves the two quartiles of
    the column where they were, a second pass computes the same bounds and
    changes no value. *)
Theorem cap_outliers_twice cs m :
  quantile (cap_outliers cs m) 0.25 = quantile cs 0.25 ->
  quantile (cap_outliers cs m) 0.75 = quantile cs 0.75 ->
  iqr_bounds (cap_outliers cs m) m = iqr_bounds cs m /\
  cap_outliers (cap_outliers cs m) m = cap_outliers cs m.
Proof.
  intros H1 H3. pose proof (iqr_bounds_quartiles _ _ m H1 H3) as Hb.
  split; [done|].
  assert (cap_outliers cs m = cs \/
          exists lo hi, iqr_bounds cs m = Some (lo, hi) /\
                        cap_outliers cs m = cap_high hi <$> (cap_low lo <$> cs)) as [E|E].
  { unfold cap_outliers.
    destruct (0 <? count_true (detect_outliers_iqr cs m))%nat; [|by left].
    destruct (iqr_bounds cs m) as [[lo hi]|]; [right; eauto|by left]. }
  - by rewrite !E.
  - destruct E as (lo & hi & Eb & E). rewrite Eb in Hb.
    unfold cap_outliers at 1. rewrite Hb.
    destruct (0 <? count_true (detect_outliers_iqr (cap_outliers cs m) m))%nat; [|done].
    rewrite E. apply cap_cells_idempotent.
Qed.

(** The amended statement at work: the far value 100 is capped to 7, the
    quartiles stay 2 and 4, and the second pass changes nothing. *)
Lemma cap_outliers_twice_witness :
  quantile (cap_outliers spiked_column 1.5) 0.25 = quantile spiked_column 0.25 /\
  quantile (cap_outliers spiked_column 1.5) 0.75 = quantile spiked_column 0.75 /\
  cap_outliers spiked_column 1.5 = [Num 1%Q; Num 2%Q; Num 3%Q; Num 4%Q; Num 7%Q] /\
  iqr_bounds (cap_outliers spiked_column 1.5) 1.5 = iqr_bounds spiked_column 1.5 /\
  cap_outliers (cap_outliers spiked_column 1.5) 1.5 = cap_outliers spiked_column 1.5.
Proof.
  assert (quantile (cap_outliers spiked_column 1.5) 0.25 = quantile spiked_column 0.25) as H1
    by (vm_compute; reflexivity).
  assert (quantile (cap_outliers spiked_column 1.5) 0.75 = quantile spiked_column 0.75) as H3
    by (vm_compute; reflexivity).
  split; [exact H1|]. split; [exact H3|]. split; [vm_compute; reflexivity|].
  exact (cap_outliers_twice spiked_column 1.5 H1 H3).
Defined.

(** C7 fails as stated: on the column 0, 100, 100, 100 the first pass caps 0
    to the lower bound 37.5; the second pass computes other bounds
    (60.9375 and 123.4375 instead of 37.5 and 137.5) and moves the value
    again, to 60.9375.  The numbers are written in lowest terms:
    75/2 = 37.5, 275/2 = 137.5, 975/16 = 60.9375, 1975/16 = 123.4375. *)
Lemma capping_twice_changes_bounds_and_values :
  handle_outliers skewed_table ["glucose"] "cap" 1.5
    = Some ([Column "glucose" DNumber [Num (75 # 2)%Q; Num 100%Q; Num 100%Q; Num 100%Q]],
            {[ "glucose" := outlier_record 1 4 "cap" ]}) /\
  handle_outliers
    [Column "glucose" DNumber [Num (75 # 2)%Q; Num 100%Q; Num 100%Q; Num 100%Q]]
    ["glucose"] "cap" 1.5
    = Some ([Column "glucose" DNumber [Num (975 # 16)%Q; Num 100%Q; Num 100%Q; Num 100%Q]],
            {[ "glucose" := outlier_record 1 4 "cap" ]}) /\
  iqr_bounds [Num 0%Q; Num 100%Q; Num 100%Q; Num 100%Q] 1.5 = Some (75 # 2, 275 # 2)%Q /\
  iqr_bounds [Num (75 # 2)%Q; Num 100%Q; Num 100%Q; Num 100%Q] 1.5
    = Some (975 # 16, 1975 # 16)%Q.
Proof. repeat split; vm_compute; reflexivity. Qed.

(** ** OutlierTreatment: the records *)


Lemma handle_outliers_col_info df0 method m df info col df' info' :
  handle_outliers_col df0 method m (df, info) col = Some (df', info') ->
  exists count,
    info' = <[col := outlier_record count (nrows df0)
                       (if (0 <? count)%nat then method else "none")]> info.
Proof.
  unfold handle_outliers_col. destruct (get_col df col) as [c|]; simpl; [|done].
  intros [= _ <-]. eauto.
Qed.

Lemma handle_outliers_loop df0 method m cols st st' :
  foldM (handle_outliers_col df0 method m) st cols = Some st' ->
  (forall col, is_Some (snd st' !! col) <-> is_Some (snd st !! col) \/ col ∈ cols) /\
  (forall col r, snd st' !! col = Some r ->
     snd st !! col = Some r \/
     exists count, r = outlier_record count (nrows df0)
                         (if (0 <? count)%nat then method else "none")).
Proof.
  revert st. induction cols as [|x l IH]; simpl; intros st H.
  - injection H as <-. split; [|auto]. intros col. rewrite elem_of_nil. tauto.
  - destruct (handle_outliers_col df0 method m st x) as [st1|] eqn:E; [|done].
    destruct st as [d i], st1 as [d1 i1].
    apply handle_outliers_col_info in E as (count & ->).
    destruct (IH _ H) as [H1 H2]. simpl in *. split.
    + intros col. rewrite H1, elem_of_cons.
      destruct (decide (x = col)) as [->|Hne].
      * rewrite lookup_insert_eq. split; [auto|]. intros _. left. eauto.
      * rewrite lookup_insert_ne by done. split; [tauto|].
        intros [?|[?|?]]; auto. congruence.
    + intros col r Hr. destruct (H2 col r Hr) as [Hi|?]; [|auto].
      destruct (decide (x = col)) as [->|Hne].
      * rewrite lookup_insert_eq in Hi. injection Hi as <-. eauto.
      * rewrite lookup_insert_ne in Hi by done. auto.
Qed.




(** The percentage of the record is computed in float64 and rounded by
    NumPy: 23 outliers in 160 rows are stored as 14.37, one in 4000 as 0.02,
    and a table without rows stores NaN. *)
Lemma outlier_percentage_examples :
  outlier_percentage 23 160 = Some (binary64 14.37) /\
  outlier_percentage 1 4000 = Some (binary64 0.02) /\
  outlier_percentage 1 4 = Some 25%Q /\
  outlier_percentage 0 0 = None.
Proof. repeat split; vm_compute; reflexivity. Qed.




(** ** Lists built by a body that can raise *)

Lemma mapM_Some_Forall2 {A B} (f : A -> option B) l ys :
  mapM f l = Some ys -> Forall2 (fun x y => f x = Some y) l ys.
Proof.
  revert ys. induction l as [|x r IH]; simpl; intros ys.
  - intros [= <-]. constructor.
  - destruct (f x) as [y|] eqn:E; [|done].
    destruct (mapM f r) as [ys'|]; [|done]. intros [= <-]. constructor; auto.
Qed.

Lemma mapM_elem {A B} (f : A -> option B) l ys y :
  mapM f l = Some ys -> y ∈ ys -> exists x, x ∈ l /\ f x = Some y.
Proof.
  intros H Hy. apply mapM_Some_Forall2 in H.
  induction H as [|x y' l' ys' Hxy HF IH]; [by apply elem_of_nil in Hy|].
  apply elem_of_cons in Hy as [->|Hy].
  - exists x. split; [by left|done].
  - destruct (IH Hy) as (x' & Hx' & Hf). exists x'. split; [by right|done].
Qed.

Lemma mapM_elem_inv {A B} (f : A -> option B) l ys x :
  mapM f l = Some ys -> x ∈ l -> exists y, y ∈ ys /\ f x = Some y.
Proof.
  intros H Hx. apply mapM_Some_Forall2 in H.
  induction H as [|x' y l' ys' Hxy HF IH]; [by apply elem_of_nil in Hx|].
  apply elem_of_cons in Hx as [->|Hx].
  - exists y. split; [by left|done].
  - destruct (IH Hx) as (y' & Hy' & Hf). exists y'. split; [by right|done].
Qed.

Section SelectionFacts.
Context {num : Type} `{Arith num}.
Implicit Types (df X : frame num) (names : list string).

(** ** Selecting columns by name *)

Lemma select_columns_names df names out :
  select_columns df names = Some out -> columns out = names.
Proof.
  unfold select_columns. intros Hm. apply mapM_Some_Forall2 in Hm.
  unfold columns. induction Hm as [|n c l out' Hc HF IH]; [done|].
  simpl. f_equal; [by eapply get_col_name|done].
Qed.

Lemma select_columns_elem df names out c :
  select_columns df names = Some out -> c ∈ out -> c ∈ df.
Proof.
  intros Hm Hc. destruct (mapM_elem _ _ _ _ Hm Hc) as (n & _ & Hn).
  by eapply get_col_elem.
Qed.

Lemma select_columns_get df names out n :
  select_columns df names = Some out -> n ∈ names -> get_col out n = get_col df n.
Proof.
  unfold select_columns. intros Hm. apply mapM_Some_Forall2 in Hm.
  induction Hm as [|m c l out' Hc HF IH]; intros Hn; [by apply elem_of_nil in Hn|].
  simpl. rewrite (get_col_name _ _ _ Hc).
  destruct (String.eqb m n) eqn:E.
  - apply String.eqb_eq in E. by subst.
  - apply elem_of_cons in Hn as [->|Hn]; [by rewrite String.eqb_refl in E|auto].
Qed.

(** ** FeatureSelector: the gate *)

Lemma filter_elem {A} (p : A -> bool) (l : list A) x :
  x ∈ List.filter p l <-> x ∈ l /\ p x = true.
Proof. rewrite !list_elem_of_In. apply filter_In. Qed.

Lemma feature_selection_shape (sel : nat -> frame num -> list (cell num) ->
                                      option (list (option num) * list bool))
    df_ml t out applied report :
  feature_selection sel df_ml t = Some (out, applied, report) ->
  (selection_runs df_ml t = false /\ out = df_ml /\ applied = false /\ report = None) \/
  (selection_runs df_ml t = true /\ applied = true /\
   let X := feature_columns df_ml (default "" t) in
   exists scores support chosen,
     mask_select (selectable_numeric X) support = Some chosen /\
     select_columns df_ml
       (protected_numeric X ++ chosen ++ categorical_feature_cols X ++ [default "" t])
       = Some out /\
     report = Some (sort_by_score
                      (protected_rows (protected_numeric X)
                       ++ selectable_rows (selectable_numeric X) scores support))).
Proof.
  unfold feature_selection, selection_runs.
  destruct (selection_triggered df_ml t); simpl; [|intros [= <- <- <-]; left; done].
  destruct (selection_worthwhile (feature_columns df_ml (default "" t)));
    simpl; [|intros [= <- <- <-]; left; done].
  intros Hs. right.
  destruct (select_columns (feature_columns df_ml (default "" t)) _) as [Xs|];
    simpl in Hs; [|done].
  destruct (get_col df_ml (default "" t)) as [y|]; simpl in Hs; [|done].
  destruct (sel _ Xs (cells y)) as [[scores support]|]; simpl in Hs; [|done].
  destruct (mask_select _ support) as [chosen|] eqn:Em; simpl in Hs; [|done].
  destruct (select_columns df_ml _) as [o|] eqn:Eo; simpl in Hs; [|done].
  injection Hs as <- <- <-. split; [done|]. split; [done|].
  exists scores, support, chosen. done.
Qed.


End SelectionFacts.

Section SelectorTheorems.
Context {num : Type} `{Arith num}.
Variable select_k_best :
  nat -> frame num -> list (cell num) -> option (list (option num) * list bool).

(** C6, as amended.  The selection branch is taken exactly when a target is
    given and is a column, the encoded table has more than 50 columns, some
    numeric feature is selectable, and the numeric feature columns, protected
    ones included, number more than 30.  When it is not taken the table is
    returned as it is, the flag is false and no report is written. *)
Theorem feature_selection_gate df_ml t out applied report :
  feature_selection select_k_best df_ml t = Some (out, applied, report) ->
  (applied = true <->
     truthy t = true /\ default "" t ∈ columns df_ml /\
     50 < length (columns df_ml) /\
     selectable_numeric (feature_columns df_ml (default "" t)) <> [] /\
     30 < length (numeric_feature_cols (feature_columns df_ml (default "" t)))) /\
  (applied = false -> out = df_ml /\ report = None).
Proof.
  intros Hs.
  assert (selection_runs df_ml t = true <->
          truthy t = true /\ default "" t ∈ columns df_ml /\
          50 < length (columns df_ml) /\
          selectable_numeric (feature_columns df_ml (default "" t)) <> [] /\
          30 < length (numeric_feature_cols (feature_columns df_ml (default "" t)))) as Hg.
  { unfold selection_runs, selection_triggered, selection_worthwhile.
    rewrite !andb_true_iff, negb_true_iff, mem_spec, !Nat.ltb_lt, Nat.eqb_neq.
    destruct (selectable_numeric (feature_columns df_ml (default "" t))); simpl;
      intuition (try lia; try congruence). }
  apply feature_selection_shape in Hs
    as [(Hr & -> & -> & ->)|(Hr & -> & _)].
  - split; [|done]. rewrite <- Hg, Hr. done.
  - split; [|done]. rewrite <- Hg, Hr. done.
Qed.

End SelectorTheorems.

(** The gate at work: 25 protected and 25 selectable numeric features with a
    target make 51 columns, the branch is taken and a report is written. *)
Lemma feature_selection_gate_witness :
  feature_selection first_k_selector wide_table (Some "diabetes")
    = Some (wide_selected, true, wide_report) /\
  (true = true <->
     truthy (Some "diabetes") = true /\ "diabetes" ∈ columns wide_table /\
     50 < length (columns wide_table) /\
     selectable_numeric (feature_columns wide_table "diabetes") <> [] /\
     30 < length (numeric_feature_cols (feature_columns wide_table "diabetes"))).
Proof.
  assert (feature_selection first_k_selector wide_table (Some "diabetes")
          = Some (wide_selected, true, wide_report)) as Hs by (vm_compute; reflexivity).
  split; [exact Hs|].
  exact (proj1 (feature_selection_gate first_k_selector _ _ _ _ _ Hs)).
Defined.

(** C6 fails as stated: with 25 selectable numeric features, fewer than 30,
    the selection is not skipped: it runs, because the numeric feature
    columns are counted with the 25 protected ones (50 in all). *)
Lemma selection_runs_below_30_selectable :
  length (selectable_numeric (feature_columns wide_table "diabetes")) = 25 /\
  length (numeric_feature_cols (feature_columns wide_table "diabetes")) = 50 /\
  selection_runs wide_table (Some "diabetes") = true /\
  (r ← feature_selection first_k_selector wide_table (Some "diabetes");
   Some (snd (fst r), length (columns (fst (fst r)))))
    = Some (true, 41).
Proof. repeat split; vm_compute; reflexivity. Qed.


Section ModelReadyFacts.
Context {num : Type} `{Arith num}.
Variable select_k_best :
  nat -> frame num -> list (cell num) -> option (list (option num) * list bool).
Implicit Types (df : frame num) (c d : column num).

(** ** Tables: membership and lookup *)

Lemma set_col_elem df n dt cs c :
  c ∈ set_col df n dt cs -> c ∈ df \/ c = Column n dt cs.
Proof.
  induction df as [|c0 r IH]; simpl.
  - intros Hc. apply list_elem_of_singleton in Hc. auto.
  - destruct (String.eqb (cname c0) n).
    + intros Hc. apply elem_of_cons in Hc as [->|Hc]; [auto|]. left. by right.
    + intros Hc. apply elem_of_cons in Hc as [->|Hc]; [left; by left|].
      destruct (IH Hc) as [?|?]; [left; by right|auto].
Qed.

Lemma get_col_NoDup df c : NoDup (columns df) -> c ∈ df -> get_col df (cname c) = Some c.
Proof.
  induction df as [|c0 r IH]; simpl; intros Hnd Hc; [by apply elem_of_nil in Hc|].
  apply NoDup_cons in Hnd as [Hn Hnd].
  apply elem_of_cons in Hc as [->|Hc]; [by rewrite String.eqb_refl|].
  destruct (String.eqb (cname c0) (cname c)) eqn:E; [|auto].
  apply String.eqb_eq in E. exfalso. apply Hn. rewrite E.
  unfold columns. apply list_elem_of_fmap. eauto.
Qed.

(** ** One-hot encoding *)

Lemma dummies_of_flags df col ds d :
  dummies_of df col = Some ds -> d ∈ ds ->
  cdtype d = DBool /\ forallb is_flag (cells d) = true.
Proof.
  unfold dummies_of. destruct (get_col df col) as [c|]; simpl; [|done].
  intros [= <-] Hd. apply list_elem_of_fmap in Hd as (v & -> & _). simpl.
  split; [done|]. apply forallb_forall. intros x Hx.
  apply list_elem_of_In, list_elem_of_fmap in Hx as (y & -> & _). done.
Qed.

Lemma get_dummies_elem df cols ml c :
  get_dummies df cols = Some ml -> c ∈ ml ->
  (c ∈ df /\ mem (cname c) cols = false) \/
  (exists col ds, col ∈ cols /\ dummies_of df col = Some ds /\ c ∈ ds).
Proof.
  unfold get_dummies. destruct (mapM (dummies_of df) cols) as [dss|] eqn:Em; simpl; [|done].
  intros [= <-] Hc. apply elem_of_app in Hc as [Hc|Hc].
  - left. apply filter_elem in Hc as [Hc Hm]. by apply negb_true_iff in Hm.
  - right. apply list_elem_of_join in Hc as (ds & Hc & Hds).
    destruct (mapM_elem _ _ _ _ Em Hds) as (col & Hcol & Hd). eauto.
Qed.

Lemma get_dummies_has df cols ml col ds d :
  get_dummies df cols = Some ml -> col ∈ cols -> dummies_of df col = Some ds ->
  d ∈ ds -> d ∈ ml.
Proof.
  unfold get_dummies. destruct (mapM (dummies_of df) cols) as [dss|] eqn:Em; simpl; [|done].
  intros [= <-] Hcol Hds Hd. apply elem_of_app. right.
  apply list_elem_of_join. exists ds. split; [done|].
  destruct (mapM_elem_inv _ _ _ _ Em Hcol) as (ds' & Hin & Hds'). congruence.
Qed.

Lemma encode_categoricals_elem df cc ml c :
  encode_categoricals df cc = Some ml -> c ∈ ml ->
  (c ∈ df /\ mem (cname c) (categorical_for_encoding df cc) = false) \/
  (exists col ds, col ∈ categorical_for_encoding df cc /\
                  dummies_of df col = Some ds /\ c ∈ ds).
Proof.
  unfold encode_categoricals.
  destruct (categorical_for_encoding df cc) as [|x l] eqn:E; simpl.
  - intros [= <-] Hc. left. done.
  - rewrite <- E. apply get_dummies_elem.
Qed.

Lemma encode_categoricals_has df cc ml col ds d :
  encode_categoricals df cc = Some ml -> col ∈ categorical_for_encoding df cc ->
  dummies_of df col = Some ds -> d ∈ ds -> d ∈ ml.
Proof.
  unfold encode_categoricals.
  destruct (categorical_for_encoding df cc) as [|x l] eqn:E; simpl.
  - intros _ Hcol. by apply elem_of_nil in Hcol.
  - rewrite <- E. apply get_dummies_has.
Qed.

(** ** Scaling *)

Lemma assign_scaled_elem df s c :
  c ∈ assign_scaled df s -> c ∈ df \/ cdtype c = DNumber.
Proof.
  unfold assign_scaled. revert df. induction s as [|x r IH]; simpl; intros df Hc; [auto|].
  destruct (IH _ Hc) as [Hc'|?]; [|auto].
  apply set_col_elem in Hc' as [?| ->]; auto.
Qed.

Lemma assign_scaled_other df s n :
  n ∉ (fun x => fst (fst x)) <$> s -> get_col (assign_scaled df s) n = get_col df n.
Proof.
  unfold assign_scaled. revert df. induction s as [|x r IH]; simpl; intros df Hn; [done|].
  rewrite not_elem_of_cons in Hn. destruct Hn as [Hx Hr].
  rewrite IH by done. by apply get_set_col_ne.
Qed.


Lemma fit_transform_names df names s :
  fit_transform df names = Some s -> (fun x => fst (fst x)) <$> s = names.
Proof.
  unfold fit_transform. intros Hm. apply mapM_Some_Forall2 in Hm.
  induction Hm as [|n x l s' Hx HF IH]; [done|]. simpl. f_equal; [|done].
  destruct (get_col df n) as [c|]; simpl in Hx; [|done].
  destruct (scaler_fit (cells c)); simpl in Hx; [|done]. by injection Hx as <-.
Qed.


Lemma scale_numeric_elem df names scaled c :
  scale_numeric df names = Some scaled -> c ∈ scaled -> c ∈ df \/ cdtype c = DNumber.
Proof.
  unfold scale_numeric. destruct (length names =? 0)%nat; [by intros [= <-]; auto|].
  destruct (fit_transform df names) as [s|]; simpl; [|done].
  intros [= <-]. apply assign_scaled_elem.
Qed.

Lemma scale_numeric_other df names scaled n :
  scale_numeric df names = Some scaled -> n ∉ names -> get_col scaled n = get_col df n.
Proof.
  unfold scale_numeric. destruct (length names =? 0)%nat; [by intros [= <-]|].
  destruct (fit_transform df names) as [s|] eqn:Es; simpl; [|done].
  intros [= <-] Hn. apply assign_scaled_other. by rewrite (fit_transform_names _ _ _ Es).
Qed.


(** ** Selection keeps columns as they are *)

Lemma feature_selection_elem df_ml t out applied report c :
  feature_selection select_k_best df_ml t = Some (out, applied, report) ->
  c ∈ out -> c ∈ df_ml.
Proof.
  intros Hs Hc. apply feature_selection_shape in Hs as [(_ & -> & _)|(_ & _ & Hs)]; [done|].
  simpl in Hs. destruct Hs as (? & ? & ? & _ & Ho & _).
  by eapply select_columns_elem.
Qed.

Lemma feature_selection_get df_ml t out applied report n c :
  feature_selection select_k_best df_ml t = Some (out, applied, report) ->
  get_col out n = Some c -> get_col df_ml n = Some c.
Proof.
  intros Hs Hc. apply feature_selection_shape in Hs as [(_ & -> & _)|(_ & _ & Hs)]; [done|].
  simpl in Hs. destruct Hs as (? & ? & ? & _ & Ho & _).
  rewrite <- (select_columns_get _ _ _ n Ho); [done|].
  rewrite <- (select_columns_names _ _ _ Ho).
  destruct (decide (n ∈ columns out)) as [|Hn]; [done|].
  apply get_col_None in Hn. congruence.
Qed.

(** ** The steps of [prepare_ml] *)

Lemma prepare_ml_inv df_clean nc cc t out :
  prepare_ml select_k_best df_clean nc cc t = Some out ->
  exists df_ml scaled,
    encode_categoricals df_clean cc = Some df_ml /\
    scale_numeric df_ml (final_numeric_cols df_ml nc) = Some scaled /\
    feature_selection select_k_best scaled t
      = Some (ml_table out, ml_selection_applied out, ml_selection_report out) /\
    (forall sc, ml_persisted_scaler out = Some sc ->
       fit_frame (ml_table out)
         (final_numeric_in_ml (ml_table out) (final_numeric_cols df_ml nc) t) = Some sc).
Proof.
  unfold prepare_ml.
  destruct (encode_categoricals df_clean cc) as [df_ml|] eqn:E1; simpl; [|done].
  destruct (scale_numeric df_ml _) as [scaled|] eqn:E2; simpl; [|done].
  destruct (feature_selection select_k_best scaled t) as [[[o a] r]|] eqn:E3; simpl; [|done].
  intros Hp. exists df_ml, scaled. split; [done|]. split; [done|].
  destruct (length (final_numeric_cols df_ml nc) =? 0)%nat; simpl in Hp.
  - injection Hp as <-. simpl. split; [done|]. done.
  - destruct (length (final_numeric_in_ml o _ t) =? 0)%nat; simpl in Hp.
    + injection Hp as <-. simpl. split; [done|]. done.
    + destruct (fit_frame o _) as [s|] eqn:Ef; simpl in Hp; [|done].
      injection Hp as <-. simpl. split; [done|]. by intros sc [= <-].
Qed.

(** C4, as amended.  Every column of the model-ready table is numeric or is
    a column of the cleaned table that was not one-hot encoded (the target,
    and a text column kept next to its target encoding, are such columns).
    Every indicator column made by the one-hot encoding is boolean and holds
    only 0/1 flags.  When the column names of the encoded table are distinct
    and the indicator's name is not a scaled feature, the model-ready table
    holds no other column under its name, and it holds the indicator,
    unchanged, when the feature selection was not applied (an applied
    selection may drop it: to the selection an indicator is a numeric
    feature). *)
Theorem prepare_ml_columns df_clean nc cc t out :
  prepare_ml select_k_best df_clean nc cc t = Some out ->
  (forall c, c ∈ ml_table out ->
     is_numeric_dtype (cdtype c) = true \/
     (c ∈ df_clean /\ mem (cname c) (categorical_for_encoding df_clean cc) = false)) /\
  (forall col ds d,
     col ∈ categorical_for_encoding df_clean cc ->
     dummies_of df_clean col = Some ds -> d ∈ ds ->
     cdtype d = DBool /\ forallb is_flag (cells d) = true /\
     forall df_ml,
       encode_categoricals df_clean cc = Some df_ml -> NoDup (columns df_ml) ->
       mem (cname d) (final_numeric_cols df_ml nc) = false ->
       (forall c, get_col (ml_table out) (cname d) = Some c -> c = d) /\
       (ml_selection_applied out = false ->
        get_col (ml_table out) (cname d) = Some d)).
Proof.
  intros Hp. apply prepare_ml_inv in Hp as (df_ml & scaled & He & Hsc & Hs & _).
  split.
  - intros c Hc. apply (feature_selection_elem _ _ _ _ _ _ Hs) in Hc.
    apply (scale_numeric_elem _ _ _ _ Hsc) in Hc as [Hc| ->]; [|by left].
    apply (encode_categoricals_elem _ _ _ _ He) in Hc as [?|(col & ds & _ & Hd & Hc)];
      [by right|].
    left. by destruct (dummies_of_flags _ _ _ _ Hd Hc) as [-> _].
  - intros col ds d Hcol Hds Hd.
    destruct (dummies_of_flags _ _ _ _ Hds Hd) as [Hb Hf].
    split; [done|]. split; [done|].
    intros df_ml' He' Hnd Hnum.
    rewrite He in He'. injection He' as <-.
    pose proof (encode_categoricals_has _ _ _ _ _ _ He Hcol Hds Hd) as Hin.
    assert (get_col scaled (cname d) = Some d) as Hscaled.
    { rewrite (scale_numeric_other _ _ _ _ Hsc) by (by apply mem_false).
      by apply get_col_NoDup. }
    split.
    + intros c Hc. apply (feature_selection_get _ _ _ _ _ _ _ Hs) in Hc. congruence.
    + intros Ha.
      apply feature_selection_shape in Hs as [(_ & -> & _)|(_ & Ht & _)]; [done|].
      congruence.
Qed.
End ModelReadyFacts.

(** C4 fails as stated: the model-ready table made from [kept_text_table]
    holds the text column [city], which is not the target; it was kept next
    to [city_target_encoded] and left out of the one-hot encoding. *)
Lemma ml_ready_keeps_text_column :
  categorical_for_encoding kept_text_table ["city"; "smoking"] = ["smoking"] /\
  prepare_ml first_k_selector kept_text_table ["bmi"] ["city"; "smoking"] (Some "diabetes")
    = Some kept_text_ml /\
  get_col (ml_table kept_text_ml) "city"
    = Some (Column "city" DObject [Str "Galle"; Str "Kandy"]) /\
  is_numeric_dtype DObject = false.
Proof. repeat split; vm_compute; reflexivity. Qed.

(** The engineered bands take the same way out: [pd.cut] returns the type
    [category], so [bmi_risk_level] and [age_diabetes_risk] are listed as
    numeric features, are neither encoded nor scaled, and reach the
    model-ready table as text.  The run is that of [gap_table], whose missing
    [bmi] is imputed, in float64 arithmetic. *)
Lemma ml_ready_keeps_engineered_bands :
  (r ← enhanced_preprocessing Arith_binary64 str_of_integral stable_sort_counts
         zero_target_encoder first_k_selector gap_table (Some "diabetes") "cap" true;
   Some (List.filter (fun c => negb (is_numeric_dtype (cdtype c)))
           (ml_table (ml_ready r))))
  = Some [ Column "bmi_risk_level" DCategory
             [Str "normal"; Str "obese_1"; Str "normal"; Str "normal"];
           Column "age_diabetes_risk" DCategory
             [Str "low_risk"; Str "high_risk"; Str "moderate_risk"; Str "high_risk"] ].
Proof. vm_compute. reflexivity. Qed.

(** The same run stops on a table without any gap: the imputation report is
    empty and cannot be given its three column names. *)
Lemma pipeline_needs_a_gap :
  enhanced_preprocessing Arith_binary64 str_of_integral stable_sort_counts
    zero_target_encoder first_k_selector bands_table (Some "diabetes") "cap" true
  = None.
Proof. vm_compute. reflexivity. Qed.

(** The amended statement at work on [kept_text_table]. *)
Lemma prepare_ml_columns_witness :
  prepare_ml first_k_selector kept_text_table ["bmi"] ["city"; "smoking"] (Some "diabetes")
    = Some kept_text_ml /\
  (forall c, c ∈ ml_table kept_text_ml ->
     is_numeric_dtype (cdtype c) = true \/
     (c ∈ kept_text_table /\
      mem (cname c) (categorical_for_encoding kept_text_table ["city"; "smoking"]) = false)) /\
  get_col (ml_table kept_text_ml) "smoking_never"
    = Some (Column "smoking_never" DBool [Flag true; Flag false]).
Proof.
  assert (prepare_ml first_k_selector kept_text_table ["bmi"] ["city"; "smoking"]
            (Some "diabetes") = Some kept_text_ml) as Hp by (vm_compute; reflexivity).
  destruct (prepare_ml_columns first_k_selector _ _ _ _ _ Hp) as [HA HB].
  split; [exact Hp|]. split; [exact HA|]. reflexivity.
Defined.

(** ** StandardScaler over the reals *)

Section RealScaler.
Local Open Scope R_scope.
Implicit Types (l : list R) (cs : list (cell R)).

Lemma n_sum_R_cons x l : n_sum (x :: l) = x + n_sum l.
Proof. reflexivity. Qed.

Lemma n_sum_R_nil : n_sum (@nil R) = 0.
Proof. reflexivity. Qed.

Lemma n_sum_R_affine m s l :
  n_sum ((fun x => (x - m) / s) <$> l) = (n_sum l - INR (length l) * m) / s.
Proof.
  induction l as [|x r IH].
  - simpl. unfold Rdiv. ring.
  - rewrite fmap_cons, !n_sum_R_cons, IH.
    change (length (x :: r)) with (S (length r)). rewrite S_INR. unfold Rdiv. ring.
Qed.

Lemma n_sum_R_squares m s l :
  n_sum ((fun y => (y - 0) * (y - 0)) <$> ((fun x => (x - m) / s) <$> l))
  = n_sum ((fun x => (x - m) * (x - m)) <$> l) * (/ s * / s).
Proof.
  induction l as [|x r IH].
  - simpl. ring.
  - rewrite !fmap_cons, !n_sum_R_cons, IH. unfold Rdiv. ring.
Qed.

Lemma n_sum_R_squares_nonneg m l :
  0 <= n_sum ((fun x => (x - m) * (x - m)) <$> l).
Proof.
  induction l as [|x r IH].
  - simpl. lra.
  - rewrite fmap_cons, n_sum_R_cons. pose proof (Rle_0_sqr (x - m)) as Hs.
    unfold Rsqr in Hs. lra.
Qed.

Lemma n_mean_R l : n_mean l = n_sum l / INR (length l).
Proof. unfold n_mean. simpl. by rewrite <- INR_IZR_INZ. Qed.

Lemma n_variance_R l :
  n_variance l
  = n_sum ((fun x => (x - n_mean l) * (x - n_mean l)) <$> l) / INR (length l).
Proof. unfold n_variance. simpl. by rewrite <- INR_IZR_INZ. Qed.

Lemma n_is_zero_R x : n_is_zero x = true <-> x = 0.
Proof. simpl. destruct (Req_dec_T x 0); split; congruence. Qed.

Lemma n_scale_R l :
  n_scale l = Some (if n_is_zero (n_variance l) then 1 else sqrt (n_variance l)).
Proof. unfold n_scale. by destruct (n_is_zero (n_variance l)). Qed.

(** A standardized list of numbers has mean 0 and scale 1. *)
Lemma standardized_stats l s :
  l <> [] -> n_scale l = Some s ->
  let l' := (fun x => (x - n_mean l) / s) <$> l in
  n_mean l' = 0 /\ n_scale l' = Some 1.
Proof.
  intros Hl Hs l'.
  assert (0 < INR (length l)) as Hn.
  { apply lt_0_INR. destruct l; [done|simpl; lia]. }
  assert (n_mean l' = 0) as Hm.
  { unfold l'. rewrite n_mean_R, n_sum_R_affine, (n_mean_R l), length_fmap.
    assert (n_sum l - INR (length l) * (n_sum l / INR (length l)) = 0) as ->
      by (field; lra).
    unfold Rdiv. ring. }
  split; [done|].
  assert (n_variance l' = n_variance l * (/ s * / s)) as Hv.
  { rewrite n_variance_R, Hm. unfold l'.
    rewrite n_sum_R_squares, length_fmap, (n_variance_R l). unfold Rdiv. ring. }
  rewrite n_scale_R in Hs.
  rewrite n_scale_R, Hv. f_equal.
  set (v' := n_variance l * (/ s * / s)).
  destruct (n_is_zero (n_variance l)) eqn:Ez; injection Hs as Hs.
  - apply n_is_zero_R in Ez.
    assert (n_is_zero v' = true) as -> by (apply n_is_zero_R; unfold v'; rewrite Ez; ring).
    done.
  - assert (n_variance l <> 0) as Hne.
    { intros E. apply n_is_zero_R in E. congruence. }
    assert (0 <= n_variance l) as Hge.
    { rewrite n_variance_R. apply Rmult_le_pos; [apply n_sum_R_squares_nonneg|].
      left. by apply Rinv_0_lt_compat. }
    assert (0 < n_variance l) as Hpos by lra.
    assert (0 < s) as Hspos by (rewrite <- Hs; by apply sqrt_lt_R0).
    assert (s * s = n_variance l) as Hsq by (rewrite <- Hs; apply sqrt_sqrt; lra).
    assert (v' = 1) as Hv1.
    { unfold v'. rewrite <- Hsq. field. lra. }
    destruct (n_is_zero v') eqn:E.
    + apply n_is_zero_R in E. lra.
    + rewrite Hv1. apply sqrt_1.
Qed.

Lemma mapM_cell_value_transform cs (vs : list (option R)) m s :
  mapM cell_value cs = Some vs ->
  mapM cell_value (scaler_transform (Stats m s) cs)
    = Some ((fun v : option R => (fun x => (x - m) / s) <$> v) <$> vs).
Proof.
  unfold scaler_transform.
  revert vs. induction cs as [|c r IH]; intros vs Hm.
  - simpl in Hm. by injection Hm as <-.
  - simpl in Hm. destruct (cell_value c) as [v|] eqn:Ev; [|done].
    destruct (mapM cell_value r) as [vs'|] eqn:Er; [|done].
    injection Hm as <-. specialize (IH _ eq_refl).
    rewrite !fmap_cons. cbn [mapM]. rewrite IH, Ev.
    destruct c as [|x|?|b]; simpl in Ev; try done; injection Ev as <-; reflexivity.
Qed.

Lemma values_of_fmap (f : R -> R) (vs : list (option R)) :
  values_of ((fun v : option R => f <$> v) <$> vs) = f <$> values_of vs.
Proof.
  unfold values_of. induction vs as [|[x|] r IH]; simpl; [done| |exact IH].
  f_equal. exact IH.
Qed.

Lemma has_value_values cs vs :
  mapM cell_value cs = Some vs -> has_value cs = true -> values_of vs <> [].
Proof.
  revert vs. induction cs as [|c r IH]; simpl; intros vs; [done|].
  destruct (cell_value c) as [v|] eqn:Ev; [|done].
  destruct (mapM cell_value r) as [vs'|] eqn:Er; [|done].
  intros [= <-] Hh. destruct c; simpl in *; try done.
  - injection Ev as <-. by apply IH.
  - by injection Ev as <-.
  - by injection Ev as <-.
Qed.

Lemma no_value_values cs vs :
  mapM cell_value cs = Some vs -> has_value cs = false -> values_of vs = [].
Proof.
  revert vs. induction cs as [|c r IH]; simpl; intros vs; [by intros [= <-]|].
  destruct (cell_value c) as [v|] eqn:Ev; [|done].
  destruct (mapM cell_value r) as [vs'|] eqn:Er; [|done].
  intros [= <-] Hh. destruct c; simpl in *; try done.
  injection Ev as <-. by apply IH.
Qed.

Lemma scaler_fit_values cs (vs : list (option R)) :
  cs <> [] -> mapM cell_value cs = Some vs ->
  scaler_fit cs =
    if (length (values_of vs) =? 0)%nat then Some NoStats
    else s ← n_scale (values_of vs); Some (Stats (n_mean (values_of vs)) s).
Proof.
  intros Hne E. unfold scaler_fit. rewrite E.
  destruct cs; [done|]. reflexivity.
Qed.

Lemma scaler_fit_nonempty cs (f : fitted R) : scaler_fit cs = Some f -> cs <> [].
Proof. by destruct cs. Qed.

Lemma scaler_transform_nonempty (f : fitted R) cs :
  cs <> [] -> scaler_transform f cs <> [].
Proof. destruct cs; [done|]. by destruct f. Qed.

(** Fitting a scaler on a column that the scaler has standardized gives the
    mean 0 and the scale 1, whatever the column held. *)
Lemma scaler_refit cs f0 :
  scaler_fit cs = Some f0 ->
  scaler_fit (scaler_transform f0 cs)
    = Some (if has_value cs then Stats 0 1 else NoStats).
Proof.
  intros Hfit. pose proof (scaler_fit_nonempty _ _ Hfit) as Hcs. revert Hfit.
  destruct (mapM cell_value cs) as [vs|] eqn:Ev;
    [|unfold scaler_fit; rewrite Ev; by destruct cs].
  rewrite (scaler_fit_values _ _ Hcs Ev).
  destruct (has_value cs) eqn:Eh.
  - pose proof (has_value_values _ _ Ev Eh) as Hne.
    destruct (Nat.eqb_spec (length (values_of vs)) 0) as [E|Hlen];
      [by destruct (values_of vs)|].
    destruct (n_scale (values_of vs)) as [s|] eqn:Es; [|done].
    intros [= <-].
    rewrite (scaler_fit_values _ _ (scaler_transform_nonempty _ _ Hcs)
               (mapM_cell_value_transform _ _ _ _ Ev)).
    rewrite values_of_fmap, length_fmap.
    destruct (Nat.eqb_spec (length (values_of vs)) 0) as [E|_]; [done|].
    pose proof (standardized_stats _ _ Hne Es) as [Hm Hsc].
    change (n_scale ((fun x : R => (x - n_mean (values_of vs)) / s) <$> values_of vs)
            ≫= (fun s0 => Some (Stats
                  (n_mean ((fun x : R => (x - n_mean (values_of vs)) / s) <$> values_of vs))
                  s0))
            = Some (Stats 0 1)).
    by rewrite Hsc, Hm.
  - rewrite (no_value_values _ _ Ev Eh). intros [= <-].
    unfold scaler_transform. rewrite (scaler_fit_values _ _ Hcs Ev).
    by rewrite (no_value_values _ _ Ev Eh).
Qed.

(** *** The stored pair against the mean and the deviation of the column *)



Lemma column_numbers_transform m s cs :
  column_numbers (scaler_transform (Stats m s) cs)
  = (fun x => (x - m) / s) <$> column_numbers cs.
Proof.
  unfold scaler_transform, column_numbers.
  induction cs as [|c r IH]; [done|].
  rewrite !fmap_cons.
  destruct c as [|x|t|b];
    cbn [omap list_omap cell_value fmap list_fmap]; rewrite IH; try done.
  by destruct b.
Qed.








End RealScaler.

Section PersistedScaler.
Context {num : Type} `{Arith num}.
Variable select_k_best :
  nat -> frame num -> list (cell num) -> option (list (option num) * list bool).


End PersistedScaler.


Lemma sqrt_4 : sqrt 4 = 2%R.
Proof. replace 4%R with (2 * 2)%R by ring. apply sqrt_square. lra. Qed.

Lemma real_column_fit :
  scaler_fit [Num 1%R; Num 5%R] = Some (Stats (n_mean [1%R; 5%R]) 2%R).
Proof.
  rewrite (scaler_fit_values [Num 1%R; Num 5%R] [Some 1%R; Some 5%R]); [|done|done].
  change (values_of [Some 1%R; Some 5%R]) with [1%R; 5%R].
  change (length [1%R; 5%R] =? 0)%nat with false. cbv iota.
  assert (n_variance [1%R; 5%R] = 4%R) as Hv.
  { rewrite n_variance_R, n_mean_R. simpl. field. }
  rewrite n_scale_R, Hv.
  assert (n_is_zero 4%R = false) as ->.
  { destruct (n_is_zero 4%R) eqn:E; [|done]. apply n_is_zero_R in E. lra. }
  simpl. by rewrite sqrt_4.
Qed.

Lemma real_scaled_fit : scaler_fit real_scaled = Some (Stats 0%R 1%R).
Proof. unfold real_scaled. by rewrite (scaler_refit _ _ real_column_fit). Qed.



(** On [real_table] the two pairs differ: the first scaler holds the
    deviation 2 of the column before scaling, the persisted one the
    deviation 1 of the scaled column. *)
Lemma real_table_pairs :
  scaler_fit [Num 1%R; Num 5%R] = Some (Stats (n_mean [1%R; 5%R]) 2%R) /\
  n_mean [1%R; 5%R] = 3%R /\
  std_of [1%R; 5%R] 2%R /\
  scaler_fit real_scaled = Some (Stats 0%R 1%R) /\
  std_of (column_numbers real_scaled) 1%R.
Proof.
  assert (n_mean [1%R; 5%R] = 3%R) as Hm by (rewrite n_mean_R; simpl; field).
  split; [exact real_column_fit|]. split; [exact Hm|]. split.
  { exists 3%R. split; [split; [done|simpl; ring]|]. split; [lra|]. simpl. ring. }
  split; [exact real_scaled_fit|].
  exists 0%R. unfold real_scaled. rewrite column_numbers_transform, Hm.
  split; [split; [done|simpl; field]|]. split; [lra|]. simpl. field.
Qed.





(** A constant column: the scaled column has the deviation 0 and both
    scalers store the scale 1. *)
Lemma constant_column_refit :
  scaler_fit [Num 5%R; Num 5%R] = Some (Stats (n_mean [5%R; 5%R]) 1%R) /\
  scaler_fit (scaler_transform (Stats (n_mean [5%R; 5%R]) 1%R) [Num 5%R; Num 5%R])
    = Some (Stats 0%R 1%R) /\
  std_of (column_numbers
            (scaler_transform (Stats (n_mean [5%R; 5%R]) 1%R) [Num 5%R; Num 5%R])) 0%R.
Proof.
  assert (n_mean [5%R; 5%R] = 5%R) as Hm by (rewrite n_mean_R; simpl; field).
  assert (scaler_fit [Num 5%R; Num 5%R] = Some (Stats (n_mean [5%R; 5%R]) 1%R)) as Hfit.
  { rewrite (scaler_fit_values [Num 5%R; Num 5%R] [Some 5%R; Some 5%R]); [|done|done].
    change (values_of [Some 5%R; Some 5%R]) with [5%R; 5%R].
    change (length [5%R; 5%R] =? 0)%nat with false. cbv iota.
    assert (n_variance [5%R; 5%R] = 0%R) as Hv.
    { rewrite n_variance_R, Hm. simpl. field. }
    rewrite n_scale_R, Hv.
    assert (n_is_zero 0%R = true) as -> by (by apply n_is_zero_R).
    reflexivity. }
  split; [exact Hfit|]. split; [by rewrite (scaler_refit _ _ Hfit)|].
  rewrite column_numbers_transform, Hm.
  exists 0%R. split; [split; [done|simpl; field]|]. split; [lra|]. simpl. field.
Qed.

(** ** The prediction service and the persisted scaler *)

Lemma mapM_None {A B} (f : A -> option B) l x :
  x ∈ l -> f x = None -> mapM f l = None.
Proof.
  induction l as [|y r IH]; intros Hx Hf; [by apply elem_of_nil in Hx|].
  simpl. apply elem_of_cons in Hx as [<-|Hx]; [by rewrite Hf|].
  destruct (f y); [|done]. by rewrite IH.
Qed.

Lemma find_feature_row features g schema n :
  n ∉ schema ->
  List.find (fun x : string * pyval => String.eqb (fst x) n)
    (Prediction.feature_row features g schema) = None.
Proof.
  unfold Prediction.feature_row. induction schema as [|c r IH]; intros Hn; [done|].
  rewrite not_elem_of_cons in Hn. destruct Hn as [Hc Hr].
  rewrite fmap_cons. simpl.
  destruct (String.eqb c n) eqn:E; [apply String.eqb_eq in E; congruence|auto].
Qed.

(** Without one of the four numeric features in the schema the model branch
    raises, whatever the model is. *)
Lemma model_probability_off_schema fs m schema features g n :
  n ∈ Prediction.numeric_features -> n ∉ schema ->
  Prediction.model_probability (Prediction.init fs) m schema features g = None.
Proof.
  intros Hn Hs. unfold Prediction.model_probability. simpl.
  unfold Prediction.row_values.
  rewrite (mapM_None _ _ n Hn); [done|].
  by rewrite find_feature_row.
Qed.

Lemma request_features_bmi req g :
  Prediction.request_features req g !! "bmi"
  = Some (PFloat (Some (Prediction.request_bmi req))).
Proof.
  assert (Prediction.base_features req g !! "bmi"
          = Some (PFloat (Some (Prediction.request_bmi req)))) as Hl.
  { unfold Prediction.base_features. cbv zeta. rewrite !list_to_map_cons.
    rewrite lookup_insert_ne by done. apply lookup_insert_eq. }
  unfold Prediction.request_features.
  destruct (String.eqb (lower g) "female"); [|done].
  cbv zeta. by rewrite !lookup_insert_ne by done.
Qed.

Lemma preprocess_input_bmi req g features clinical :
  Prediction.preprocess_input req g = Some (features, clinical) ->
  exists b, features !! "bmi" = Some (PFloat (Some b)).
Proof.
  unfold Prediction.preprocess_input.
  destruct (Qeq_bool (Prediction.height req) 0); [done|].
  intros [= <- _]. eexists. apply request_features_bmi.
Qed.

Lemma report_calculator features clinical b r :
  features !! "bmi" = Some (PFloat (Some b)) ->
  Prediction.risk_calculator features clinical = Some r ->
  let p := Prediction.report features clinical r in
  Prediction.error p = None /\ Prediction.confidence p = "moderate" /\
  Prediction.has_clinical_data p = clinical /\
  Prediction.model_used p
    = (if clinical then "Risk Calculator (Clinical + Lifestyle)"
       else "Risk Calculator (Lifestyle Only)").
Proof.
  intros Hb Hr. unfold Prediction.risk_calculator in Hr.
  destruct clinical; apply bind_Some in Hr as (x & _ & Hr); apply (inj Some) in Hr;
    subst r; unfold Prediction.report; rewrite Hb;
    cbn [mbind option_bind Prediction.as_number
      Prediction.error Prediction.confidence Prediction.model_used
      Prediction.has_clinical_data]; done.
Qed.

(** A chain of comparisons adds something on every value that is not a
    text. *)
Lemma increment_number (features : gmap string pyval) k d x steps :
  features !! k = Some (PFloat (Some x)) ->
  is_Some (Prediction.increment (Prediction.feature_or features k d) steps).
Proof.
  intros Hk. unfold Prediction.feature_or. rewrite Hk. cbn [default from_option].
  induction steps as [|[t y] steps IH]; cbn; [by eexists|].
  destruct (Qleb t x); [by eexists|done].
Qed.

Lemma lifestyle_risk_returns (features : gmap string pyval) a b :
  features !! "age" = Some (PFloat (Some a)) ->
  features !! "bmi" = Some (PFloat (Some b)) ->
  is_Some (Prediction.calculate_lifestyle_risk features).
Proof.
  intros Ha Hb. unfold Prediction.calculate_lifestyle_risk.
  destruct (increment_number features "age" (PInt 35) a
              [(65, 0.3); (50, 0.2); (35, 0.1)]%Q Ha) as [r1 ->].
  destruct (increment_number features "bmi" (PInt 25) b
              [(35, 0.25); (30, 0.2); (25, 0.1)]%Q Hb) as [r2 ->].
  by eexists.
Qed.

Lemma clinical_risk_returns (features : gmap string pyval) a b h g :
  features !! "age" = Some (PFloat (Some a)) ->
  features !! "bmi" = Some (PFloat (Some b)) ->
  features !! "hbA1c_level" = Some (PFloat (Some h)) ->
  features !! "blood_glucose_level" = Some (PFloat (Some g)) ->
  is_Some (Prediction.calculate_risk_with_clinical features).
Proof.
  intros Ha Hb Hh Hg. unfold Prediction.calculate_risk_with_clinical.
  destruct (increment_number features "hbA1c_level" (PFloat (Some 5.7%Q)) h
              [(6.5, 0.7); (5.7, 0.4)]%Q Hh) as [r1 ->].
  destruct (increment_number features "blood_glucose_level" (PInt 95) g
              [(126, 0.3); (100, 0.15)]%Q Hg) as [r2 ->].
  destruct (lifestyle_risk_returns features a b Ha Hb) as [l ->].
  by eexists.
Qed.

Lemma assign_row_names row names vals :
  fst <$> Prediction.assign_row row names vals = fst <$> row.
Proof.
  revert row vals. induction names as [|n names IH]; intros row [|v vals]; cbn; try done.
  rewrite IH. rewrite <- list_fmap_compose. apply list_fmap_ext.
  intros i [k x] _. cbn. by destruct (String.eqb k n).
Qed.

Lemma feature_row_names features g schema :
  fst <$> Prediction.feature_row features g schema = schema.
Proof.
  unfold Prediction.feature_row. rewrite <- list_fmap_compose.
  rewrite <- (list_fmap_id schema) at 2. by apply list_fmap_ext.
Qed.

Lemma assign_row_other row names vals col v :
  col ∉ names -> (col, v) ∈ Prediction.assign_row row names vals <-> (col, v) ∈ row.
Proof.
  revert row vals. induction names as [|n names IH]; intros row [|x vals] Hc; cbn;
    try done.
  apply not_elem_of_cons in Hc as [Hne Hc].
  rewrite IH by done. rewrite list_elem_of_fmap. split.
  - intros ([k y] & E & Hin). cbn in E.
    destruct (String.eqb_spec k n) as [->|]; by simplify_eq.
  - intros Hin. exists (col, v). split; [|done]. cbn.
    destruct (String.eqb_spec col n) as [->|]; done.
Qed.

Lemma feature_row_elem features g schema col v :
  (col, v) ∈ Prediction.feature_row features g schema ->
  v = default (Prediction.default_feature g col) (features !! col).
Proof.
  unfold Prediction.feature_row. intros H.
  apply list_elem_of_fmap in H as (c & E & _). by simplify_eq.
Qed.

(** The four numeric features are numbers in every feature dictionary. *)
Lemma request_features_numeric req g n :
  n ∈ Prediction.numeric_features ->
  exists x, Prediction.request_features req g !! n = Some (PFloat (Some x)).
Proof.
  intros Hn. unfold Prediction.numeric_features in Hn.
  assert (forall k, k ∈ ["age"; "bmi"; "hbA1c_level"; "blood_glucose_level"] ->
            exists x, Prediction.base_features req g !! k = Some (PFloat (Some x)))
    as Hbase.
  { intros k Hk. unfold Prediction.base_features. cbv zeta.
    repeat (apply elem_of_cons in Hk as [->|Hk]; [by eexists|]).
    by apply elem_of_nil in Hk. }
  unfold Prediction.request_features.
  destruct (String.eqb (lower g) "female"); [|by apply Hbase].
  cbv zeta.
  repeat (apply elem_of_cons in Hn as [->|Hn];
          [rewrite !lookup_insert_ne by done; apply Hbase;
           apply (bool_decide_unpack _); reflexivity|]).
  by apply elem_of_nil in Hn.
Qed.

(** The calculators return on the feature dictionary of a request. *)
Lemma risk_calculator_returns req g clinical :
  is_Some (Prediction.risk_calculator (Prediction.request_features req g) clinical).
Proof.
  assert (forall n, n ∈ Prediction.numeric_features ->
            exists x, Prediction.request_features req g !! n = Some (PFloat (Some x)))
    as Hn by apply request_features_numeric.
  destruct (Hn "age") as [a Ha]; [apply mem_spec; reflexivity|].
  destruct (Hn "bmi") as [b Hb]; [apply mem_spec; reflexivity|].
  destruct (Hn "hbA1c_level") as [h Hh]; [apply mem_spec; reflexivity|].
  destruct (Hn "blood_glucose_level") as [gl Hg]; [apply mem_spec; reflexivity|].
  unfold Prediction.risk_calculator. destruct clinical.
  - destruct (clinical_risk_returns _ a b h gl Ha Hb Hh Hg) as [r ->]. by eexists.
  - destruct (lifestyle_risk_returns _ a b Ha Hb) as [r ->]. by eexists.
Qed.

(** The model the service selects for a request, as [predict_diabetes_risk]
    reads the slots of the service. *)
Lemma predict_with_model fs req m schema :
  Qeq_bool (Prediction.height req) 0 = false ->
  (lower (Prediction.gender req) = "female" /\
   Prediction.diabetes_women_model_pkl fs = Some m /\
   Prediction.women_model_features_json fs = Some schema) \/
  (lower (Prediction.gender req) = "male" /\
   Prediction.diabetes_men_model_pkl fs = Some m /\
   Prediction.men_model_features_json fs = Some schema) ->
  let g := lower (Prediction.gender req) in
  let features := Prediction.request_features req g in
  let clinical := Prediction.request_is_clinical req in
  exists model_name r,
    Prediction.risk_calculator features clinical = Some r /\
    Prediction.predict_diabetes_risk (Prediction.init fs) req
    = match Prediction.model_probability (Prediction.init fs) m schema features g with
      | Some p =>
          Prediction.report features clinical
            (p, model_name +:+ " Model (Clinical + Lifestyle)", "high")
      | None => Prediction.report features clinical r
      end.
Proof.
  intros Hh Hsel. cbv zeta.
  destruct (risk_calculator_returns req (lower (Prediction.gender req))
              (Prediction.request_is_clinical req)) as [r Hr].
  unfold Prediction.predict_diabetes_risk, Prediction.preprocess_input.
  rewrite Hh, Hr.
  change (Prediction.women_model (Prediction.init fs))
    with (Prediction.diabetes_women_model_pkl fs).
  change (Prediction.men_model (Prediction.init fs))
    with (Prediction.diabetes_men_model_pkl fs).
  change (Prediction.women_features (Prediction.init fs))
    with (match Prediction.diabetes_women_model_pkl fs with
          | Some _ => Prediction.women_model_features_json fs
          | None => None
          end).
  change (Prediction.men_features (Prediction.init fs))
    with (match Prediction.diabetes_men_model_pkl fs with
          | Some _ => Prediction.men_model_features_json fs
          | None => None
          end).
  destruct Hsel as [(Hg & Hm & Hs)|(Hg & Hm & Hs)]; rewrite Hg, Hm, Hs.
  - exists "Women-Specific XGBoost", r. split; [done|].
    change (String.eqb "female" "female") with true.
    rewrite bool_decide_eq_true_2 by eauto. reflexivity.
  - exists "Men-Specific XGBoost", r. split; [done|].
    change (String.eqb "male" "female") with false. rewrite andb_false_l.
    change (String.eqb "male" "male") with true.
    rewrite bool_decide_eq_true_2 by eauto. reflexivity.
Qed.

(** C2, as amended.  The service never reads the persisted scaler: whatever
    is on disk it installs the hard-coded scaler over age, bmi, hbA1c_level
    and blood_glucose_level, and the numeric features it scales are that
    same fixed list.  No comparison is made, for the women's model and for
    the men's model alike.  When the model is called, it is called on the
    columns of its schema in their order, a column the request did not
    produce holding its default, and the answer carries no error.  When the
    schema of the selected model lacks one of the four numeric features, the
    model branch fails and the request is answered by the risk calculator,
    without an error. *)
Theorem prediction_uses_hardcoded_scaler fs req m schema :
  Qeq_bool (Prediction.height req) 0 = false ->
  (lower (Prediction.gender req) = "female" /\
   Prediction.diabetes_women_model_pkl fs = Some m /\
   Prediction.women_model_features_json fs = Some schema) \/
  (lower (Prediction.gender req) = "male" /\
   Prediction.diabetes_men_model_pkl fs = Some m /\
   Prediction.men_model_features_json fs = Some schema) ->
  let g := lower (Prediction.gender req) in
  let features := Prediction.request_features req g in
  let p := Prediction.predict_diabetes_risk (Prediction.init fs) req in
  Prediction.feature_scaler (Prediction.init fs) = Some Prediction.HardcodedScaler /\
  Prediction.numeric_features
    = Prediction.feature_names_in_ Prediction.HardcodedScaler /\
  (forall pr,
     Prediction.model_probability (Prediction.init fs) m schema features g = Some pr ->
     (exists row,
        m row = Some pr /\ fst <$> row = schema /\
        forall col v, (col, v) ∈ row -> features !! col = None ->
          v = Prediction.default_feature g col) /\
     Prediction.error p = None /\ Prediction.confidence p = "high") /\
  ((exists n, n ∈ Prediction.numeric_features /\ n ∉ schema) ->
   Prediction.model_probability (Prediction.init fs) m schema features g = None /\
   Prediction.error p = None /\ Prediction.confidence p = "moderate" /\
   Prediction.model_used p
     = (if Prediction.has_clinical_data p then "Risk Calculator (Clinical + Lifestyle)"
        else "Risk Calculator (Lifestyle Only)")).
Proof.
  intros Hh Hsel. cbv zeta.
  destruct (predict_with_model fs req m schema Hh Hsel) as (model_name & r & Hr & Hp).
  cbv zeta in Hr, Hp.
  set (g := lower (Prediction.gender req)) in *.
  set (features := Prediction.request_features req g) in *.
  set (clinical := Prediction.request_is_clinical req) in *.
  pose proof (request_features_bmi req g) as Hb. fold features in Hb.
  split; [done|]. split; [done|]. split.
  - intros pr Hpr. rewrite Hpr in Hp. split.
    + unfold Prediction.model_probability in Hpr.
      change (Prediction.feature_scaler (Prediction.init fs))
        with (Some Prediction.HardcodedScaler) in Hpr.
      apply bind_Some in Hpr as (row' & Hrow & Hm).
      apply bind_Some in Hrow as (vals & Hvals & Hrow).
      apply bind_Some in Hrow as (xs & Hxs & Hrow). apply (inj Some) in Hrow.
      subst row'. eexists. split; [exact Hm|]. split.
      * rewrite assign_row_names. apply feature_row_names.
      * intros col v Hin Hnone.
        assert (col ∉ Prediction.numeric_features) as Hcol.
        { intros Hc. destruct (request_features_numeric req g col Hc) as [w Hw].
          fold features in Hw. congruence. }
        apply assign_row_other in Hin; [|done].
        apply feature_row_elem in Hin. by rewrite Hnone in Hin.
    + rewrite Hp. unfold Prediction.report. rewrite Hb. done.
  - intros (n & Hn & Hns).
    pose proof (model_probability_off_schema fs m schema features g n Hn Hns) as Hnone.
    rewrite Hnone in Hp. split; [done|]. rewrite Hp.
    pose proof (report_calculator features clinical _ r Hb Hr) as (H1 & H2 & H3 & H4).
    cbv zeta in H1, H2, H3, H4. rewrite H1, H2, H3, H4. done.
Qed.

(** The amended statement at work on the men's model: its schema lacks
    [hbA1c_level], and the request is answered by the calculator. *)
Lemma prediction_uses_hardcoded_scaler_witness :
  Qeq_bool (Prediction.height validated_sample) 0 = false /\
  lower (Prediction.gender validated_sample) = "male" /\
  "hbA1c_level" ∈ Prediction.numeric_features /\
  ("hbA1c_level" ∉ Prediction.short_schema) /\
  Prediction.feature_scaler (Prediction.init (Prediction.men_disk Prediction.short_schema))
    = Some Prediction.HardcodedScaler /\
  Prediction.error
    (Prediction.predict_diabetes_risk
       (Prediction.init (Prediction.men_disk Prediction.short_schema))
       validated_sample) = None /\
  Prediction.confidence
    (Prediction.predict_diabetes_risk
       (Prediction.init (Prediction.men_disk Prediction.short_schema))
       validated_sample) = "moderate".
Proof.
  assert ("hbA1c_level" ∈ Prediction.numeric_features) as Hn
    by (apply mem_spec; reflexivity).
  assert ("hbA1c_level" ∉ Prediction.short_schema) as Hs
    by (apply mem_false; reflexivity).
  destruct (prediction_uses_hardcoded_scaler
              (Prediction.men_disk Prediction.short_schema) validated_sample
              (Prediction.constant_model 0.25) Prediction.short_schema
              eq_refl (or_intror (conj eq_refl (conj eq_refl eq_refl))))
    as (H1 & _ & _ & H3).
  destruct H3 as (_ & H4 & H5 & _); [by exists "hbA1c_level"|].
  repeat split; done.
Defined.

(** With the full schema the men's model is called: on its six columns in
    order, without an error. *)
Lemma prediction_calls_model_on_schema :
  let p := Prediction.predict_diabetes_risk
             (Prediction.init (Prediction.men_disk Prediction.full_schema))
             validated_sample in
  Prediction.error p = None /\ Prediction.confidence p = "high" /\
  Prediction.model_used p = "Men-Specific XGBoost Model (Clinical + Lifestyle)" /\
  Prediction.feature_row
    (Prediction.request_features validated_sample "male") "male"
    ("gestational_history_1.0" :: Prediction.full_schema)
  = [("gestational_history_1.0", PBool false);
     ("age", PFloat (Some 52%Q));
     ("bmi", PFloat (Some (Prediction.request_bmi validated_sample)));
     ("hbA1c_level", PFloat (Some 7.1%Q));
     ("blood_glucose_level", PFloat (Some 140%Q));
     ("gender_Female", PBool false);
     ("gender_Male", PBool true)].
Proof. repeat split; vm_compute; reflexivity. Qed.

(** C2 fails as stated: the pipeline's scaler is on disk, over other
    features in another order than the four the service scales; the service
    does not load it, raises nothing, and answers from the model with high
    confidence. *)
Lemma prediction_ignores_persisted_scaler :
  Prediction.feature_scaler_pkl (Prediction.disk Prediction.full_schema)
    = Some Prediction.pipeline_scaler /\
  Prediction.feature_names_in_ Prediction.pipeline_scaler
    = ["bmi"; "age"; "health_risk_score"] /\
  Prediction.numeric_features = ["age"; "bmi"; "hbA1c_level"; "blood_glucose_level"] /\
  Prediction.feature_scaler (Prediction.init (Prediction.disk Prediction.full_schema))
    = Some Prediction.HardcodedScaler /\
  Prediction.predict_diabetes_risk
    (Prediction.init (Prediction.disk Prediction.full_schema)) Prediction.sample_request
    = {| Prediction.error := None;
         Prediction.risk_percentage := 25;
         Prediction.risk_level := "low";
         Prediction.model_used := "Women-Specific XGBoost Model (Clinical + Lifestyle)";
         Prediction.bmi := binary64 27.68;
         Prediction.confidence := "high";
         Prediction.has_clinical_data := true |}.
Proof. repeat split; vm_compute; reflexivity. Qed.

(** ** Inequalities on rationals, filters *)

Lemma Qleb_le x y : Qleb x y = true <-> (x <= y)%Q.
Proof. unfold Qleb. rewrite negb_true_iff. apply Qltb_ge. Qed.

Lemma Qleb_gt x y : Qleb x y = false <-> (y < x)%Q.
Proof. unfold Qleb. rewrite negb_false_iff. apply Qltb_lt. Qed.

(** ** Target detection, outlier treatment, imputation, classification *)

(** X1.  [guess_target] returns the first of the common target names that is a
    column of the table: a name is returned exactly when it is in the list at
    some position, is a column, and no earlier name of the list is a column;
    [None] is returned exactly when no common name is a column.  A target
    resolved without [--target] is therefore always a column. *)
Theorem guess_target_first_common_column {num : Type} (df : frame num) :
  (forall c, guess_target df = Some c <->
     exists i, common_targets !! i = Some c /\ c ∈ columns df /\
       forall j x, j < i -> common_targets !! j = Some x -> x ∉ columns df) /\
  (guess_target df = None <-> forall c, c ∈ common_targets -> c ∉ columns df) /\
  (forall c, resolve_target None df = Some c -> c ∈ columns df).
Proof.
  unfold resolve_target, guess_target. cbn [truthy].
  generalize common_targets. intros l.
  assert (forall c, List.find (fun c => mem c (columns df)) l = Some c <->
     exists i, l !! i = Some c /\ c ∈ columns df /\
       forall j x, j < i -> l !! j = Some x -> x ∉ columns df) as A.
  { induction l as [|y l IH]; intros c; cbn [List.find].
    - split; [done|]. by intros (i & Hi & _).
    - destruct (mem y (columns df)) eqn:E.
      + split.
        * intros [= <-]. exists 0. repeat split; [by apply mem_spec|]. lia.
        * intros ([|i] & Hi & Hc & Hn); [by injection Hi as ->|].
          exfalso. apply (Hn 0 y); [lia|done|by apply mem_spec].
      + rewrite IH. split.
        * intros (i & Hi & Hc & Hn). exists (S i). repeat split; [done..|].
          intros [|j] x Hj Hx; [injection Hx as <-; by apply mem_false|].
          apply (Hn j); [lia|done].
        * intros ([|i] & Hi & Hc & Hn).
          { injection Hi as ->. apply mem_false in E. done. }
          exists i. repeat split; [done..|].
          intros j x Hj Hx. apply (Hn (S j)); [lia|done]. }
  assert (List.find (fun c => mem c (columns df)) l = None <->
          forall c, c ∈ l -> c ∉ columns df) as B.
  { clear A. induction l as [|y l IH]; cbn [List.find].
    - split; [|done]. intros _ c Hc. by apply elem_of_nil in Hc.
    - destruct (mem y (columns df)) eqn:E.
      + split; [done|]. intros Hn. exfalso.
        apply (Hn y); [by left|by apply mem_spec].
      + rewrite IH. apply mem_false in E. split.
        * intros Hn c Hc. apply elem_of_cons in Hc as [->|Hc]; auto.
        * intros Hn c Hc. apply Hn. by right. }
  split; [exact A|]. split; [exact B|].
  intros c Hc. apply A in Hc as (i & _ & Hc & _). done.
Qed.

Lemma handle_outliers_col_inv df0 method m df info col df' info' :
  handle_outliers_col df0 method m (df, info) col = Some (df', info') ->
  exists c, get_col df col = Some c /\
    df' = (if (0 <? count_true (detect_outliers_iqr (cells c) m))%nat then
             if String.eqb method "cap"
             then set_col df col DNumber (cap_outliers (cells c) m)
             else if String.eqb method "remove"
                  then drop_rows (detect_outliers_iqr (cells c) m) df
                  else df
           else df).
Proof.
  unfold handle_outliers_col. intros H.
  destruct (get_col df col) as [c|] eqn:Hc; [|done].
  cbn in H. injection H as <- _. by exists c.
Qed.

(** X2.  With a method other than [cap] and [remove], [handle_outliers]
    returns the table it was given, while each record still names that method
    as applied when its [outlier_count] is positive, and [none] otherwise. *)
Theorem handle_outliers_other_method df cols method m df' info :
  handle_outliers df cols method m = Some (df', info) ->
  method <> "cap" -> method <> "remove" ->
  df' = df /\
  forall col r, info !! col = Some r ->
    exists count,
      r !! "outlier_count" = Some (PInt (Z.of_nat count)) /\
      r !! "method_applied" = Some (PStr (if (0 <? count)%nat then method else "none")).
Proof.
  intros H Hc Hr. split.
  - unfold handle_outliers in H.
    apply (foldM_preserve _ (fun st => fst st = df) _ _ _) in H; [done| |done].
    intros [d i] y [d' i'] _ Hd Hstep. cbn in Hd. subst d.
    apply handle_outliers_col_inv in Hstep as (c & _ & ->).
    apply String.eqb_neq in Hc, Hr. rewrite Hc, Hr. cbn [fst].
    by destruct (0 <? count_true (detect_outliers_iqr (cells c) m))%nat.
  - intros col r Hcol.
    destruct (handle_outliers_loop df method m cols _ _ H) as [_ R].
    destruct (R col r Hcol) as [R'|(count & ->)]; [done|].
    exists count. split; reflexivity.
Qed.

Lemma cap_cell_isnull lo hi (c : cell Q) : isnull (cap_high hi (cap_low lo c)) = isnull c.
Proof.
  destruct c as [|x|s|b]; try done; unfold cap_low, cap_high; simpl.
  - destruct (Qltb x lo); simpl; by destruct (Qltb hi _).
  - destruct (Qltb _ lo); simpl; by destruct (Qltb hi _).
Qed.

Lemma cap_outliers_isnull cs m : isnull <$> cap_outliers cs m = isnull <$> cs.
Proof.
  unfold cap_outliers.
  destruct (0 <? _)%nat; [|done].
  destruct (iqr_bounds cs m) as [[lo hi]|]; [|done].
  rewrite <- !list_fmap_compose. apply list_fmap_ext.
  intros i c _. apply cap_cell_isnull.
Qed.

(** X3.  In [cap] mode [handle_outliers] keeps the column names, leaves every
    column that is not listed as it was, and in every column keeps the rows
    and the positions of the missing values: capping neither drops a row nor
    fills or creates a gap. *)
Theorem capping_keeps_rows_and_gaps df cols m df' info :
  handle_outliers df cols "cap" m = Some (df', info) ->
  columns df' = columns df /\
  (forall n, n ∉ cols -> get_col df' n = get_col df n) /\
  (forall n c, get_col df n = Some c ->
     exists c', get_col df' n = Some c' /\
       isnull <$> cells c' = isnull <$> cells c /\
       missing_count (cells c') = missing_count (cells c)).
Proof.
  intros H. unfold handle_outliers in H.
  apply (foldM_preserve _
           (fun st => columns (fst st) = columns df /\
                      (forall n, n ∉ cols -> get_col (fst st) n = get_col df n) /\
                      (forall n c, get_col df n = Some c ->
                         exists c', get_col (fst st) n = Some c' /\
                           isnull <$> cells c' = isnull <$> cells c)) _ _ _) in H.
  - destruct H as (H1 & H2 & H3). split; [done|]. split; [done|].
    intros n c Hc. destruct (H3 n c Hc) as (c' & Hc' & E). exists c'.
    split; [done|]. split; [done|].
    unfold missing_count.
    assert (forall l : list (cell Q),
              length (filter (fun c => isnull c = true) l)
              = length (filter (fun b => b = true) (isnull <$> l))) as F.
    { induction l as [|x l IH]; [done|]. rewrite fmap_cons, !filter_cons.
      destruct (decide (isnull x = true)); simpl; by rewrite IH. }
    by rewrite !F, E.
  - intros [d i] y [d' i'] Hy (I1 & I2 & I3) Hstep. cbn [fst] in *.
    apply handle_outliers_col_inv in Hstep as (c & Hc & ->).
    cbn [String.eqb Ascii.eqb Bool.eqb].
    destruct (0 <? _)%nat; [|done].
    split; [|split].
    + by rewrite (columns_set_col d y c).
    + intros n Hn. rewrite get_set_col_ne; [by apply I2|]. intros ->. done.
    + intros n c0 Hc0. destruct (I3 n c0 Hc0) as (c' & Hc' & E).
      destruct (String.eqb_spec y n) as [->|Hne].
      * rewrite get_set_col_eq. eexists. split; [done|]. cbn [cells].
        rewrite cap_outliers_isnull. congruence.
      * rewrite get_set_col_ne by done. by exists c'.
  - cbn [fst]. split; [done|]. split; [done|]. intros n c Hc. by exists c.
Qed.

Lemma keep_rows_sublist {A} (mask : list bool) (xs : list A) :
  sublist (keep_rows mask xs) xs.
Proof.
  revert xs. induction mask as [|b mask IH]; intros [|x xs]; cbn; try done.
  destruct b; [by apply sublist_cons|by apply sublist_skip].
Qed.

Lemma keep_rows_length {A B} (mask : list bool) (xs : list A) (ys : list B) :
  length xs = length ys -> length (keep_rows mask xs) = length (keep_rows mask ys).
Proof.
  revert xs ys. induction mask as [|b mask IH]; intros [|x xs] [|y ys]; cbn; try done.
  intros [= E]. destruct b; cbn; auto.
Qed.

(** X4.  In [remove] mode [handle_outliers] only deletes rows: the columns
    keep their names and storage types, each returned column is a sublist of
    the input column, and a table whose columns have one length comes back
    with columns of one, no larger, length. *)
Theorem removal_only_drops_rows df cols m df' info :
  handle_outliers df cols "remove" m = Some (df', info) ->
  Forall2 (fun c c' => cname c' = cname c /\ cdtype c' = cdtype c /\
                       sublist (cells c') (cells c)) df df' /\
  forall n, (forall c, c ∈ df -> length (cells c) = n) ->
    exists n', n' <= n /\ forall c', c' ∈ df' -> length (cells c') = n'.
Proof.
  intros H. unfold handle_outliers in H.
  apply (foldM_preserve _
           (fun st =>
              Forall2 (fun c c' => cname c' = cname c /\ cdtype c' = cdtype c /\
                                   sublist (cells c') (cells c)) df (fst st) /\
              forall n, (forall c, c ∈ df -> length (cells c) = n) ->
                exists n', n' <= n /\ forall c', c' ∈ fst st -> length (cells c') = n')
           _ _ _) in H; [done| |].
  - intros [d i] y [d' i'] _ [I1 I2] Hstep. cbn [fst] in *.
    apply handle_outliers_col_inv in Hstep as (c & Hc & ->).
    cbn [String.eqb Ascii.eqb Bool.eqb].
    destruct (0 <? _)%nat; [|done].
    set (mask := detect_outliers_iqr (cells c) m).
    split.
    + eapply Forall2_trans; [|exact I1|].
      2:{ unfold drop_rows. apply Forall2_fmap_r.
          apply Forall_Forall2_diag, Forall_forall. intros x _.
          instantiate (1 := fun c c' => cname c' = cname c /\ cdtype c' = cdtype c /\
                                      sublist (cells c') (cells c)).
          cbn. repeat split. apply keep_rows_sublist. }
      cbn. intros x y0 z (A1 & A2 & A3) (B1 & B2 & B3).
      repeat split; [congruence..|]. by etrans.
    + intros n Hn. destruct (I2 n Hn) as (n' & Hle & Hlen).
      exists (length (keep_rows mask (replicate n' tt))). split.
      * etrans; [apply sublist_length, keep_rows_sublist|].
        by rewrite length_replicate.
      * intros c' Hc'. unfold drop_rows in Hc'.
        apply list_elem_of_fmap in Hc' as (c0 & -> & Hc0). cbn [cells].
        apply keep_rows_length. rewrite length_replicate. by apply Hlen.
  - cbn [fst]. split.
    + apply Forall_Forall2_diag, Forall_forall. intros x _. by repeat split.
    + intros n Hn. exists n. split; [lia|done].
Qed.

Lemma insert_sorted_elem x y l : y ∈ insert_sorted x l <-> y = x \/ y ∈ l.
Proof.
  induction l as [|z l IH]; simpl.
  - rewrite list_elem_of_singleton. split; [by left|]. intros [?|H]; [done|].
    by apply elem_of_nil in H.
  - destruct (Qleb x z).
    + by rewrite elem_of_cons.
    + rewrite !elem_of_cons, IH. tauto.
Qed.

Lemma insert_sorted_sorted x l :
  StronglySorted Qle l -> StronglySorted Qle (insert_sorted x l).
Proof.
  induction 1 as [|z l Hs IH Hz]; simpl.
  - repeat constructor.
  - destruct (Qleb x z) eqn:E.
    + apply Qleb_le in E. constructor; [by constructor|].
      constructor; [done|].
      rewrite Forall_forall in Hz |- *. intros y Hy.
      eapply Qle_trans; [exact E|]. by apply Hz.
    + apply Qleb_gt in E. constructor; [done|].
      rewrite Forall_forall in Hz |- *. intros y Hy.
      apply insert_sorted_elem in Hy as [->|Hy]; [by apply Qlt_le_weak|by apply Hz].
Qed.

Lemma sort_Q_sorted l : StronglySorted Qle (sort_Q l).
Proof.
  unfold sort_Q. induction l as [|x l IH]; simpl; [constructor|].
  by apply insert_sorted_sorted.
Qed.

Lemma sorted_lookup_le (l : list Q) i j a b :
  StronglySorted Qle l -> i <= j -> l !! i = Some a -> l !! j = Some b -> (a <= b)%Q.
Proof.
  intros Hs. revert i j. induction Hs as [|z l Hs IH Hz]; intros i j Hij Hi Hj; [done|].
  destruct i as [|i], j as [|j]; simpl in *.
  - injection Hi as <-. injection Hj as <-. apply Qle_refl.
  - injection Hi as <-. rewrite Forall_forall in Hz. apply Hz.
    by eapply list_elem_of_lookup_2.
  - lia.
  - apply (IH i j); [lia|done..].
Qed.

(** What [quantile] computes, read on the sorted values. *)
Lemma quantile_inv cs q v :
  quantile cs q = Some v ->
  let s := sort_Q (numbers cs) in
  let pos := (q * inject_Z (Z.of_nat (length s - 1)))%Q in
  exists a,
    s !! Z.to_nat (Qfloor pos) = Some a /\
    match s !! S (Z.to_nat (Qfloor pos)) with
    | Some b => (v == a + (b - a) * (pos - inject_Z (Qfloor pos)))%Q
    | None => (v == a)%Q
    end.
Proof.
  unfold quantile. cbv zeta.
  destruct (length (sort_Q (numbers cs)) =? 0)%nat; [done|].
  destruct (sort_Q (numbers cs) !! Z.to_nat _) as [a|] eqn:Ea; [|done].
  intros H. exists a. split; [done|].
  destruct (sort_Q (numbers cs) !! S _) as [b|]; injection H as <-; apply Qred_correct.
Qed.

Lemma quantile_mono cs p q vp vq :
  (0 <= p)%Q -> (p <= q)%Q ->
  quantile cs p = Some vp -> quantile cs q = Some vq -> (vp <= vq)%Q.
Proof.
  intros Hp Hpq Qp Qq.
  apply quantile_inv in Qp as (ap & Ap & Vp).
  apply quantile_inv in Qq as (aq & Aq & Vq).
  cbv zeta in *.
  set (s := sort_Q (numbers cs)) in *.
  pose proof (sort_Q_sorted (numbers cs)) as Hs. fold s in Hs.
  set (N := inject_Z (Z.of_nat (length s - 1))) in *.
  assert (0 <= N)%Q as HN.
  { subst N. change 0%Q with (inject_Z 0). rewrite <- Zle_Qle. lia. }
  assert (p * N <= q * N)%Q as Hpos by (by apply Qmult_le_compat_r).
  assert (0 <= p * N)%Q as Hp0 by (by apply Qmult_le_0_compat).
  set (zp := Qfloor (p * N)) in *. set (zq := Qfloor (q * N)) in *.
  assert (0 <= zp)%Z as Hzp.
  { subst zp. rewrite <- (Qfloor_Z 0). by apply Qfloor_resp_le. }
  assert (zp <= zq)%Z as Hz by (by apply Qfloor_resp_le).
  pose proof (Qfloor_le (p * N)) as Fp1. pose proof (Qlt_floor (p * N)) as Fp2.
  pose proof (Qfloor_le (q * N)) as Fq1. pose proof (Qlt_floor (q * N)) as Fq2.
  fold zp in Fp1, Fp2. fold zq in Fq1, Fq2.
  rewrite inject_Z_plus in Fp2, Fq2.
  change (inject_Z 1) with 1%Q in Fp2, Fq2.
  (* the value at [p] is between its two neighbours *)
  assert (ap <= vp)%Q as Lp.
  { destruct (s !! S (Z.to_nat zp)) as [b|] eqn:Eb.
    - assert (ap <= b)%Q by (eapply (sorted_lookup_le s _ (S _)); [done| |done..]; lia).
      rewrite Vp. Lqa.nra.
    - rewrite Vp. apply Qle_refl. }
  assert (forall b, s !! S (Z.to_nat zp) = Some b -> vp <= b)%Q as Up.
  { intros b Eb. rewrite Eb in Vp.
    assert (ap <= b)%Q by (eapply (sorted_lookup_le s _ (S _)); [done| |done..]; lia).
    rewrite Vp. Lqa.nra. }
  assert (aq <= vq)%Q as Lq.
  { destruct (s !! S (Z.to_nat zq)) as [b|] eqn:Eb.
    - assert (aq <= b)%Q by (eapply (sorted_lookup_le s _ (S _)); [done| |done..]; lia).
      rewrite Vq. Lqa.nra.
    - rewrite Vq. apply Qle_refl. }
  destruct (Z.eq_dec zp zq) as [E|NE].
  - (* the same pair of neighbours *)
    rewrite <- E in *. rewrite Ap in Aq. injection Aq as <-.
    destruct (s !! S (Z.to_nat zp)) as [b|] eqn:Eb.
    + assert (ap <= b)%Q by (eapply (sorted_lookup_le s _ (S _)); [done| |done..]; lia).
      rewrite Vp, Vq. Lqa.nra.
    + rewrite Vp, Vq. apply Qle_refl.
  - assert (S (Z.to_nat zp) <= Z.to_nat zq) as Hlt by lia.
    destruct (s !! S (Z.to_nat zp)) as [b|] eqn:Eb.
    + eapply Qle_trans; [by apply Up|].
      eapply Qle_trans; [|exact Lq].
      by eapply (sorted_lookup_le s (S (Z.to_nat zp)) (Z.to_nat zq)).
    + exfalso. apply lookup_ge_None in Eb. apply lookup_lt_Some in Aq. lia.
Qed.

Lemma iqr_bounds_order cs m lo hi :
  (0 <= m)%Q -> iqr_bounds cs m = Some (lo, hi) ->
  exists q1 q3, quantile cs 0.25 = Some q1 /\ quantile cs 0.75 = Some q3 /\
    (lo <= q1)%Q /\ (q1 <= q3)%Q /\ (q3 <= hi)%Q.
Proof.
  intros Hm. unfold iqr_bounds.
  destruct (quantile cs 0.25) as [q1|] eqn:E1; [|done].
  destruct (quantile cs 0.75) as [q3|] eqn:E3; [|done].
  intros [= <- <-]. exists q1, q3.
  assert (q1 <= q3)%Q as H13.
  { apply (quantile_mono cs 0.25 0.75 q1 q3); [by vm_compute|by vm_compute|done..]. }
  rewrite !Qred_correct. repeat split; try done; Lqa.nra.
Qed.

Lemma count_true_0 (mask : list bool) : count_true mask = 0 <-> Forall (fun b => b = false) mask.
Proof.
  unfold count_true. induction mask as [|b mask IH]; simpl.
  - split; [constructor|done].
  - destruct b; simpl.
    + split; [done|]. by inversion 1.
    + rewrite IH. split; [by constructor|by inversion 1].
Qed.

Lemma cap_cell_within lo hi c x :
  (lo <= hi)%Q -> cell_num (cap_high hi (cap_low lo c)) = Some x ->
  (lo <= x)%Q /\ (x <= hi)%Q.
Proof.
  intros Hle. unfold cap_low, cap_high.
  destruct (cell_num c) as [y|] eqn:Ey.
  - destruct (Qltb y lo) eqn:E1.
    + cbn [cell_num]. destruct (Qltb hi lo) eqn:E2; cbn [cell_num].
      * apply Qltb_lt in E2. exfalso. Lqa.lra.
      * intros [= <-]. split; [apply Qle_refl|done].
    + rewrite Ey. destruct (Qltb hi y) eqn:E2.
      * cbn [cell_num]. intros [= <-]. split; [done|apply Qle_refl].
      * rewrite Ey. intros [= <-]. apply Qltb_ge in E1, E2. done.
  - rewrite Ey. by rewrite Ey.
Qed.

Lemma cap_cell_inside lo hi c x :
  cell_num c = Some x -> (lo <= x)%Q -> (x <= hi)%Q -> cap_high hi (cap_low lo c) = c.
Proof.
  intros Ex H1 H2. unfold cap_low, cap_high. rewrite Ex.
  assert (Qltb x lo = false) as -> by (by apply Qltb_ge).
  rewrite Ex.
  by assert (Qltb hi x = false) as -> by (by apply Qltb_ge).
Qed.

(** X5.  For a multiplier that is not negative the lower bound is at most the
    upper bound, every number of the capped column lies within the bounds
    computed before capping, a value that was within them is unchanged, and
    no capped value is an outlier for those bounds. *)
Theorem capped_values_within_bounds cs m lo hi :
  (0 <= m)%Q -> iqr_bounds cs m = Some (lo, hi) ->
  (lo <= hi)%Q /\
  (forall c x, c ∈ cap_outliers cs m -> cell_num c = Some x ->
     (lo <= x)%Q /\ (x <= hi)%Q) /\
  (forall i c x, cs !! i = Some c -> cell_num c = Some x ->
     (lo <= x)%Q -> (x <= hi)%Q -> cap_outliers cs m !! i = Some c) /\
  count_true (is_outlier (Some (lo, hi)) <$> cap_outliers cs m) = 0.
Proof.
  intros Hm Hb.
  destruct (iqr_bounds_order cs m lo hi Hm Hb) as (q1 & q3 & _ & _ & L1 & L2 & L3).
  assert (lo <= hi)%Q as Hle by Lqa.lra.
  assert (forall c x, c ∈ cap_outliers cs m -> cell_num c = Some x ->
            (lo <= x)%Q /\ (x <= hi)%Q) as Within.
  { intros c x Hc Hx. unfold cap_outliers in Hc.
    destruct (0 <? count_true (detect_outliers_iqr cs m))%nat eqn:E.
    - rewrite Hb in Hc.
      apply list_elem_of_fmap in Hc as (c1 & -> & Hc).
      apply list_elem_of_fmap in Hc as (c0 & -> & Hc).
      by apply (cap_cell_within lo hi c0 x).
    - apply Nat.ltb_ge in E.
      assert (count_true (detect_outliers_iqr cs m) = 0) as E0 by lia.
      apply count_true_0 in E0. unfold detect_outliers_iqr in E0. rewrite Hb in E0.
      rewrite Forall_fmap, Forall_forall in E0.
      specialize (E0 c Hc). cbn in E0. unfold is_outlier in E0. rewrite Hx in E0.
      apply orb_false_elim in E0 as [A B]. apply Qltb_ge in A, B. done. }
  split; [done|]. split; [done|]. split.
  - intros i c x Hi Hx H1 H2. unfold cap_outliers.
    destruct (0 <? _)%nat; [|done]. rewrite Hb.
    rewrite !list_lookup_fmap, Hi. cbn. f_equal. by apply (cap_cell_inside lo hi c x).
  - apply count_true_0. rewrite Forall_fmap, Forall_forall. intros c Hc. cbn.
    unfold is_outlier. destruct (cell_num c) as [x|] eqn:Ex; [|done].
    destruct (Within c x Hc Ex) as [A B].
    apply orb_false_intro; by apply Qltb_ge.
Qed.

Lemma capped_values_within_bounds_witness :
  iqr_bounds spiked_column 1.5 = Some ((-1)%Q, 7%Q) /\
  cap_outliers spiked_column 1.5 = [Num 1%Q; Num 2%Q; Num 3%Q; Num 4%Q; Num 7%Q] /\
  count_true (is_outlier (Some ((-1)%Q, 7%Q)) <$> cap_outliers spiked_column 1.5) = 0.
Proof.
  split; [reflexivity|]. split; [reflexivity|].
  refine (proj2 (proj2 (proj2
    (capped_values_within_bounds spiked_column 1.5 (-1) 7 _ _)))).
  - by vm_compute.
  - reflexivity.
Defined.

Ltac method_listed := unfold imputation_methods; set_solver.

Lemma impute_numeric_info t df0 df info y df' info' :
  impute_numeric t df0 (df, info) y = Some (df', info') ->
  exists c, get_col df y = Some c /\
    ((missing_count (cells c) = 0 /\ df' = df /\ info' = info) \/
     (0 < missing_count (cells c) /\
      exists method, method ∈ imputation_methods /\
        info' = <[y := imputation_record (missing_count (cells c)) method]> info)).
Proof.
  unfold impute_numeric. destruct (get_col df y) as [c|] eqn:Hc; simpl; [|done].
  intros H. exists c. split; [done|].
  destruct (Nat.ltb_spec 0 (missing_count (cells c))) as [Hm|Hm].
  - right. split; [done|].
    destruct (mem y medical_features) eqn:Em; simpl in *.
    + destruct (truthy t) eqn:Et; simpl in *.
      * destruct (mem (default "" t) (columns df0)) eqn:Eg; simpl in *.
        -- destruct (get_col df (default "" t)) as [tc|] eqn:Ht; simpl in *; [|done].
           injection H as _ <-. eexists. split; [|done]. method_listed.
        -- injection H as _ <-. eexists. split; [|done]. method_listed.
      * injection H as _ <-. eexists. split; [|done]. method_listed.
    + injection H as _ <-. eexists. split; [|done]. method_listed.
  - left. injection H as <- <-. split; [lia|done].
Qed.

Lemma impute_categorical_info df info y df' info' :
  impute_categorical (df, info) y = Some (df', info') ->
  exists c, get_col df y = Some c /\
    ((missing_count (cells c) = 0 /\ df' = df /\ info' = info) \/
     (0 < missing_count (cells c) /\
      exists method, method ∈ imputation_methods /\
        info' = <[y := imputation_record (missing_count (cells c)) method]> info)).
Proof.
  unfold impute_categorical, has_gender, gender_name.
  destruct (get_col df y) as [c|] eqn:Hc; simpl; [|done].
  intros H. exists c. split; [done|].
  destruct (Nat.ltb_spec 0 (missing_count (cells c))) as [Hm|Hm].
  - right. split; [done|]. destruct (mem (lower y) gender_linked_features).
    + destruct (mem "gender" (columns df) || mem "sex" (columns df)).
      * destruct (get_col df (if mem "gender" (columns df) then "gender" else "sex"))
          as [gc|] eqn:Hg; simpl in H; [|done].
        destruct (foldM (impute_gender_value (cells gc)) (cells c) (unique (cells gc)))
          as [new|] eqn:Hf; simpl in H; [|done].
        injection H as _ <-. eexists. split; [|done]. method_listed.
      * injection H as _ <-. eexists. split; [|done]. method_listed.
    + destruct (mode (cells c)) as [m|] eqn:Em; injection H as _ <-.
      * eexists. split; [|done]. method_listed.
      * eexists. split; [|done]. method_listed.
  - left. injection H as <- <-. split; [lia|done].
Qed.

(** X6.  [enhanced_imputation] returns a column as it was, and writes no
    report entry for it, when the column has no missing value or is in
    neither feature list. *)
Theorem imputation_leaves_complete_columns df nc cc t df' info col c :
  enhanced_imputation df nc cc t = Some (df', info) ->
  get_col df col = Some c ->
  missing_count (cells c) = 0 \/ ((col ∉ nc) /\ (col ∉ cc)) ->
  get_col df' col = Some c /\ info !! col = None.
Proof.
  intros H Hc Hor.
  apply enhanced_imputation_inv in H as (st & H1 & H2).
  set (P := fun st : frame Q * gmap string (gmap string pyval) =>
              get_col (fst st) col = Some c /\ snd st !! col = None).
  assert (P st) as Pst.
  { apply (foldM_preserve _ P _ _ _) in H1; [done| |by split].
    intros [d i] y [d' i'] Hy [I1 I2] Hstep. unfold P. cbn [fst snd] in *.
    destruct (decide (y = col)) as [->|Hne].
    - apply impute_numeric_info in Hstep as (c0 & Hc0 & [(_ & -> & ->)|[Hpos _]]);
        [by split|].
      exfalso. rewrite I1 in Hc0. injection Hc0 as <-.
      destruct Hor as [Hz|[Hn _]]; [lia|done].
    - split.
      + by rewrite (numeric_step_other _ _ _ _ _ _ _ col Hstep Hne).
      + apply impute_numeric_info in Hstep as (c0 & _ & [(_ & _ & ->)|(_ & m & _ & ->)]);
          [done|]. by rewrite lookup_insert_ne. }
  apply (foldM_preserve _ P _ _ _) in H2; [done| |done].
  intros [d i] y [d' i'] Hy [I1 I2] Hstep. unfold P. cbn [fst snd] in *.
  destruct (decide (y = col)) as [->|Hne].
  - apply impute_categorical_info in Hstep as (c0 & Hc0 & [(_ & -> & ->)|[Hpos _]]);
      [by split|].
    exfalso. rewrite I1 in Hc0. injection Hc0 as <-.
    destruct Hor as [Hz|[_ Hn]]; [lia|done].
  - split.
    + by rewrite (categorical_step_other _ _ _ _ _ col Hstep Hne).
    + apply impute_categorical_info in Hstep as (c0 & _ & [(_ & _ & ->)|(_ & m & _ & ->)]);
        [done|]. by rewrite lookup_insert_ne.
Qed.

(** X7.  Every entry of the imputation report is for a listed column and holds
    a positive [missing_count] and one of the six method names. *)
Theorem imputation_report_entries df nc cc t df' info col r :
  enhanced_imputation df nc cc t = Some (df', info) ->
  info !! col = Some r ->
  col ∈ nc ++ cc /\
  exists missing method,
    0 < missing /\ method ∈ imputation_methods /\
    r = imputation_record missing method /\
    r !! "missing_count" = Some (PInt (Z.of_nat missing)) /\
    r !! "imputation_method" = Some (PStr method).
Proof.
  intros H Hr.
  apply enhanced_imputation_inv in H as (st & H1 & H2).
  set (P := fun (l : list string) (st : frame Q * gmap string (gmap string pyval)) =>
              forall col r, snd st !! col = Some r ->
                col ∈ l /\
                exists missing method,
                  0 < missing /\ method ∈ imputation_methods /\
                  r = imputation_record missing method).
  assert (P nc st) as Pst.
  { apply (foldM_preserve _ (P nc) _ _ _) in H1; [done| |by intros ? ? ?].
    intros [d i] y [d' i'] Hy I Hstep. intros col0 r0. cbn [snd].
    apply impute_numeric_info in Hstep as (c0 & _ & [(_ & _ & ->)|(Hpos & m & Hm & ->)]);
      [apply I|].
    destruct (decide (y = col0)) as [->|Hne].
    - rewrite lookup_insert_eq. intros [= <-]. split; [done|]. by eexists _, _.
    - rewrite lookup_insert_ne by done. apply I. }
  assert (P (nc ++ cc) (df', info)) as Pfin.
  { apply (foldM_preserve _ (P (nc ++ cc)) _ _ _) in H2; [done| |].
    - intros [d i] y [d' i'] Hy I Hstep. intros col0 r0. cbn [snd].
      apply impute_categorical_info in Hstep
        as (c0 & _ & [(_ & _ & ->)|(Hpos & m & Hm & ->)]); [apply I|].
      destruct (decide (y = col0)) as [->|Hne].
      + rewrite lookup_insert_eq. intros [= <-].
        split; [apply elem_of_app; by right|]. by eexists _, _.
      + rewrite lookup_insert_ne by done. apply I.
    - intros col0 r0 H0. destruct (Pst col0 r0 H0) as [A B].
      split; [apply elem_of_app; by left|done]. }
  destruct (Pfin col r Hr) as (A & missing & method & B & C & ->).
  split; [done|]. exists missing, method. repeat split; done.
Qed.

Lemma filter_names_elem (p : column Q -> bool) (df : frame Q) n :
  n ∈ cname <$> List.filter p df -> exists c, c ∈ df /\ cname c = n /\ p c = true.
Proof.
  intros H. apply list_elem_of_fmap in H as (c & -> & Hc).
  apply filter_elem in Hc as [Hc Hp]. by exists c.
Qed.

Lemma filter_names_NoDup (p : column Q -> bool) (df : frame Q) :
  NoDup (columns df) -> NoDup (cname <$> List.filter p df).
Proof.
  unfold columns. induction df as [|c df IH]; cbn; [constructor|].
  intros [Hc Hd]%NoDup_cons.
  destruct (p c); [|by apply IH].
  cbn. apply NoDup_cons. split; [|by apply IH].
  intros H. apply Hc. apply filter_names_elem in H as (c' & Hc' & <- & _).
  by apply list_elem_of_fmap_2.
Qed.

Lemma list_remove_elem x y l : y ∈ list_remove x l -> y ∈ l.
Proof.
  induction l as [|z l IH]; simpl; [done|].
  destruct (String.eqb z x).
  - intros H. by right.
  - intros [->|H]%elem_of_cons; [by left|]. right. by apply IH.
Qed.

Lemma list_remove_NoDup x l : NoDup l -> NoDup (list_remove x l) /\ x ∉ list_remove x l.
Proof.
  induction l as [|z l IH]; simpl.
  - intros _. split; [constructor|]. apply not_elem_of_nil.
  - intros [Hz Hl]%NoDup_cons. destruct (String.eqb_spec z x) as [->|Hne].
    + done.
    + destruct (IH Hl) as [A B]. split.
      * apply NoDup_cons. split; [|done]. intros H. apply Hz. by eapply list_remove_elem.
      * intros [->|H]%elem_of_cons; [done|]. by apply B.
Qed.

Lemma move_to_categorical x nc cc :
  NoDup (nc ++ cc) -> mem x nc = true ->
  NoDup (list_remove x nc ++ (cc ++ [x])) /\ x ∉ list_remove x nc.
Proof.
  intros (Hn & Hd & Hc)%NoDup_app Hx. apply mem_spec in Hx.
  destruct (list_remove_NoDup x nc Hn) as [A B]. split; [|done].
  apply NoDup_app. split; [done|]. split.
  - intros y Hy Hin. apply elem_of_app in Hin as [Hin|Hin].
    + apply (Hd y); [by eapply list_remove_elem|done].
    + apply list_elem_of_singleton in Hin as ->. done.
  - apply NoDup_app. split; [done|]. split; [|apply NoDup_singleton].
    intros y Hy Hin. apply list_elem_of_singleton in Hin as ->. by apply (Hd x).
Qed.

Lemma override_columns (df : frame Q) n (f : list (cell Q) -> list (cell Q)) :
  columns (match get_col df n with
           | Some c => set_col df n DObject (f (cells c))
           | None => df
           end) = columns df.
Proof.
  destruct (get_col df n) as [c|] eqn:E; [|done]. by apply (columns_set_col df n c).
Qed.

(** X8.  On a table whose column names are distinct, step 2 gives two
    feature lists that are disjoint and free of repetitions, name only
    columns of the table, and never leave [year] or [gestational_history] in
    the numeric list; the overrides keep the column names. *)
Theorem classify_columns_partition str df t :
  NoDup (columns df) ->
  let st := classify_columns str df t in
  NoDup (cl_numeric st ++ cl_categorical st) /\
  (forall n, n ∈ cl_numeric st ++ cl_categorical st -> n ∈ columns df) /\
  ("year" ∉ cl_numeric st) /\ ("gestational_history" ∉ cl_numeric st) /\
  columns (cl_df st) = columns df.
Proof.
  intros Hnd. cbv zeta. unfold classify_columns.
  set (st0 := {| cl_df := df; cl_numeric := initial_numeric df t;
                 cl_categorical := initial_categorical df t |}).
  assert (NoDup (cl_numeric st0 ++ cl_categorical st0) /\
          (forall n, n ∈ cl_numeric st0 ++ cl_categorical st0 -> n ∈ columns df) /\
          columns (cl_df st0) = columns df) as (A0 & B0 & C0).
  { subst st0. cbn [cl_numeric cl_categorical cl_df].
    unfold initial_numeric, initial_categorical. split; [|split; [|done]].
    - apply NoDup_app. split; [by apply filter_names_NoDup|].
      split; [|by apply filter_names_NoDup].
      intros n H1 H2.
      apply filter_names_elem in H1 as (c1 & Hc1 & E1 & P1).
      apply filter_names_elem in H2 as (c2 & Hc2 & E2 & P2).
      pose proof (get_col_NoDup df c1 Hnd Hc1) as G1.
      pose proof (get_col_NoDup df c2 Hnd Hc2) as G2.
      rewrite E1 in G1. rewrite E2, G1 in G2. injection G2 as <-.
      apply andb_prop in P1 as [P1 _]. apply andb_prop in P2 as [P2 _].
      by destruct (cdtype c1).
    - intros n [H|H]%elem_of_app; apply filter_names_elem in H as (c & Hc & <- & _);
        by apply list_elem_of_fmap_2. }
  set (st1 := override_year str st0).
  assert (NoDup (cl_numeric st1 ++ cl_categorical st1) /\
          (forall n, n ∈ cl_numeric st1 ++ cl_categorical st1 -> n ∈ columns df) /\
          ("year" ∉ cl_numeric st1) /\
          columns (cl_df st1) = columns df) as (A1 & B1 & Y1 & C1).
  { subst st1. unfold override_year.
    destruct (mem "year" (cl_numeric st0)) eqn:E.
    - cbn [cl_numeric cl_categorical cl_df].
      destruct (move_to_categorical "year" _ _ A0 E) as [M1 M2].
      split; [done|]. split; [|split; [done|]].
      + intros n Hn. apply B0. apply mem_spec in E.
        rewrite !elem_of_app in Hn. rewrite elem_of_app.
        destruct Hn as [Hn|[Hn|Hn]]; [left; by eapply list_remove_elem|by right|].
        apply list_elem_of_singleton in Hn as ->. by left.
      + rewrite override_columns. done.
    - apply mem_false in E. done. }
  set (st2 := override_gestational str st1).
  subst st2. unfold override_gestational.
  destruct (mem "gestational_history" (cl_numeric st1)) eqn:E.
  - cbn [cl_numeric cl_categorical cl_df].
    destruct (move_to_categorical "gestational_history" _ _ A1 E) as [M1 M2].
    split; [done|]. split; [|split; [|split; [done|]]].
    + intros n Hn. apply B1. apply mem_spec in E.
      rewrite !elem_of_app in Hn. rewrite elem_of_app.
      destruct Hn as [Hn|[Hn|Hn]]; [left; by eapply list_remove_elem|by right|].
      apply list_elem_of_singleton in Hn as ->. by left.
    + intros H. apply Y1. by eapply list_remove_elem.
    + etrans; [|exact C1].
      apply (override_columns (cl_df st1) "gestational_history"
               (fun cs => replace_nan (astype_str str cs))).
  - apply mem_false in E. done.
Qed.

Lemma classify_columns_partition_witness :
  NoDup (columns year_table) /\
  let st := classify_columns str_of_integral year_table (Some "diabetes") in
  NoDup (cl_numeric st ++ cl_categorical st) /\
  ("year" ∉ cl_numeric st) /\ ("gestational_history" ∉ cl_numeric st).
Proof.
  assert (NoDup (columns year_table)) as Hnd.
  { apply (bool_decide_unpack _). reflexivity. }
  split; [exact Hnd|].
  destruct (classify_columns_partition str_of_integral year_table (Some "diabetes") Hnd)
    as (A & _ & B & C & _).
  repeat split; done.
Defined.

Lemma handle_outliers_other_method_witness :
  handle_outliers skewed_table ["glucose"] "clip" 1.5
    = Some (skewed_table, {[ "glucose" := outlier_record 1 4 "clip" ]}) /\
  outlier_record 1 4 "clip" !! "method_applied" = Some (PStr "clip").
Proof.
  assert (handle_outliers skewed_table ["glucose"] "clip" 1.5
          = Some (skewed_table, {[ "glucose" := outlier_record 1 4 "clip" ]})) as E
    by reflexivity.
  split; [exact E|].
  destruct (handle_outliers_other_method skewed_table ["glucose"] "clip" 1.5 _ _ E)
    as [_ R]; [discriminate|discriminate|].
  reflexivity.
Defined.

Lemma capping_keeps_rows_and_gaps_witness :
  handle_outliers sparse_table ["glucose"] "cap" 1.5
    = Some ([ Column "glucose" DNumber
                [Num (75 # 2)%Q; NA; Num 100%Q; Num 100%Q; Num 100%Q];
              Column "waist" DNumber [NA; NA; NA; NA; NA] ],
            {[ "glucose" := outlier_record 1 5 "cap" ]}) /\
  columns [ Column "glucose" DNumber
              [Num (75 # 2)%Q; NA; Num 100%Q; Num 100%Q; Num 100%Q];
            Column "waist" DNumber [NA; NA; NA; NA; NA] ]
    = columns sparse_table.
Proof.
  assert (handle_outliers sparse_table ["glucose"] "cap" 1.5
    = Some ([ Column "glucose" DNumber
                [Num (75 # 2)%Q; NA; Num 100%Q; Num 100%Q; Num 100%Q];
              Column "waist" DNumber [NA; NA; NA; NA; NA] ],
            {[ "glucose" := outlier_record 1 5 "cap" ]})) as E by reflexivity.
  split; [exact E|].
  exact (proj1 (capping_keeps_rows_and_gaps sparse_table ["glucose"] 1.5 _ _ E)).
Defined.

Lemma removal_only_drops_rows_witness :
  handle_outliers skewed_table ["glucose"] "remove" 1.5
    = Some ([Column "glucose" DNumber [Num 100%Q; Num 100%Q; Num 100%Q]],
            {[ "glucose" := outlier_record 1 4 "remove" ]}) /\
  Forall2 (fun c c' => cname c' = cname c /\ cdtype c' = cdtype c /\
                       sublist (cells c') (cells c))
    skewed_table [Column "glucose" DNumber [Num 100%Q; Num 100%Q; Num 100%Q]].
Proof.
  assert (handle_outliers skewed_table ["glucose"] "remove" 1.5
          = Some ([Column "glucose" DNumber [Num 100%Q; Num 100%Q; Num 100%Q]],
                  {[ "glucose" := outlier_record 1 4 "remove" ]})) as E by reflexivity.
  split; [exact E|].
  exact (proj1 (removal_only_drops_rows _ _ _ _ _ E)).
Defined.

Lemma imputation_leaves_complete_columns_witness :
  enhanced_imputation gender_gap_table ["age"]
    ["gestational_history"; "gender"; "smoking_history"] (Some "diabetes")
    = Some (gender_gap_imputed, gender_gap_report) /\
  get_col gender_gap_imputed "diabetes"
    = Some (Column "diabetes" DNumber [Num 0%Q; Num 1%Q; Num 0%Q; Num 1%Q]) /\
  gender_gap_report !! "diabetes" = None.
Proof.
  assert (enhanced_imputation gender_gap_table ["age"]
            ["gestational_history"; "gender"; "smoking_history"] (Some "diabetes")
          = Some (gender_gap_imputed, gender_gap_report)) as E by reflexivity.
  split; [exact E|].
  apply (imputation_leaves_complete_columns _ _ _ _ _ _ "diabetes" _ E); [reflexivity|].
  left. reflexivity.
Defined.

Lemma imputation_report_entries_witness :
  enhanced_imputation gender_gap_table ["age"]
    ["gestational_history"; "gender"; "smoking_history"] (Some "diabetes")
    = Some (gender_gap_imputed, gender_gap_report) /\
  gender_gap_report !! "age" = Some (imputation_record 1 "median") /\
  "age" ∈ ["age"] ++ ["gestational_history"; "gender"; "smoking_history"].
Proof.
  assert (enhanced_imputation gender_gap_table ["age"]
            ["gestational_history"; "gender"; "smoking_history"] (Some "diabetes")
          = Some (gender_gap_imputed, gender_gap_report)) as E by reflexivity.
  assert (gender_gap_report !! "age" = Some (imputation_record 1 "median")) as R
    by reflexivity.
  split; [exact E|]. split; [exact R|].
  exact (proj1 (imputation_report_entries _ _ _ _ _ _ "age" _ E R)).
Defined.

(** ** Duplicated rows *)

Lemma kept_from_bounds s mask i :
  i ∈ kept_from s mask -> s <= i < s + length mask /\ mask !! (i - s) = Some false.
Proof.
  revert s. induction mask as [|b m IH]; intros s; cbn; [by inversion 1|].
  destruct b.
  - intros Hi. destruct (IH (S s) Hi) as [A B]. split; [lia|].
    replace (i - s) with (S (i - S s)) by lia. done.
  - intros [->|Hi]%elem_of_cons.
    + split; [lia|]. by rewrite Nat.sub_diag.
    + destruct (IH (S s) Hi) as [A B]. split; [lia|].
      replace (i - s) with (S (i - S s)) by lia. done.
Qed.

Lemma kept_from_increasing s mask j k a b :
  j < k -> kept_from s mask !! j = Some a -> kept_from s mask !! k = Some b -> a < b.
Proof.
  revert s j k. induction mask as [|x m IH]; intros s j k Hjk; cbn; [done|].
  destruct x; [by apply IH|].
  destruct j as [|j], k as [|k]; cbn; try lia.
  - intros [= <-] Hb. apply list_elem_of_lookup_2, kept_from_bounds in Hb. lia.
  - apply IH. lia.
Qed.

Lemma keep_rows_lookup {A} (mask : list bool) (xs : list A) s k :
  length mask = length xs ->
  keep_rows mask xs !! k = (kept_from s mask !! k) ≫= (fun i => xs !! (i - s)).
Proof.
  revert xs s k. induction mask as [|b m IH]; intros [|x r] s k;
    cbn [keep_rows kept_from length]; try done.
  intros [= Hlen]. destruct b.
  - etrans; [apply (IH r (S s) k Hlen)|].
    destruct (kept_from (S s) m !! k) as [i|] eqn:E; cbn; [|done].
    apply list_elem_of_lookup_2, kept_from_bounds in E as [E _].
    replace (i - s) with (S (i - S s)) by lia. done.
  - destruct k as [|k]; cbn; [by rewrite Nat.sub_diag|].
    etrans; [apply (IH r (S s) k Hlen)|].
    destruct (kept_from (S s) m !! k) as [i|] eqn:E; cbn; [|done].
    apply list_elem_of_lookup_2, kept_from_bounds in E as [E _].
    replace (i - s) with (S (i - S s)) by lia. done.
Qed.

Lemma keep_rows_length_kept {A} (mask : list bool) (xs : list A) s :
  length mask = length xs -> length (keep_rows mask xs) = length (kept_from s mask).
Proof.
  revert xs s. induction mask as [|b m IH]; intros [|x r] s; cbn; try done.
  intros [= Hlen]. destruct b; cbn; [by apply IH|]. f_equal. by apply IH.
Qed.

Lemma keep_rows_none {A} (mask : list bool) (xs : list A) :
  Forall (fun b => b = false) mask -> keep_rows mask xs = xs.
Proof.
  intros H. revert xs. induction H as [|b m -> _ IH]; intros [|x r]; cbn; try done.
  by rewrite IH.
Qed.

Lemma duplicated_length df : length (duplicated df) = nrows df.
Proof. unfold duplicated. by rewrite length_fmap, length_seq. Qed.

Lemma duplicated_lookup df i :
  i < nrows df ->
  duplicated df !! i
  = Some (existsb (fun j => row_same (row_at df j) (row_at df i)) (seq 0 i)).
Proof.
  intros Hi. unfold duplicated. rewrite list_lookup_fmap, lookup_seq_lt by done. done.
Qed.


Lemma row_at_drop_rows mask (df : frame Q) k i :
  rectangular df -> length mask = nrows df ->
  kept_from 0 mask !! k = Some i ->
  row_at (drop_rows mask df) k = row_at df i.
Proof.
  intros Hrect Hlen Hk. unfold row_at, drop_rows.
  rewrite <- list_fmap_compose. apply list_fmap_ext.
  intros j c Hc. cbn.
  rewrite (keep_rows_lookup mask (cells c) 0 k), Hk; cbn; [by rewrite Nat.sub_0_r|].
  rewrite Hlen. symmetry. apply Hrect. by eapply list_elem_of_lookup_2.
Qed.

Lemma nrows_drop_rows mask (df : frame Q) :
  rectangular df -> length mask = nrows df ->
  nrows (drop_rows mask df) = length (kept_from 0 mask).
Proof.
  intros Hrect Hlen. destruct df as [|c df]; cbn in *.
  - by destruct mask.
  - by apply keep_rows_length_kept.
Qed.

Lemma kept_from_length s mask : length (kept_from s mask) <= length mask.
Proof.
  revert s. induction mask as [|b m IH]; intros s; cbn; [done|].
  destruct b; cbn; [specialize (IH (S s)); lia|specialize (IH (S s)); lia].
Qed.

(** X9.  [drop_duplicates] keeps the column names, returns at most as many
    rows, leaves no row that repeats an earlier one, and changes nothing when
    applied again. *)
Theorem drop_duplicates_leaves_no_duplicate (df : frame Q) :
  rectangular df ->
  let df' := drop_duplicates df in
  rectangular df' /\ columns df' = columns df /\ nrows df' <= nrows df /\
  duplicated df' = replicate (nrows df') false /\
  drop_duplicates df' = df'.
Proof.
  intros Hrect. cbv zeta. unfold drop_duplicates.
  set (mask := duplicated df).
  pose proof (duplicated_length df) as Hlen. fold mask in Hlen.
  pose proof (nrows_drop_rows mask df Hrect Hlen) as Hn.
  assert (rectangular (drop_rows mask df)) as Hrect'.
  { intros c' Hc'. rewrite Hn. unfold drop_rows in Hc'.
    apply list_elem_of_fmap in Hc' as (c & -> & Hc). cbn [cells].
    apply keep_rows_length_kept. rewrite Hlen. symmetry. by apply Hrect. }
  assert (duplicated (drop_rows mask df) = replicate (nrows (drop_rows mask df)) false)
    as Hdup.
  { apply list_eq. intros k.
    destruct (decide (k < nrows (drop_rows mask df))) as [Hk|Hk].
    - rewrite duplicated_lookup, lookup_replicate_2 by done. f_equal.
      destruct (existsb _ _) eqn:E; [|done]. exfalso.
      apply existsb_exists in E as (j & Hj & Hsame).
      apply in_seq in Hj as [_ Hj]. cbn in Hj.
      rewrite Hn in Hk.
      destruct (lookup_lt_is_Some_2 (kept_from 0 mask) k Hk) as [ik Hik].
      destruct (lookup_lt_is_Some_2 (kept_from 0 mask) j ltac:(lia)) as [ij Hij].
      rewrite (row_at_drop_rows mask df j ij), (row_at_drop_rows mask df k ik) in Hsame
        by done.
      pose proof (kept_from_increasing 0 mask j k ij ik Hj Hij Hik) as Hlt.
      apply list_elem_of_lookup_2, kept_from_bounds in Hik as [Hb Hfalse].
      rewrite Nat.sub_0_r in Hfalse. unfold mask in Hfalse.
      rewrite duplicated_lookup in Hfalse by (rewrite <- Hlen; lia).
      injection Hfalse as Hfalse.
      assert (existsb (fun j => row_same (row_at df j) (row_at df ik)) (seq 0 ik) = true)
        as Habs; [|congruence].
      apply existsb_exists. exists ij. split; [apply in_seq; lia|done].
    - rewrite !lookup_ge_None_2; [done|rewrite length_replicate; lia|].
      rewrite duplicated_length. lia. }
  split; [done|]. split; [|split; [|split; [done|]]].
  - unfold columns, drop_rows. rewrite <- list_fmap_compose. by apply list_fmap_ext.
  - rewrite Hn, <- Hlen. apply kept_from_length.
  - rewrite Hdup. unfold drop_rows at 1.
    rewrite <- (list_fmap_id (drop_rows mask df)) at 2. apply list_fmap_ext.
    intros i c _. rewrite keep_rows_none; [by destruct c|].
    apply Forall_forall. intros b Hb. by apply elem_of_replicate in Hb as [-> _].
Qed.

Lemma drop_duplicates_leaves_no_duplicate_witness :
  rectangular repeated_rows_table /\
  duplicated repeated_rows_table = [false; false; true; false] /\
  drop_duplicates repeated_rows_table
    = [ Column "age" DNumber [Num 40%Q; Num 50%Q; Num 40%Q];
        Column "bmi" DNumber [NA; Num 22%Q; Num 30%Q] ] /\
  duplicated (drop_duplicates repeated_rows_table)
    = replicate (nrows (drop_duplicates repeated_rows_table)) false.
Proof.
  assert (rectangular repeated_rows_table) as R.
  { intros c Hc. unfold repeated_rows_table in Hc.
    apply elem_of_cons in Hc as [->|Hc]; [reflexivity|].
    apply elem_of_cons in Hc as [->|Hc]; [reflexivity|]. inversion Hc. }
  split; [exact R|]. split; [reflexivity|]. split; [reflexivity|].
  exact (proj1 (proj2 (proj2 (proj2
    (drop_duplicates_leaves_no_duplicate repeated_rows_table R))))).
Defined.

(** ** The outlier analysis of the EDA *)








Lemma eda_outlier_analysis_example :
  eda_outlier_analysis sparse_table ["glucose"; "waist"] = None /\
  eda_outlier_analysis sparse_table ["glucose"]
    = Some [list_to_map [("column", PStr "glucose");
                         ("outlier_count", PInt 1);
                         ("outlier_percentage", PFloat (Some 25%Q));
                         ("lower_bound", PFloat (Some (75 # 2)%Q));
                         ("upper_bound", PFloat (Some (275 # 2)%Q))]] /\
  (r ← handle_outliers sparse_table ["glucose"] "none" 1.5; snd r !! "glucose")
    = Some (outlier_record 1 5 "none").
Proof. repeat split; reflexivity. Qed.

(** The shares are float64 numbers.  One value in 4000: the product
    [1 / 4000 * 100] is a float above 0.025, which Python's [round] takes to
    0.03.  23 values in 160: the product is a float below 14.375, which is
    rounded to 14.37. *)
Lemma eda_percentage_examples :
  py_round2 (percent_of 1 4000) = binary64 0.03 /\
  (0.025 < percent_of 1 4000)%Q /\
  py_round2 (percent_of 23 160) = binary64 14.37 /\
  (percent_of 23 160 < 14.375)%Q /\
  py_round2 (percent_of 1 4) = 25%Q.
Proof. repeat split; vm_compute; reflexivity. Qed.

(** ** FeatureEngineer: which columns are derived *)

Lemma derive_inv p name d f st st' :
  derive p name d f st = Some st' ->
  (p = false /\ st' = st) \/
  (p = true /\ exists cs, f (fst st) = Some cs /\
     st' = (set_col (fst st) name d cs, snd st ++ [name])).
Proof.
  unfold derive. destruct p; [|intros [= <-]; by left].
  destruct (f (fst st)) as [cs|]; [|done]. cbn. intros [= <-]. right. eauto.
Qed.

Lemma derive_names p name d f st st' :
  derive p name d f st = Some st' ->
  snd st' = snd st ++ (if p then [name] else []).
Proof.
  intros [[-> ->]|(-> & cs & _ & ->)]%derive_inv; cbn; [by rewrite app_nil_r|done].
Qed.

(** The storage types of the derived columns: [text n] tells whether the
    derived column [n] has the type [object]. *)
Lemma derive_dtypes (text : string -> bool) p name d f st st' :
  (p = true -> dtype_eqb d DObject = text name) ->
  (forall n, n ∈ snd st -> exists c, get_col (fst st) n = Some c /\
                                     dtype_eqb (cdtype c) DObject = text n) ->
  derive p name d f st = Some st' ->
  forall n, n ∈ snd st' -> exists c, get_col (fst st') n = Some c /\
                                     dtype_eqb (cdtype c) DObject = text n.
Proof.
  intros Hd I [[-> ->]|(-> & cs & _ & ->)]%derive_inv; [done|].
  cbn [fst snd]. intros n Hn.
  destruct (String.eqb_spec name n) as [->|Hne].
  - rewrite get_set_col_eq. eexists. split; [done|]. cbn. by apply Hd.
  - rewrite get_set_col_ne by done. apply I.
    apply elem_of_app in Hn as [Hn|Hn]; [done|].
    apply list_elem_of_singleton in Hn. congruence.
Qed.

Lemma columns_set_col_new (df : frame Q) n d cs :
  n ∉ columns df -> columns (set_col df n d cs) = columns df ++ [n].
Proof.
  unfold columns. induction df as [|c df IH]; cbn; [done|].
  intros Hn. apply not_elem_of_cons in Hn as [Hn1 Hn2].
  destruct (String.eqb_spec (cname c) n) as [E|E]; [congruence|].
  cbn. f_equal. by apply IH.
Qed.

Lemma derive_extends (df : frame Q) p name d f st st' :
  name ∉ columns df -> name ∉ snd st ->
  columns (fst st) = columns df ++ snd st ->
  (forall n, n ∈ columns df -> get_col (fst st) n = get_col df n) ->
  derive p name d f st = Some st' ->
  columns (fst st') = columns df ++ snd st' /\
  (forall n, n ∈ columns df -> get_col (fst st') n = get_col df n).
Proof.
  intros H1 H2 C G [[-> ->]|(-> & cs & _ & ->)]%derive_inv; [done|].
  cbn [fst snd]. split.
  - rewrite columns_set_col_new, C, app_assoc; [done|].
    rewrite C. intros [?|?]%elem_of_app; done.
  - intros n Hn. rewrite get_set_col_ne; [by apply G|]. intros ->. done.
Qed.

Lemma feature_engineering_inv df df' new :
  feature_engineering df = Some (df', new) ->
  let has n := mem n (columns df) in
  exists st1 st2 st3 st4 st5 st6 f1 f2 f3 f4 f5 f6 f7,
    derive (has "bmi") "bmi_risk_level" DCategory f1 (df, []) = Some st1 /\
    derive (has "age") "age_diabetes_risk" DCategory f2 st1 = Some st2 /\
    derive (negb (length (List.filter has health_indicators) =? 0)%nat)
      "health_risk_score" (sum_dtype df (List.filter has health_indicators)) f3 st2
      = Some st3 /\
    derive (has "physical_activity") "activity_score" DNumber f4 st3 = Some st4 /\
    derive (has "sleep_hours") "sleep_quality" DNumber f5 st4 = Some st5 /\
    derive (negb (length ((if has "physical_activity" then ["activity_score"] else [])
                          ++ (if has "sleep_hours" then ["sleep_quality"] else [])) =? 0)%nat)
      "lifestyle_score" DNumber f6 st5 = Some st6 /\
    derive (has "environmental_risk" && has "urban_rural") "location_risk" DNumber f7 st6
      = Some (df', new).
Proof.
  unfold feature_engineering. cbv zeta. intros H.
  apply bind_Some in H as (st1 & E1 & H).
  apply bind_Some in H as (st2 & E2 & H).
  apply bind_Some in H as (st3 & E3 & H).
  apply bind_Some in H as (st4 & E4 & H).
  apply bind_Some in H as (st5 & E5 & H).
  apply bind_Some in H as (st6 & E6 & H).
  by eexists st1, st2, st3, st4, st5, st6, _, _, _, _, _, _, _.
Qed.

Lemma filter_none {A} (p : A -> bool) (l : list A) :
  (forall x, x ∈ l -> p x = false) -> List.filter p l = [].
Proof.
  induction l as [|x l IH]; cbn; [done|]. intros H.
  rewrite (H x) by by left. apply IH. intros y Hy. apply H. by right.
Qed.

Lemma filter_all {A} (p : A -> bool) (l : list A) :
  (forall x, x ∈ l -> p x = true) -> List.filter p l = l.
Proof.
  induction l as [|x l IH]; cbn; [done|]. intros H.
  rewrite (H x) by by left. f_equal. apply IH. intros y Hy. apply H. by right.
Qed.

Lemma nonempty_filter {A} (p : A -> bool) (l : list A) :
  negb (length (List.filter p l) =? 0)%nat = existsb p l.
Proof.
  induction l as [|x l IH]; cbn; [done|]. destruct (p x); cbn; [done|exact IH].
Qed.

Lemma feature_engineering_names df df' new :
  feature_engineering df = Some (df', new) -> new = engineered_names df.
Proof.
  intros H. apply feature_engineering_inv in H. cbv zeta in H.
  destruct H as (st1 & st2 & st3 & st4 & st5 & st6 & f1 & f2 & f3 & f4 & f5 & f6 & f7
                 & E1 & E2 & E3 & E4 & E5 & E6 & E7).
  apply derive_names in E1, E2, E3, E4, E5, E6, E7. cbn [snd] in *.
  rewrite E7, E6, E5, E4, E3, E2, E1. unfold engineered_names. cbv zeta.
  rewrite nonempty_filter, <- !app_assoc. cbn [app].
  destruct (mem "physical_activity" (columns df)), (mem "sleep_hours" (columns df));
    reflexivity.
Qed.

Lemma feature_engineering_dtypes df df' new :
  feature_engineering df = Some (df', new) ->
  forall n, n ∈ new ->
    exists c, get_col df' n = Some c /\
      dtype_eqb (cdtype c) DObject
      = String.eqb n "health_risk_score" && text_health_score df.
Proof.
  intros H. apply feature_engineering_inv in H. cbv zeta in H.
  destruct H as (st1 & st2 & st3 & st4 & st5 & st6 & f1 & f2 & f3 & f4 & f5 & f6 & f7
                 & E1 & E2 & E3 & E4 & E5 & E6 & E7).
  set (text := fun n => String.eqb n "health_risk_score" && text_health_score df).
  assert (forall n, n ∈ snd (df, @nil string) ->
            exists c, get_col (fst (df, @nil string)) n = Some c /\
                      dtype_eqb (cdtype c) DObject = text n) as I0.
  { intros n Hn. by apply elem_of_nil in Hn. }
  assert (forall n, n ∈ snd st1 ->
            exists c, get_col (fst st1) n = Some c /\
                      dtype_eqb (cdtype c) DObject = text n) as I1.
  { refine (derive_dtypes text _ _ _ _ _ _ _ I0 E1). intros _. reflexivity. }
  assert (forall n, n ∈ snd st2 ->
            exists c, get_col (fst st2) n = Some c /\
                      dtype_eqb (cdtype c) DObject = text n) as I2.
  { refine (derive_dtypes text _ _ _ _ _ _ _ I1 E2). intros _. reflexivity. }
  assert (forall n, n ∈ snd st3 ->
            exists c, get_col (fst st3) n = Some c /\
                      dtype_eqb (cdtype c) DObject = text n) as I3.
  { refine (derive_dtypes text _ _ _ _ _ _ _ I2 E3).
    intros Hp. unfold text, text_health_score. cbv zeta.
    rewrite nonempty_filter in Hp. rewrite Hp. done. }
  assert (forall n, n ∈ snd st4 ->
            exists c, get_col (fst st4) n = Some c /\
                      dtype_eqb (cdtype c) DObject = text n) as I4.
  { refine (derive_dtypes text _ _ _ _ _ _ _ I3 E4). intros _. reflexivity. }
  assert (forall n, n ∈ snd st5 ->
            exists c, get_col (fst st5) n = Some c /\
                      dtype_eqb (cdtype c) DObject = text n) as I5.
  { refine (derive_dtypes text _ _ _ _ _ _ _ I4 E5). intros _. reflexivity. }
  assert (forall n, n ∈ snd st6 ->
            exists c, get_col (fst st6) n = Some c /\
                      dtype_eqb (cdtype c) DObject = text n) as I6.
  { refine (derive_dtypes text _ _ _ _ _ _ _ I5 E6). intros _. reflexivity. }
  refine (derive_dtypes text _ _ _ _ _ _ _ I6 E7). intros _. reflexivity.
Qed.

(** The two lists of step 5 hold old names and new features only. *)
Lemma extend_feature_lists_elem df new nc cc y :
  (y ∈ fst (extend_feature_lists df new nc cc) -> y ∈ nc \/ y ∈ new) /\
  (y ∈ snd (extend_feature_lists df new nc cc) -> y ∈ cc \/ y ∈ new).
Proof.
  unfold extend_feature_lists. cbv zeta. cbn [fst snd].
  split; intros [Hy|Hy]%elem_of_app; try (by left);
    right; apply list_elem_of_In, List.filter_In in Hy as [Hy _];
    by apply list_elem_of_In.
Qed.

Lemma filter_singleton_if {A} (q : A -> bool) (b : bool) (x : A) :
  List.filter q (if b then [x] else []) = if b && q x then [x] else [].
Proof. destruct b; cbn; [|done]. by destruct (q x). Qed.

Lemma filter_engineered_names (q : string -> bool) df :
  List.filter q (engineered_names df)
  = List.filter q (if mem "bmi" (columns df) then ["bmi_risk_level"] else [])
    ++ List.filter q (if mem "age" (columns df) then ["age_diabetes_risk"] else [])
    ++ List.filter q (if existsb (fun n => mem n (columns df)) health_indicators
                      then ["health_risk_score"] else [])
    ++ List.filter q (if mem "physical_activity" (columns df)
                      then ["activity_score"] else [])
    ++ List.filter q (if mem "sleep_hours" (columns df) then ["sleep_quality"] else [])
    ++ List.filter q (if mem "physical_activity" (columns df)
                         || mem "sleep_hours" (columns df)
                      then ["lifestyle_score"] else [])
    ++ List.filter q (if mem "environmental_risk" (columns df)
                         && mem "urban_rural" (columns df)
                      then ["location_risk"] else []).
Proof. unfold engineered_names. cbv zeta. by rewrite !List.filter_app. Qed.

Lemma extend_after_engineering df df' new nc cc :
  feature_engineering df = Some (df', new) ->
  extend_feature_lists df' new nc cc
  = if text_health_score df
    then (nc ++ List.filter (fun f => negb (String.eqb f "health_risk_score")) new,
          cc ++ ["health_risk_score"])
    else (nc ++ new, cc).
Proof.
  intros H. pose proof (feature_engineering_dtypes df df' new H) as D.
  pose proof (feature_engineering_names df df' new H) as Hnew.
  unfold extend_feature_lists. cbv zeta.
  set (p := fun f => match get_col df' f with
                     | Some c => dtype_eqb (cdtype c) DObject
                     | None => false
                     end).
  assert (List.filter p new
          = List.filter (fun n => String.eqb n "health_risk_score"
                                  && text_health_score df) new) as Ep.
  { apply List.filter_ext_in. intros n Hn%list_elem_of_In. unfold p.
    by destruct (D n Hn) as (c & -> & Hc). }
  rewrite Ep. destruct (text_health_score df) eqn:Et.
  - assert (List.filter (fun n => String.eqb n "health_risk_score" && true) new
            = ["health_risk_score"]) as ->.
    { rewrite Hnew, filter_engineered_names, !filter_singleton_if.
      unfold text_health_score in Et. apply andb_prop in Et as [-> _].
      cbn. by rewrite !andb_false_r. }
    f_equal. f_equal. apply List.filter_ext. intros n.
    unfold mem. cbn [existsb]. by rewrite orb_false_r, String.eqb_sym.
  - assert (List.filter (fun n => String.eqb n "health_risk_score" && false) new = [])
      as -> by (apply filter_none; intros; apply andb_false_r).
    rewrite filter_all; [by rewrite app_nil_r|done].
Qed.

(** X11.  On a table that has rows, the new features of [feature_engineering]
    are the names appended under the conditions on the input columns.  None
    of the derived columns has the storage type [object], except
    [health_risk_score] when the health indicators have no common numeric
    type (a text column, or booleans next to numbers).  Step 5 therefore
    appends every new feature, the two [pd.cut] bands included, to the
    numeric list, except such a [health_risk_score], which it appends to the
    categorical list. *)
Theorem engineered_features_join_numeric df df' new nc cc :
  (0 < nrows df)%nat ->
  feature_engineering df = Some (df', new) ->
  new = engineered_names df /\
  (forall n, n ∈ new ->
     exists c, get_col df' n = Some c /\
       (cdtype c = DObject <-> n = "health_risk_score" /\ text_health_score df = true)) /\
  extend_feature_lists df' new nc cc
  = (if text_health_score df
     then (nc ++ List.filter (fun f => negb (String.eqb f "health_risk_score")) new,
           cc ++ ["health_risk_score"])
     else (nc ++ new, cc)) /\
  (forall n, n ∈ ["bmi_risk_level"; "age_diabetes_risk"] -> n ∈ new ->
     n ∈ fst (extend_feature_lists df' new nc cc)).
Proof.
  intros _ H.
  pose proof (feature_engineering_names df df' new H) as Hnew.
  pose proof (extend_after_engineering df df' new nc cc H) as Hext.
  split; [done|]. split; [|split; [done|]].
  - intros n Hn. destruct (feature_engineering_dtypes df df' new H n Hn) as (c & Hc & Hd).
    exists c. split; [done|]. split.
    + intros E. rewrite E in Hd. symmetry in Hd. apply andb_prop in Hd as [Hd1 Hd2].
      by apply String.eqb_eq in Hd1.
    + intros [-> Ht]. rewrite Ht in Hd. cbn in Hd. by destruct (cdtype c).
  - intros n Hn Hin. rewrite Hext.
    destruct (text_health_score df); cbn [fst]; apply elem_of_app; right; [|done].
    apply list_elem_of_In, List.filter_In. split; [by apply list_elem_of_In|].
    apply elem_of_cons in Hn as [->|Hn]; [done|].
    apply list_elem_of_singleton in Hn. by subst n.
Qed.

(** X12.  On a table that has no column named like a derived feature,
    [feature_engineering] appends the derived columns after the input
    columns, in the order of derivation, and leaves every input column as it
    was; when no condition holds the table is returned unchanged. *)
Theorem feature_engineering_extends df df' new :
  feature_engineering df = Some (df', new) ->
  (forall n, n ∈ derived_features -> n ∉ columns df) ->
  columns df' = columns df ++ engineered_names df /\
  (forall n, n ∈ columns df -> get_col df' n = get_col df n) /\
  (engineered_names df = [] -> df' = df).
Proof.
  intros H Hfresh.
  pose proof (feature_engineering_names df df' new H) as Hnew.
  apply feature_engineering_inv in H. cbv zeta in H.
  destruct H as (st1 & st2 & st3 & st4 & st5 & st6 & f1 & f2 & f3 & f4 & f5 & f6 & f7
                 & E1 & E2 & E3 & E4 & E5 & E6 & E7).
  assert (forall n, n ∈ derived_features -> n ∉ columns df) as Hf by done.
  pose proof (derive_names _ _ _ _ _ _ E1) as N1.
  pose proof (derive_names _ _ _ _ _ _ E2) as N2.
  pose proof (derive_names _ _ _ _ _ _ E3) as N3.
  pose proof (derive_names _ _ _ _ _ _ E4) as N4.
  pose proof (derive_names _ _ _ _ _ _ E5) as N5.
  pose proof (derive_names _ _ _ _ _ _ E6) as N6.
  cbn [snd] in N1.
  assert (forall (b : bool) (x y : string) l,
            x ∈ l ++ (if b then [y] else []) -> x ∈ l \/ x = y) as Happ.
  { intros b x y l Hx. apply elem_of_app in Hx as [Hx|Hx]; [by left|].
    destruct b; [|by inversion Hx].
    apply list_elem_of_singleton in Hx. by right. }
  assert (columns (fst st1) = columns df ++ snd st1 /\
          (forall n, n ∈ columns df -> get_col (fst st1) n = get_col df n)) as [C1 G1].
  { eapply (derive_extends df); [| | | |exact E1]; cbn [fst snd];
      [apply Hf; unfold derived_features; repeat constructor|apply not_elem_of_nil|by rewrite app_nil_r|done]. }
  assert (columns (fst st2) = columns df ++ snd st2 /\
          (forall n, n ∈ columns df -> get_col (fst st2) n = get_col df n)) as [C2 G2].
  { eapply (derive_extends df); [| | | |exact E2]; [apply Hf; unfold derived_features; repeat constructor| |done..].
    rewrite N1. intros [Hx|Hx]%Happ; [by inversion Hx|done]. }
  assert (columns (fst st3) = columns df ++ snd st3 /\
          (forall n, n ∈ columns df -> get_col (fst st3) n = get_col df n)) as [C3 G3].
  { eapply (derive_extends df); [| | | |exact E3]; [apply Hf; unfold derived_features; repeat constructor| |done..].
    rewrite N2, N1. intros [[Hx|Hx]%Happ|Hx]%Happ; [by inversion Hx|done..]. }
  assert (columns (fst st4) = columns df ++ snd st4 /\
          (forall n, n ∈ columns df -> get_col (fst st4) n = get_col df n)) as [C4 G4].
  { eapply (derive_extends df); [| | | |exact E4]; [apply Hf; unfold derived_features; repeat constructor| |done..].
    rewrite N3, N2, N1.
    intros [[[Hx|Hx]%Happ|Hx]%Happ|Hx]%Happ; [by inversion Hx|done..]. }
  assert (columns (fst st5) = columns df ++ snd st5 /\
          (forall n, n ∈ columns df -> get_col (fst st5) n = get_col df n)) as [C5 G5].
  { eapply (derive_extends df); [| | | |exact E5]; [apply Hf; unfold derived_features; repeat constructor| |done..].
    rewrite N4, N3, N2, N1.
    intros [[[[Hx|Hx]%Happ|Hx]%Happ|Hx]%Happ|Hx]%Happ;
      [by inversion Hx|done..]. }
  assert (columns (fst st6) = columns df ++ snd st6 /\
          (forall n, n ∈ columns df -> get_col (fst st6) n = get_col df n)) as [C6 G6].
  { eapply (derive_extends df); [| | | |exact E6]; [apply Hf; unfold derived_features; repeat constructor| |done..].
    rewrite N5, N4, N3, N2, N1.
    intros [[[[[Hx|Hx]%Happ|Hx]%Happ|Hx]%Happ|Hx]%Happ|Hx]%Happ;
      [by inversion Hx|done..]. }
  assert (columns (fst (df', new)) = columns df ++ snd (df', new) /\
          (forall n, n ∈ columns df -> get_col (fst (df', new)) n = get_col df n))
    as [C7 G7].
  { eapply (derive_extends df); [| | | |exact E7]; [apply Hf; unfold derived_features; repeat constructor| |done..].
    rewrite N6, N5, N4, N3, N2, N1.
    intros [[[[[[Hx|Hx]%Happ|Hx]%Happ|Hx]%Happ|Hx]%Happ|Hx]%Happ|Hx]%Happ;
      [by inversion Hx|done..]. }
  cbn [fst snd] in C7, G7. rewrite Hnew in C7.
  split; [done|]. split; [done|].
  intros Hnil. rewrite Hnil in Hnew. subst new.
  assert (forall p name d f st st', derive p name d f st = Some st' ->
            snd st' = [] -> st' = st) as Hsame.
  { intros p name d f st st' [[_ ->]|(_ & cs & _ & ->)]%derive_inv; [done|].
    cbn [snd]. intros Habs. by apply app_eq_nil in Habs as [_ ?]. }
  assert (forall p name d f st st', derive p name d f st = Some st' ->
            snd st' = [] -> snd st = []) as Hprev.
  { intros p name d f st st' Hd Hs. by rewrite (Hsame _ _ _ _ _ _ Hd Hs) in Hs. }
  pose proof (Hprev _ _ _ _ _ _ E7 eq_refl) as S6.
  pose proof (Hprev _ _ _ _ _ _ E6 S6) as S5.
  pose proof (Hprev _ _ _ _ _ _ E5 S5) as S4.
  pose proof (Hprev _ _ _ _ _ _ E4 S4) as S3.
  pose proof (Hprev _ _ _ _ _ _ E3 S3) as S2.
  pose proof (Hprev _ _ _ _ _ _ E2 S2) as S1.
  pose proof (Hsame _ _ _ _ _ _ E7 eq_refl) as T7.
  pose proof (Hsame _ _ _ _ _ _ E6 S6) as T6.
  pose proof (Hsame _ _ _ _ _ _ E5 S5) as T5.
  pose proof (Hsame _ _ _ _ _ _ E4 S4) as T4.
  pose proof (Hsame _ _ _ _ _ _ E3 S3) as T3.
  pose proof (Hsame _ _ _ _ _ _ E2 S2) as T2.
  pose proof (Hsame _ _ _ _ _ _ E1 S1) as T1.
  congruence.
Qed.

(** On [text_indicators_table] the two indicators are texts: the score is
    their concatenation, of type [object], and joins the categorical
    features. *)
Lemma engineered_features_join_numeric_witness :
  (0 < nrows text_indicators_table)%nat /\
  feature_engineering text_indicators_table
    = Some (text_indicators_engineered, ["bmi_risk_level"; "health_risk_score"]) /\
  text_health_score text_indicators_table = true /\
  extend_feature_lists text_indicators_engineered ["bmi_risk_level"; "health_risk_score"]
    ["bmi"] ["hypertension"; "heart_disease"]
    = (["bmi"; "bmi_risk_level"],
       ["hypertension"; "heart_disease"; "health_risk_score"]).
Proof.
  assert (0 < nrows text_indicators_table)%nat as Hrows by (cbn; lia).
  assert (feature_engineering text_indicators_table
          = Some (text_indicators_engineered, ["bmi_risk_level"; "health_risk_score"]))
    as E by reflexivity.
  split; [exact Hrows|]. split; [exact E|]. split; [reflexivity|].
  exact (proj1 (proj2 (proj2
           (engineered_features_join_numeric _ _ _ ["bmi"]
              ["hypertension"; "heart_disease"] Hrows E)))).
Defined.

Lemma feature_engineering_extends_witness :
  feature_engineering bands_table
    = Some (bands_engineered, ["bmi_risk_level"; "age_diabetes_risk"]) /\
  columns bands_engineered
    = columns bands_table ++ ["bmi_risk_level"; "age_diabetes_risk"] /\
  get_col bands_engineered "bmi" = get_col bands_table "bmi".
Proof.
  assert (feature_engineering bands_table
          = Some (bands_engineered, ["bmi_risk_level"; "age_diabetes_risk"])) as E
    by reflexivity.
  split; [exact E|].
  destruct (feature_engineering_extends _ _ _ E) as (A & B & _).
  - apply Forall_forall, (bool_decide_unpack _). reflexivity.
  - split; [exact A|]. apply B. apply (bool_decide_unpack _). reflexivity.
Defined.

(** ** Grouping, one-hot encoding, selection order, constant columns *)

Section Encoding.
Context {num : Type}.
Variable sort_counts : list (string * nat) -> list (string * nat).

Lemma group_other_text tops (c : cell num) :
  exists s, group_other tops c = Str s /\ (s ∈ tops \/ s = "Other").
Proof.
  destruct c as [|x|s|b]; cbn; try (eexists; split; [done|by right]).
  destruct (mem s tops) eqn:E.
  - exists s. split; [done|]. left. by apply mem_spec.
  - eexists; split; [done|by right].
Qed.

Lemma top_categories_length n (cs : list (cell num)) :
  length (top_categories sort_counts n cs) <= n.
Proof. unfold top_categories. rewrite length_take. lia. Qed.

Lemma distinct_texts_spec (cs : list (cell num)) s :
  s ∈ distinct_texts cs <-> Str s ∈ cs.
Proof.
  unfold distinct_texts. rewrite elem_of_remove_dups, list_elem_of_omap. split.
  - intros (x & Hx & Ex). destruct x; try done. cbn in Ex. by injection Ex as ->.
  - intros H. by exists (Str s).
Qed.

(** The top categories under a sort that sorts: distinct values of the
    column, none of them counted less often than a value left out. *)
Lemma top_categories_sorted n (cs : list (cell num)) :
  sorts_descending sort_counts ->
  let tops := top_categories sort_counts n cs in
  NoDup tops /\
  (forall s, s ∈ tops -> Str s ∈ cs) /\
  (forall s u, s ∈ tops -> Str u ∈ cs -> u ∉ tops ->
     text_count u cs <= text_count s cs).
Proof.
  intros Hsort. cbv zeta. unfold top_categories, value_counts.
  set (L := (fun s => (s, text_count s cs)) <$> distinct_texts cs).
  destruct (Hsort L) as [Hperm Hsorted].
  set (S := sort_counts L) in *.
  assert (fst <$> L = distinct_texts cs) as HL.
  { unfold L. rewrite <- list_fmap_compose. apply list_fmap_id. }
  assert (forall x, x ∈ S -> snd x = text_count (fst x) cs /\ fst x ∈ distinct_texts cs)
    as Helem.
  { intros x Hx. rewrite Hperm in Hx. unfold L in Hx.
    apply list_elem_of_fmap in Hx as (s & -> & Hs). done. }
  assert (NoDup (fst <$> S)) as Hnd.
  { rewrite Hperm, HL. apply NoDup_remove_dups. }
  rewrite <- fmap_take.
  split; [|split].
  - rewrite fmap_take. exact (sublist_NoDup _ _ Hnd (sublist_take _ _)).
  - intros s Hs. apply list_elem_of_fmap in Hs as (x & -> & Hx).
    apply distinct_texts_spec, Helem. by apply (subseteq_take n S).
  - intros s u Hs Hu Hnot.
    apply list_elem_of_fmap in Hs as (x & -> & Hx).
    assert ((u, text_count u cs) ∈ S) as HuS.
    { rewrite Hperm. unfold L. apply list_elem_of_fmap. exists u.
      split; [done|]. by apply distinct_texts_spec. }
    rewrite <- (take_drop n S) in HuS, Hsorted.
    apply elem_of_app in HuS as [HuS|HuS].
    + exfalso. apply Hnot. apply list_elem_of_fmap. by exists (u, text_count u cs).
    + pose proof (StronglySorted_app_1_elem_of _ _ _ _ _ Hsorted Hx HuS) as Hle.
      cbn in Hle. destruct (Helem x) as [<- _]; [|done].
      rewrite <- (take_drop n S). apply elem_of_app. by left.
Qed.

(** X13.  Whatever order the sort of [value_counts] gives to values of equal
    count, frequency grouping keeps the number of rows, leaves no missing
    value (a missing cell becomes [Other]), keeps every cell whose category
    is among the top ones, and leaves at most one distinct value more than
    there are top categories, hence at most [max_categories + 1].  When the
    sort does sort, the top categories are distinct values of the column and
    none of them is counted less often than a value that is grouped away. *)
Theorem frequency_grouping_bounds max_categories (df : frame num)
    (info : gmap string (gmap string pyval)) (c : column num) :
  let tops := top_categories sort_counts max_categories (cells c) in
  let grouped := group_other tops <$> cells c in
  get_col (fst (frequency_grouping sort_counts max_categories df info c)) (cname c)
    = Some (Column (cname c) DObject grouped) /\
  length grouped = length (cells c) /\
  missing_count grouped = 0 /\
  nunique grouped <= length tops + 1 /\
  length tops + 1 <= max_categories + 1 /\
  (forall i s, cells c !! i = Some (Str s) -> s ∈ tops -> grouped !! i = Some (Str s)) /\
  (sorts_descending sort_counts ->
   NoDup tops /\
   (forall s, s ∈ tops -> Str s ∈ cells c) /\
   (forall s u, s ∈ tops -> Str u ∈ cells c -> u ∉ tops ->
      text_count u (cells c) <= text_count s (cells c))).
Proof.
  cbv zeta. set (tops := top_categories sort_counts max_categories (cells c)).
  split; [apply get_set_col_eq|].
  split; [apply length_fmap|]. split; [|split; [|split; [|split]]].
  - apply missing_count_0, Forall_fmap, Forall_forall. intros x _. cbn.
    by destruct (group_other_text tops x) as (s & -> & _).
  - unfold nunique, distinct_texts.
    replace (length tops + 1) with (length (tops ++ ["Other"]))
      by (rewrite length_app; done).
    apply submseteq_length, NoDup_submseteq; [apply NoDup_remove_dups|].
    intros s Hs. rewrite elem_of_remove_dups in Hs.
    apply list_elem_of_omap in Hs as (x & Hx & Ex).
    apply list_elem_of_fmap in Hx as (x0 & -> & _).
    destruct (group_other_text tops x0) as (s' & E & Hor). rewrite E in Ex.
    injection Ex as <-. apply elem_of_app.
    destruct Hor as [?| ->]; [by left|right; by left].
  - pose proof (top_categories_length max_categories (cells c)). fold tops in H. lia.
  - intros i s Hi Hs. rewrite list_lookup_fmap, Hi. cbn.
    apply mem_spec in Hs. by rewrite Hs.
  - intros Hsort. by apply top_categories_sorted.
Qed.

(** X14.  When every listed column exists and has at most [max_categories]
    distinct values, [handle_high_cardinality_categorical] returns the table
    unchanged and an empty report. *)
Theorem low_cardinality_untouched
    (target_encoder : list (cell num) -> list (cell num) -> option (list (cell num)))
    (df : frame num) cols t max_categories :
  (forall col, col ∈ cols ->
     exists c, get_col df col = Some c /\ nunique (cells c) <= max_categories) ->
  handle_high_cardinality_categorical sort_counts target_encoder df cols t
    max_categories
    = Some (df, ∅).
Proof.
  intros Hall. unfold handle_high_cardinality_categorical.
  generalize (∅ : gmap string (gmap string pyval)).
  generalize df at 1 as df0. intros df0.
  induction cols as [|col cols IH]; intros info; cbn [foldM]; [done|].
  destruct (Hall col) as (c & Hc & Hn); [by left|].
  unfold handle_high_cardinality_col at 1. rewrite Hc. cbn [mbind option_bind].
  assert ((max_categories <? nunique (cells c))%nat = false) as -> by (apply Nat.ltb_ge; lia).
  apply IH. intros col' Hcol'. apply Hall. by right.
Qed.



End Encoding.

Section SelectionOrder.
Context {num : Type} `{Arith num}.
Variable select_k_best :
  nat -> frame num -> list (cell num) -> option (list (option num) * list bool).

Lemma mask_select_sublist names mask chosen :
  mask_select names mask = Some chosen ->
  sublist chosen names /\ length mask = length names /\
  length chosen = count_true mask.
Proof.
  revert mask chosen. induction names as [|n names IH]; intros [|b mask] chosen; cbn;
    try done.
  - intros [= <-]. done.
  - destruct (mask_select names mask) as [l|] eqn:E; [|done].
    destruct (IH mask l E) as (A & B & C). intros [= <-].
    unfold count_true in *. destruct b; cbn.
    + split; [by apply sublist_skip|]. split; [by f_equal|by f_equal].
    + split; [by apply sublist_cons|]. split; [by f_equal|done].
Qed.

(** X16.  When feature selection is applied the returned columns are the
    protected numeric features, then a sublist of the selectable ones, then
    every non-numeric feature, then the target as the last column, each
    column as it was before the selection. *)
Theorem selection_keeps_categorical_and_target df_ml t out report :
  feature_selection select_k_best df_ml t = Some (out, true, report) ->
  let X := feature_columns df_ml (default "" t) in
  exists chosen,
    sublist chosen (selectable_numeric X) /\
    columns out
      = protected_numeric X ++ chosen ++ categorical_feature_cols X ++ [default "" t] /\
    (forall col, col ∈ categorical_feature_cols X -> col ∈ columns out) /\
    last (columns out) = Some (default "" t) /\
    (forall n, n ∈ columns out -> get_col out n = get_col df_ml n).
Proof.
  intros Hsel. cbv zeta.
  destruct (feature_selection_shape select_k_best df_ml t out true report Hsel)
    as [(_ & _ & Habs & _)|(_ & _ & Hshape)]; [done|].
  cbv zeta in Hshape. destruct Hshape as (scores & support & chosen & Hmask & Hout & _).
  exists chosen.
  pose proof (select_columns_names _ _ _ Hout) as Hnames.
  split; [by apply mask_select_sublist in Hmask as [? _]|].
  split; [done|]. split; [|split].
  - intros col Hcol. rewrite Hnames, !elem_of_app. right. right. by left.
  - rewrite Hnames, !app_assoc. apply last_snoc.
  - intros n Hn. rewrite Hnames in Hn. by apply (select_columns_get _ _ _ _ Hout).
Qed.
End SelectionOrder.

Lemma selection_keeps_categorical_and_target_witness :
  feature_selection first_k_selector wide_table (Some "diabetes")
    = Some (wide_selected, true, wide_report) /\
  last (columns wide_selected) = Some "diabetes" /\
  length (columns wide_selected) = 41.
Proof.
  assert (feature_selection first_k_selector wide_table (Some "diabetes")
          = Some (wide_selected, true, wide_report)) as E by reflexivity.
  split; [exact E|].
  destruct (selection_keeps_categorical_and_target first_k_selector wide_table
              (Some "diabetes") wide_selected wide_report E)
    as (chosen & _ & _ & _ & L & _).
  split; [exact L|reflexivity].
Defined.

Lemma n_sum_replicate (v : Q) n :
  (n_sum (replicate n v) == inject_Z (Z.of_nat n) * v)%Q.
Proof.
  induction n as [|n IH].
  - unfold n_sum. cbn [replicate foldr n_of_Z Arith_Q].
    change (inject_Z (Z.of_nat 0)) with 0%Q. change (inject_Z 0) with 0%Q. Lqa.lra.
  - cbn [replicate]. unfold n_sum in *. cbn [foldr n_add Arith_Q].
    rewrite Qred_correct, IH, Nat2Z.inj_succ, <- Z.add_1_r, inject_Z_plus.
    change (inject_Z 1) with 1%Q. Lqa.lra.
Qed.

Lemma n_sum_zero (l : list Q) :
  Forall (fun x => x == 0)%Q l -> (n_sum l == 0)%Q.
Proof.
  induction 1 as [|x l Hx _ IH]; [done|].
  unfold n_sum in *. cbn [foldr n_add Arith_Q]. rewrite Qred_correct, Hx, IH. done.
Qed.

(** X17.  A column that holds one value in every row is fitted with that
    value as mean and with scale 1, and is transformed into a column of
    zeros: a zero variance does not divide by zero. *)
Theorem constant_column_scales_to_zero (v : Q) n :
  0 < n ->
  exists m, (m == v)%Q /\
    scaler_fit (replicate n (Num v)) = Some (Stats m 1%Q) /\
    scaler_transform (Stats m 1%Q) (replicate n (Num v)) = replicate n (Num 0%Q).
Proof.
  intros Hn.
  assert (mapM cell_value (replicate n (Num v)) = Some (replicate n (Some v))) as Hm.
  { clear Hn. induction n as [|n IH]; [done|]. cbn. by rewrite IH. }
  assert (omap (fun o : option Q => o) (replicate n (Some v)) = replicate n v) as Ho.
  { clear. induction n as [|n IH]; [done|]. cbn. by rewrite IH. }
  set (xs := replicate n v).
  assert (inject_Z (Z.of_nat n) > 0)%Q as Hpos.
  { change 0%Q with (inject_Z 0). rewrite <- Zlt_Qlt. lia. }
  assert (n_mean xs == v)%Q as Hmean.
  { unfold n_mean, xs. cbn [n_div n_of_Z Arith_Q]. rewrite Qred_correct, length_replicate.
    rewrite n_sum_replicate. field. Lqa.lra. }
  assert (n_variance xs == 0)%Q as Hvar.
  { unfold n_variance. cbn [n_div Arith_Q]. rewrite Qred_correct.
    rewrite n_sum_zero; [field; unfold xs; rewrite length_replicate; cbn; Lqa.lra|].
    apply Forall_fmap, Forall_forall. intros x Hx. unfold compose. cbn [n_mul n_sub Arith_Q].
    unfold xs in Hx. apply elem_of_replicate in Hx as [-> _].
    rewrite !Qred_correct, Hmean. Lqa.lra. }
  exists (n_mean xs). split; [done|]. split.
  - unfold scaler_fit. rewrite length_replicate.
    assert ((n =? 0)%nat = false) as -> by (apply Nat.eqb_neq; lia).
    rewrite Hm. cbn [mbind option_bind]. rewrite Ho. fold xs.
    assert ((length xs =? 0)%nat = false) as ->.
    { apply Nat.eqb_neq. unfold xs. rewrite length_replicate. lia. }
    unfold n_scale. cbn [n_is_zero Arith_Q].
    assert (Qeq_bool (n_variance xs) 0 = true) as -> by (by apply Qeq_bool_iff).
    done.
  - unfold scaler_transform. clear Hm Ho Hvar Hpos.
    assert (forall x, (x == v)%Q -> Qred (Qred (v - x) / 1) = 0%Q) as Hz.
    { intros x Hx. change 0%Q with (Qred 0). apply Qred_complete.
      rewrite Qred_correct, Hx. field. }
    generalize (Hz _ Hmean). generalize (n_mean xs). clear. intros m Hz.
    induction n as [|n IH]; [done|]. cbn [replicate fmap list_fmap].
    f_equal; [|exact IH]. cbn. by rewrite Hz.
Qed.

Lemma constant_column_scales_to_zero_witness :
  scaler_fit [Num 5%Q; Num 5%Q; Num 5%Q] = Some (Stats 5%Q 1%Q) /\
  exists m, (m == 5)%Q /\
    scaler_transform (Stats m 1%Q) (replicate 3 (Num 5%Q)) = replicate 3 (Num 0%Q).
Proof.
  split; [reflexivity|].
  destruct (constant_column_scales_to_zero 5 3) as (m & Hm & _ & Ht); [lia|].
  exists m. by split.
Defined.

Lemma low_cardinality_untouched_witness :
  handle_high_cardinality_categorical stable_sort_counts zero_target_encoder
    kept_text_table ["city"; "smoking"] (Some "diabetes") 15
  = Some (kept_text_table, ∅).
Proof.
  apply low_cardinality_untouched.
  apply Forall_forall. repeat constructor.
  - eexists. split; [reflexivity|]. vm_compute. lia.
  - eexists. split; [reflexivity|]. vm_compute. lia.
Defined.



(** The stand-in for the sort of [value_counts] does sort. *)
Lemma insert_count_spec x l :
  StronglySorted (fun a b => (snd b <= snd a)%nat) l ->
  insert_count x l ≡ₚ x :: l /\
  StronglySorted (fun a b => (snd b <= snd a)%nat) (insert_count x l).
Proof.
  induction l as [|y r IH]; intros Hs; cbn.
  - split; [done|]. repeat constructor.
  - apply StronglySorted_inv in Hs as [Hr Hy].
    destruct (Nat.leb_spec (snd y) (snd x)) as [Hle|Hgt].
    + split; [done|]. constructor; [by constructor|].
      constructor; [done|]. eapply Forall_impl; [exact Hy|]. cbn. intros; lia.
    + destruct (IH Hr) as [Hp Hs']. split.
      * rewrite Hp. apply Permutation_swap.
      * constructor; [done|]. rewrite Hp. constructor; [lia|done].
Qed.

Lemma stable_sort_counts_sorts : sorts_descending stable_sort_counts.
Proof.
  intros l. unfold stable_sort_counts. induction l as [|x l [Hp Hs]]; cbn.
  - split; [done|constructor].
  - destruct (insert_count_spec x _ Hs) as [Hp' Hs']. split; [|done].
    by rewrite Hp', Hp.
Qed.

(** On [cities] with room for two categories: [Galle], named twice, comes
    first, [Kandy] is the first of the values named once, and [Jaffna] and
    the missing cell are grouped away. *)
Lemma frequency_grouping_bounds_witness :
  sorts_descending stable_sort_counts /\
  top_categories stable_sort_counts 2 cities = ["Galle"; "Kandy"] /\
  group_other ["Galle"; "Kandy"] <$> cities
    = [Str "Kandy"; Str "Galle"; Str "Other"; Str "Galle"; Str "Other"] /\
  (forall s u, s ∈ ["Galle"; "Kandy"] -> Str u ∈ cities -> u ∉ ["Galle"; "Kandy"] ->
     text_count u cities <= text_count s cities).
Proof.
  split; [exact stable_sort_counts_sorts|]. split; [reflexivity|]. split; [reflexivity|].
  destruct (frequency_grouping_bounds stable_sort_counts 2 [] ∅
              (Column "city" DObject cities)) as (_ & _ & _ & _ & _ & _ & Hs).
  exact (proj2 (proj2 (Hs stable_sort_counts_sorts))).
Defined.

(** ** The target column through the pipeline *)

Lemma override_keeps_other (df : frame Q) n x (f : list (cell Q) -> list (cell Q)) :
  n <> x ->
  get_col (match get_col df n with
           | Some c => set_col df n DObject (f (cells c))
           | None => df
           end) x = get_col df x.
Proof.
  intros Hne. destruct (get_col df n); [|done]. by apply get_set_col_ne.
Qed.

Lemma classify_columns_keeps_target str df t x :
  t = Some x ->
  get_col (cl_df (classify_columns str df t)) x = get_col df x.
Proof.
  intros ->. unfold classify_columns.
  set (st0 := {| cl_df := df; cl_numeric := initial_numeric df (Some x);
                 cl_categorical := initial_categorical df (Some x) |}).
  assert (x ∉ cl_numeric st0) as H0.
  { apply (excludes_target_spec (Some x)); [|done]. apply initial_numeric_excludes. }
  assert ((x ∉ cl_numeric (override_year str st0)) /\
          get_col (cl_df (override_year str st0)) x = get_col df x) as [H1 G1].
  { unfold override_year. destruct (mem "year" (cl_numeric st0)) eqn:E; [|done].
    cbn [cl_numeric cl_df]. split.
    - intros H. apply H0. by eapply list_remove_elem.
    - apply (override_keeps_other (cl_df st0) "year" x (astype_str str)).
      intros <-. apply H0. by apply mem_spec. }
  set (st1 := override_year str st0) in *.
  unfold override_gestational.
  destruct (mem "gestational_history" (cl_numeric st1)) eqn:E; [|done].
  cbn [cl_df]. rewrite <- G1.
  apply (override_keeps_other (cl_df st1) "gestational_history" x
           (fun cs => replace_nan (astype_str str cs))).
  intros <-. apply H1. by apply mem_spec.
Qed.

Lemma enhanced_imputation_unlisted df nc cc t df' info x :
  enhanced_imputation df nc cc t = Some (df', info) ->
  x ∉ nc -> x ∉ cc -> get_col df' x = get_col df x.
Proof.
  intros H Hn Hc. apply enhanced_imputation_inv in H as (st & H1 & H2).
  pose proof (numeric_loop_other t df (df, ∅) nc st x Hn H1) as A.
  pose proof (categorical_loop_other st cc (df', info) x Hc H2) as B.
  cbn [fst] in A, B. congruence.
Qed.

Lemma handle_outliers_unlisted df cols method m df' info x :
  handle_outliers df cols method m = Some (df', info) ->
  method <> "remove" -> x ∉ cols -> get_col df' x = get_col df x.
Proof.
  intros H Hm Hx. unfold handle_outliers in H.
  apply (foldM_preserve _ (fun st => get_col (fst st) x = get_col df x) _ _ _) in H;
    [done| |done].
  intros [d i] y [d' i'] Hy I Hstep. cbn [fst] in *.
  apply handle_outliers_col_inv in Hstep as (c & Hc & ->).
  apply String.eqb_neq in Hm. rewrite Hm.
  destruct (0 <? _)%nat; [|done].
  destruct (String.eqb method "cap"); [|done].
  rewrite get_set_col_ne; [done|]. intros ->. done.
Qed.

Lemma derive_keeps_other p name d f st st' x :
  derive p name d f st = Some st' -> x <> name ->
  get_col (fst st') x = get_col (fst st) x.
Proof.
  intros [[-> ->]|(-> & cs & _ & ->)]%derive_inv Hne; [done|].
  cbn [fst]. apply get_set_col_ne. congruence.
Qed.

Lemma feature_engineering_keeps_other df df' new x :
  feature_engineering df = Some (df', new) -> x ∉ derived_features ->
  get_col df' x = get_col df x.
Proof.
  intros H Hx. apply feature_engineering_inv in H. cbv zeta in H.
  destruct H as (st1 & st2 & st3 & st4 & st5 & st6 & f1 & f2 & f3 & f4 & f5 & f6 & f7
                 & E1 & E2 & E3 & E4 & E5 & E6 & E7).
  unfold derived_features in Hx. rewrite !not_elem_of_cons in Hx.
  destruct Hx as (X1 & X2 & X3 & X4 & X5 & X6 & X7 & _).
  pose proof (derive_keeps_other _ _ _ _ _ _ x E1 X1) as A1.
  pose proof (derive_keeps_other _ _ _ _ _ _ x E2 X2) as A2.
  pose proof (derive_keeps_other _ _ _ _ _ _ x E3 X3) as A3.
  pose proof (derive_keeps_other _ _ _ _ _ _ x E4 X4) as A4.
  pose proof (derive_keeps_other _ _ _ _ _ _ x E5 X5) as A5.
  pose proof (derive_keeps_other _ _ _ _ _ _ x E6 X6) as A6.
  pose proof (derive_keeps_other _ _ _ _ _ _ x E7 X7) as A7.
  cbn [fst] in *. congruence.
Qed.

Lemma engineered_names_derived df n : n ∈ engineered_names df -> n ∈ derived_features.
Proof.
  unfold engineered_names, derived_features. cbv zeta.
  rewrite !elem_of_app.
  intros H.
  repeat match goal with
         | H : _ \/ _ |- _ => destruct H as [H|H]
         | H : _ ∈ (if ?b then _ else _) |- _ => destruct b
         | H : _ ∈ [] |- _ => by inversion H
         | H : _ ∈ [_] |- _ => apply list_elem_of_singleton in H as ->
         end; repeat constructor.
Qed.

Lemma contains_target_encoded col :
  contains "target_encoded" (col +:+ "_target_encoded") = true.
Proof.
  induction col as [|a col IH].
  - reflexivity.
  - change (String a col +:+ "_target_encoded")
      with (String a (col +:+ "_target_encoded")).
    cbn [contains]. rewrite IH. apply orb_true_r.
Qed.

Section TargetColumn.
Context {num : Type} `{Arith num}.
Variable sort_counts : list (string * nat) -> list (string * nat).
Variable target_encoder : list (cell num) -> list (cell num) -> option (list (cell num)).
Variable select_k_best :
  nat -> frame num -> list (cell num) -> option (list (option num) * list bool).

Lemma high_cardinality_keeps_other (df : frame num) cols t max_categories df' info x :
  handle_high_cardinality_categorical sort_counts target_encoder df cols t
    max_categories
    = Some (df', info) ->
  x ∉ cols -> contains "target_encoded" x = false ->
  get_col df' x = get_col df x.
Proof.
  intros Hh Hx Hc. unfold handle_high_cardinality_categorical in Hh.
  apply (foldM_preserve _ (fun st => get_col (fst st) x = get_col df x) _ _ _) in Hh;
    [done| |done].
  intros [d i] y [d' i'] Hy I Hstep. cbn [fst] in *.
  unfold handle_high_cardinality_col in Hstep.
  destruct (get_col d y) as [c|] eqn:Ec; [|done]. cbn [mbind option_bind] in Hstep.
  pose proof (get_col_name _ _ _ Ec) as Hname.
  assert (y <> x) as Hne by (intros ->; done).
  assert (get_col (fst (frequency_grouping sort_counts max_categories d i c)) x
          = get_col d x) as Hfreq.
  { unfold frequency_grouping. cbn [fst]. rewrite Hname. by apply get_set_col_ne. }
  destruct (max_categories <? nunique (cells c))%nat; [|by injection Hstep as <- _].
  destruct (String.eqb y "location").
  { apply (inj Some) in Hstep.
    assert (d' = fst (frequency_grouping sort_counts max_categories d i c)) as ->
      by (by rewrite Hstep).
    congruence. }
  destruct (truthy t && mem (default "" t) (columns df)).
  - destruct (get_col d (default "" t)) as [tc|]; [|done]. cbn [mbind option_bind] in Hstep.
    destruct (target_encoder (cells c) (cells tc)) as [enc|]; [|done].
    cbn [mbind option_bind] in Hstep. injection Hstep as <- _.
    rewrite get_set_col_ne; [done|]. intros E.
    rewrite <- E, contains_target_encoded in Hc. done.
  - apply (inj Some) in Hstep.
    assert (d' = fst (frequency_grouping sort_counts max_categories d i c)) as ->
      by (by rewrite Hstep).
    congruence.
Qed.

Lemma get_col_app_l (a b : frame num) n c :
  get_col a n = Some c -> get_col (a ++ b) n = Some c.
Proof.
  induction a as [|c0 a IH]; cbn; [done|].
  destruct (String.eqb (cname c0) n); [done|exact IH].
Qed.

Lemma get_col_filter (p : column num -> bool) (df : frame num) n c :
  get_col df n = Some c -> (forall c', cname c' = n -> p c' = true) ->
  get_col (List.filter p df) n = Some c.
Proof.
  intros Hc Hp. induction df as [|c0 df IH]; cbn in *; [done|].
  destruct (String.eqb_spec (cname c0) n) as [E|E].
  - rewrite (Hp c0 E). cbn. apply String.eqb_eq in E. by rewrite E.
  - destruct (p c0); cbn; [|by apply IH].
    apply String.eqb_neq in E. rewrite E. by apply IH.
Qed.

Lemma encode_categoricals_keeps_other (df : frame num) cc ml x c :
  encode_categoricals df cc = Some ml -> x ∉ cc ->
  get_col df x = Some c -> get_col ml x = Some c.
Proof.
  unfold encode_categoricals. cbv zeta. intros He Hx Hc.
  destruct (length (categorical_for_encoding df cc) =? 0)%nat; [by injection He as <-|].
  unfold get_dummies in He.
  destruct (mapM (dummies_of df) (categorical_for_encoding df cc)) as [ds|]; [|done].
  cbn [mbind option_bind] in He. injection He as <-.
  apply get_col_app_l, get_col_filter; [done|].
  intros c' <-. apply negb_true_iff, mem_false.
  intros Hin. apply Hx. unfold categorical_for_encoding in Hin.
  by apply filter_elem in Hin as [? _].
Qed.

Lemma prepare_ml_keeps_target (df_clean : frame num) nc cc x out c :
  prepare_ml select_k_best df_clean nc cc (Some x) = Some out ->
  x ∉ nc -> x ∉ cc -> contains "target_encoded" x = false ->
  get_col df_clean x = Some c ->
  get_col (ml_table out) x = Some c.
Proof.
  intros Hp Hn Hc Ht Hx.
  apply prepare_ml_inv in Hp as (df_ml & scaled & He & Hs & Hf & _).
  pose proof (encode_categoricals_keeps_other _ _ _ _ _ He Hc Hx) as G1.
  assert (get_col scaled x = Some c) as G2.
  { rewrite (scale_numeric_other _ _ _ x Hs); [done|].
    unfold final_numeric_cols. intros [Hin|Hin]%elem_of_app.
    - by apply filter_elem in Hin as [? _].
    - unfold target_encoded_cols in Hin. apply filter_elem in Hin as [_ Hin]. congruence. }
  destruct (feature_selection_shape select_k_best scaled (Some x) _ _ _ Hf)
    as [(_ & -> & _)|(_ & _ & Hshape)]; [done|].
  cbv zeta in Hshape. destruct Hshape as (scores & support & chosen & _ & Hout & _).
  cbn [default from_option] in Hout.
  rewrite (select_columns_get _ _ _ x Hout); [done|].
  rewrite !elem_of_app. right. right. right. by left.
Qed.
End TargetColumn.

Section TargetThroughPipeline.
Variable arith : Arith Q.
Variable str_of_num : Q -> string.
Variable sort_counts : list (string * nat) -> list (string * nat).
Variable target_encoder : list (cell Q) -> list (cell Q) -> option (list (cell Q)).
Variable select_k_best :
  nat -> frame Q -> list (cell Q) -> option (list (option Q) * list bool).

(** X18.  Whatever the arithmetic of the scaler, the sort of [value_counts]
    and the two estimators: unless rows are removed as outliers, a run of
    [enhanced_preprocessing] that returns has imputed some column, and it
    returns the target column of the de-duplicated input unchanged, in the
    readable table and in the model-ready table, for a target that is not
    named like a derived feature and whose name does not contain
    [target_encoded]. *)
Theorem target_column_passes_through df x method fe out c :
  enhanced_preprocessing arith str_of_num sort_counts target_encoder select_k_best
    df (Some x) method fe = Some out ->
  method <> "remove" ->
  x ∉ derived_features -> contains "target_encoded" x = false ->
  get_col (drop_duplicates df) x = Some c ->
  get_col (readable out) x = Some c /\
  get_col (ml_table (ml_ready out)) x = Some c /\
  exists df1 info,
    (let st := classify_columns str_of_num (drop_duplicates df) (Some x) in
     enhanced_imputation (cl_df st) (cl_numeric st) (cl_categorical st) (Some x))
    = Some (df1, info) /\ info <> ∅.
Proof.
  intros H Hm Hd Ht Hc. unfold enhanced_preprocessing in H. cbv zeta in H.
  set (st := classify_columns str_of_num (drop_duplicates df) (Some x)) in *.
  pose proof (classify_columns_excludes_target str_of_num (drop_duplicates df) (Some x))
    as Hex. cbv zeta in Hex. fold st in Hex.
  rewrite excludes_target_app in Hex. apply andb_prop in Hex as [Hexn Hexc].
  pose proof (excludes_target_spec _ _ x Hexn eq_refl) as Hxn.
  pose proof (excludes_target_spec _ _ x Hexc eq_refl) as Hxc.
  pose proof (classify_columns_keeps_target str_of_num (drop_duplicates df) (Some x) x
                eq_refl) as G0. fold st in G0.
  apply bind_Some in H as ([df1 info1] & H1 & H).
  pose proof (enhanced_imputation_unlisted _ _ _ _ _ _ x H1 Hxn Hxc) as G1.
  apply bind_Some in H as ([] & Hinfo & H).
  assert (info1 <> ∅) as Hne.
  { intros ->. by rewrite map_size_empty in Hinfo. }
  apply bind_Some in H as (df2 & H2 & H).
  assert (get_col df2 x = get_col df1 x) as G2.
  { destruct (_ && _); [|by injection H2 as <-].
    apply bind_Some in H2 as ([d i] & H2 & E). injection E as <-. cbn [fst].
    by apply (handle_outliers_unlisted _ _ _ _ _ _ x H2). }
  apply bind_Some in H as ([[df3 numeric_cols] categorical_cols] & H3 & H).
  assert (get_col df3 x = get_col df2 x /\ (x ∉ numeric_cols) /\ (x ∉ categorical_cols))
    as (G3 & Hn3 & Hc3).
  { destruct fe.
    - apply bind_Some in H3 as ([d new_features] & Hfe & E).
      pose proof (extend_feature_lists_elem d new_features (cl_numeric st)
                    (cl_categorical st) x) as [En Ec].
      destruct (extend_feature_lists d new_features (cl_numeric st) (cl_categorical st))
        as [n0 c0]. cbn [fst snd] in En, Ec. injection E as <- <- <-.
      assert (x ∉ new_features) as Hnew.
      { rewrite (feature_engineering_names _ _ _ Hfe).
        intros Hin. by apply engineered_names_derived in Hin. }
      split; [by apply (feature_engineering_keeps_other _ _ _ x Hfe)|].
      split; intros Hin; [destruct (En Hin)|destruct (Ec Hin)]; done.
    - by injection H3 as <- <- <-. }
  apply bind_Some in H as ([df_clean info4] & H4 & H).
  pose proof (high_cardinality_keeps_other sort_counts target_encoder _ _ _ _ _ _ x
                H4 Hc3 Ht) as G4.
  apply bind_Some in H as (ml & H5 & H). injection H as <-.
  cbn [readable ml_ready].
  assert (get_col df_clean x = Some c) as G by congruence.
  split; [done|]. split.
  - by apply (prepare_ml_keeps_target select_k_best df_clean numeric_cols
                categorical_cols x).
  - by exists df1, info1.
Qed.
End TargetThroughPipeline.

(** The statement at work on [gap_table], in float64 arithmetic: the
    deviations of [bmi] and [age] are not rational. *)
Lemma target_column_passes_through_witness :
  get_col (drop_duplicates gap_table) "diabetes"
    = Some (Column "diabetes" DNumber [Num 0%Q; Num 1%Q; Num 0%Q; Num 1%Q]) /\
  exists out,
    enhanced_preprocessing Arith_binary64 str_of_integral stable_sort_counts
      zero_target_encoder first_k_selector gap_table (Some "diabetes") "cap" true
      = Some out /\
    get_col (readable out) "diabetes"
      = Some (Column "diabetes" DNumber [Num 0%Q; Num 1%Q; Num 0%Q; Num 1%Q]) /\
    get_col (ml_table (ml_ready out)) "diabetes"
      = Some (Column "diabetes" DNumber [Num 0%Q; Num 1%Q; Num 0%Q; Num 1%Q]).
Proof.
  split; [reflexivity|].
  destruct (enhanced_preprocessing Arith_binary64 str_of_integral stable_sort_counts
              zero_target_encoder first_k_selector gap_table (Some "diabetes") "cap" true)
    as [out|] eqn:E.
  - exists out. split; [done|].
    destruct (target_column_passes_through _ _ _ _ _ gap_table "diabetes" "cap" true
                out (Column "diabetes" DNumber [Num 0%Q; Num 1%Q; Num 0%Q; Num 1%Q]) E)
      as (A & B & _).
    + discriminate.
    + apply (bool_decide_unpack _). reflexivity.
    + reflexivity.
    + reflexivity.
    + by split.
  - exfalso. by vm_compute in E.
Defined.

(** ** The prediction service: calculators, flags, validation *)

Lemma forallb_elem_of {A} (p : A -> bool) (l : list A) x :
  forallb p l = true -> x ∈ l -> p x = true.
Proof.
  intros H Hx. apply list_elem_of_In in Hx.
  by apply (proj1 (forallb_forall p l) H).
Qed.

Lemma increment_values v steps x :
  Prediction.increment v steps = Some x -> x ∈ increments steps.
Proof.
  unfold increments. induction steps as [|[k y] steps IH]; cbn.
  - intros [= <-]. by left.
  - destruct (Prediction.at_least v k) as [[|]|]; [| |done].
    + intros [= <-]. right. by left.
    + intros H. apply IH in H. apply elem_of_cons in H as [->|H]; [by left|].
      right. by right.
Qed.

(** A chain of comparisons raises exactly on a text. *)
Lemma increment_None v k y steps :
  Prediction.increment v ((k, y) :: steps) = None <-> exists s, v = PStr s.
Proof.
  split.
  - destruct v as [z|[q|]|s|b]; [| | |by eauto|]; intros H; exfalso; revert H;
      generalize ((k, y) :: steps); intros l; induction l as [|[k' y'] l IH]; cbn;
      try done; by destruct (Qleb _ _).
  - intros [s ->]. done.
Qed.

Lemma lifestyle_risk_values features L :
  Prediction.calculate_lifestyle_risk features = Some L -> L ∈ lifestyle_values.
Proof.
  unfold Prediction.calculate_lifestyle_risk, lifestyle_values. intros H.
  apply bind_Some in H as (r1 & H1 & H). apply bind_Some in H as (r2 & H2 & H).
  apply (inj Some) in H. subst L.
  apply increment_values in H1, H2.
  apply list_elem_of_bind. exists r1. split; [|done].
  apply list_elem_of_bind. exists r2. split; [|done].
  set (r3 := if Prediction.flag_of features "gender_Male" then _ else _).
  set (r4 := if Prediction.flag_of features "smoking_history_current" then _ else _).
  assert (r3 ∈ [binary64 0.05; 0%Q]) as H3.
  { subst r3. destruct (Prediction.flag_of features "gender_Male");
      [by left|right; by left]. }
  assert (r4 ∈ [binary64 0.1; binary64 0.05; 0%Q]) as H4.
  { subst r4. destruct (Prediction.flag_of features "smoking_history_current");
      [by left|].
    destruct (Prediction.flag_of features "smoking_history_former");
      [right; by left|right; right; by left]. }
  apply list_elem_of_bind. exists r3. split; [|done].
  apply list_elem_of_bind. exists r4. split; [|done].
  by left.
Qed.

Lemma clinical_risk_values features r :
  Prediction.calculate_risk_with_clinical features = Some r -> r ∈ clinical_values.
Proof.
  unfold Prediction.calculate_risk_with_clinical, clinical_values. intros H.
  apply bind_Some in H as (r1 & H1 & H). apply bind_Some in H as (r2 & H2 & H).
  apply bind_Some in H as (l & Hl & H). apply (inj Some) in H. subst r.
  apply increment_values in H1, H2. apply lifestyle_risk_values in Hl.
  apply list_elem_of_bind. exists r1. split; [|done].
  apply list_elem_of_bind. exists r2. split; [|done].
  apply list_elem_of_bind. exists l. split; [|done].
  by left.
Qed.

Lemma lifestyle_values_range :
  forallb (fun L => Qleb 0 L && Qleb L 0.7000000000000001 && Qltb L 0.8) lifestyle_values
  = true.
Proof. vm_compute. reflexivity. Qed.

(** The largest value of the calculator, for a man of 70 who smokes and has
    a body-mass index of 40, is the float sum 0.3 + 0.25 + 0.05 + 0.1: above
    0.7 and below the cap. *)
Lemma lifestyle_risk_maximum :
  Prediction.calculate_lifestyle_risk
    (list_to_map [("age", PFloat (Some 70%Q)); ("bmi", PFloat (Some 40%Q));
                  ("gender_Male", PBool true); ("smoking_history_current", PBool true)])
  = Some (6305039478318695 # 9007199254740992)%Q /\
  (0.7 < 6305039478318695 # 9007199254740992)%Q /\
  (6305039478318695 # 9007199254740992 < 0.8)%Q.
Proof. repeat split; vm_compute; reflexivity. Qed.

(** X19.  [_calculate_lifestyle_risk] raises exactly when the age or the
    body-mass index of the dictionary is a text.  Otherwise it returns a
    float that is at least 0 and at most 0.7000000000000001: its cap at 0.8
    never applies. *)
Theorem lifestyle_risk_below_cap features :
  (forall L, Prediction.calculate_lifestyle_risk features = Some L ->
     (0 <= L)%Q /\ (L <= 0.7000000000000001)%Q /\ (L < 0.8)%Q) /\
  (Prediction.calculate_lifestyle_risk features = None <->
     (exists s, features !! "age" = Some (PStr s)) \/
     (exists s, features !! "bmi" = Some (PStr s))).
Proof.
  split.
  - intros L HL. apply lifestyle_risk_values in HL.
    pose proof (forallb_elem_of _ _ _ lifestyle_values_range HL) as H. cbv beta in H.
    apply andb_prop in H as [H H3]. apply andb_prop in H as [H1 H2].
    apply Qleb_le in H1, H2. apply Qltb_lt in H3. done.
  - unfold Prediction.calculate_lifestyle_risk.
    assert (forall k d, (exists s, Prediction.feature_or features k (PInt d) = PStr s)
                        <-> exists s, features !! k = Some (PStr s)) as F.
    { intros k d. unfold Prediction.feature_or.
      destruct (features !! k) as [v|]; cbn; split; intros [s E]; try done.
      - exists s. by rewrite E.
      - exists s. by injection E. }
    rewrite <- (F "age" 35%Z), <- (F "bmi" 25%Z).
    rewrite <- (increment_None _ 65 0.3 [(50, 0.2); (35, 0.1)]%Q).
    rewrite <- (increment_None _ 35 0.25 [(30, 0.2); (25, 0.1)]%Q).
    destruct (Prediction.increment (Prediction.feature_or features "age" (PInt 35)) _)
      as [r1|]; cbn [mbind option_bind]; [|split; auto].
    destruct (Prediction.increment (Prediction.feature_or features "bmi" (PInt 25)) _)
      as [r2|]; cbn [mbind option_bind]; [|split; auto].
    split; [done|]. by intros [?|?].
Qed.

Lemma lifestyle_risk_below_cap_witness :
  Prediction.calculate_lifestyle_risk (Prediction.request_features validated_sample "male")
    = Some (binary64 0.4) /\
  (binary64 0.4 < 0.8)%Q.
Proof.
  assert (Prediction.calculate_lifestyle_risk
            (Prediction.request_features validated_sample "male")
          = Some (binary64 0.4)) as E by (vm_compute; reflexivity).
  split; [exact E|].
  exact (proj2 (proj2 (proj1 (lifestyle_risk_below_cap _) _ E))).
Defined.

Lemma request_features_labs req g :
  Prediction.request_features req g !! "hbA1c_level"
    = Some (PFloat (Some (Prediction.clinical_value (Prediction.hbA1c req) 5.7))) /\
  Prediction.request_features req g !! "blood_glucose_level"
    = Some (PFloat (Some (Prediction.clinical_value (Prediction.bloodGlucose req) 95))).
Proof.
  unfold Prediction.request_features.
  destruct (String.eqb _ _); split; reflexivity.
Qed.

Lemma lifestyle_values_saturate :
  forallb (fun l => Qltb (binary64 0.95)
                      (Prediction.float_add
                         (Prediction.float_add (Prediction.float_add 0 (binary64 0.7))
                            (binary64 0.3))
                         (binary64 (l * binary64 0.3))))
    lifestyle_values = true.
Proof. vm_compute. reflexivity. Qed.

Lemma clinical_risk_diabetic features h g :
  features !! "hbA1c_level" = Some (PFloat (Some h)) -> (6.5 <= h)%Q ->
  features !! "blood_glucose_level" = Some (PFloat (Some g)) -> (126 <= g)%Q ->
  is_Some (Prediction.calculate_lifestyle_risk features) ->
  Prediction.calculate_risk_with_clinical features = Some (binary64 0.95).
Proof.
  intros Hh Hh' Hg Hg' [l Hl].
  unfold Prediction.calculate_risk_with_clinical, Prediction.feature_or.
  rewrite Hh, Hg, Hl. cbn [default from_option Datatypes.id].
  apply Qleb_le in Hh', Hg'.
  cbn [Prediction.increment Prediction.at_least]. rewrite Hh', Hg'.
  cbn [mbind option_bind]. f_equal. unfold Prediction.capped.
  apply lifestyle_risk_values in Hl.
  pose proof (forallb_elem_of _ _ _ lifestyle_values_saturate Hl) as H. cbv beta in H.
  by rewrite H.
Qed.

Lemma predict_without_model svc req :
  lower (Prediction.gender req) <> "female" \/ Prediction.women_model svc = None ->
  lower (Prediction.gender req) <> "male" \/ Prediction.men_model svc = None ->
  Qeq_bool (Prediction.height req) 0 = false ->
  exists r,
    Prediction.risk_calculator
      (Prediction.request_features req (lower (Prediction.gender req)))
      (Prediction.request_is_clinical req) = Some r /\
    Prediction.predict_diabetes_risk svc req
    = Prediction.report (Prediction.request_features req (lower (Prediction.gender req)))
        (Prediction.request_is_clinical req) r.
Proof.
  intros Hw Hm Hh.
  destruct (risk_calculator_returns req (lower (Prediction.gender req))
              (Prediction.request_is_clinical req)) as [r Hr].
  exists r. split; [done|].
  unfold Prediction.predict_diabetes_risk, Prediction.preprocess_input.
  rewrite Hh, Hr.
  assert ((String.eqb (lower (Prediction.gender req)) "female"
           && bool_decide (is_Some (Prediction.women_model svc))) = false) as ->.
  { destruct Hw as [Hw | ->].
    - apply String.eqb_neq in Hw. by rewrite Hw.
    - rewrite andb_false_iff. right. apply bool_decide_eq_false. by intros [? ?]. }
  assert ((String.eqb (lower (Prediction.gender req)) "male"
           && bool_decide (is_Some (Prediction.men_model svc))) = false) as ->.
  { destruct Hm as [Hm | ->].
    - apply String.eqb_neq in Hm. by rewrite Hm.
    - rewrite andb_false_iff. right. apply bool_decide_eq_false. by intros [? ?]. }
  done.
Qed.

(** X20.  Without a loaded model, a request whose HbA1c is at least 6.5 and
    whose blood glucose is at least 126 is reported at 95 percent, risk level
    [high], by the clinical risk calculator, whatever its other fields. *)
Theorem calculator_reports_diabetic_labs svc req h g :
  Prediction.women_model svc = None -> Prediction.men_model svc = None ->
  Qeq_bool (Prediction.height req) 0 = false ->
  Prediction.hbA1c req = Some h -> (6.5 <= h)%Q ->
  Prediction.bloodGlucose req = Some g -> (126 <= g)%Q ->
  let p := Prediction.predict_diabetes_risk svc req in
  Prediction.error p = None /\
  Prediction.risk_percentage p = 95%Q /\
  Prediction.risk_level p = "high" /\
  Prediction.model_used p = "Risk Calculator (Clinical + Lifestyle)".
Proof.
  intros Hw Hm Hh Ha Ha' Hg Hg'. cbv zeta.
  destruct (predict_without_model svc req) as (r & Hr & ->); auto.
  set (f := Prediction.request_features req _) in *.
  assert (Prediction.request_is_clinical req = true) as Hc.
  { unfold Prediction.request_is_clinical. by rewrite Ha. }
  rewrite Hc in *.
  destruct (request_features_labs req (lower (Prediction.gender req))) as [L1 L2].
  fold f in L1, L2. rewrite Ha in L1. rewrite Hg in L2.
  assert (Prediction.clinical_value (Some h) 5.7 = h) as E1.
  { unfold Prediction.clinical_value.
    destruct (Qeq_bool h 0) eqn:E; [|done].
    apply Qeq_bool_iff in E. rewrite E in Ha'. by vm_compute in Ha'. }
  assert (Prediction.clinical_value (Some g) 95 = g) as E2.
  { unfold Prediction.clinical_value.
    destruct (Qeq_bool g 0) eqn:E; [|done].
    apply Qeq_bool_iff in E. rewrite E in Hg'. by vm_compute in Hg'. }
  rewrite E1 in L1. rewrite E2 in L2.
  assert (is_Some (Prediction.calculate_lifestyle_risk f)) as Hl.
  { destruct (request_features_numeric req (lower (Prediction.gender req)) "age")
      as [a Hage]; [apply mem_spec; reflexivity|].
    apply (lifestyle_risk_returns f a (Prediction.request_bmi req) Hage).
    apply request_features_bmi. }
  unfold Prediction.risk_calculator in Hr.
  rewrite (clinical_risk_diabetic f h g L1 Ha' L2 Hg' Hl) in Hr.
  cbn [mbind option_bind] in Hr. apply (inj Some) in Hr. subst r.
  unfold Prediction.report.
  subst f. rewrite request_features_bmi. cbn [mbind option_bind Prediction.as_number].
  repeat split; vm_compute; reflexivity.
Qed.

Lemma calculator_reports_diabetic_labs_witness :
  let p := Prediction.predict_diabetes_risk (Prediction.init no_models) validated_sample in
  Prediction.error p = None /\
  Prediction.risk_percentage p = 95%Q /\
  Prediction.risk_level p = "high" /\
  Prediction.model_used p = "Risk Calculator (Clinical + Lifestyle)".
Proof.
  apply (calculator_reports_diabetic_labs (Prediction.init no_models) validated_sample
           7.1%Q 140%Q); try reflexivity; by vm_compute.
Defined.

Lemma risk_calculator_values features clinical r used conf :
  Prediction.risk_calculator features clinical = Some (r, used, conf) ->
  r ∈ (if clinical then clinical_values else lifestyle_values).
Proof.
  unfold Prediction.risk_calculator. destruct clinical; intros H;
    apply bind_Some in H as (x & Hx & H); injection H as <- _ _.
  - exact (clinical_risk_values _ _ Hx).
  - exact (lifestyle_risk_values _ _ Hx).
Qed.

Lemma lifestyle_percentages :
  forallb (fun r => Qleb 0 (Prediction.round_to 1 (binary64 (r * 100)))
                    && Qleb (Prediction.round_to 1 (binary64 (r * 100))) 70)
    lifestyle_values = true.
Proof. vm_compute. reflexivity. Qed.

Lemma clinical_percentages :
  forallb (fun r => Qleb 0 (Prediction.round_to 1 (binary64 (r * 100)))
                    && Qleb (Prediction.round_to 1 (binary64 (r * 100))) 95)
    clinical_values = true.
Proof. vm_compute. reflexivity. Qed.

Lemma report_percentage features clinical r used conf b :
  features !! "bmi" = Some (PFloat (Some b)) ->
  Prediction.risk_percentage (Prediction.report features clinical (r, used, conf))
  = Prediction.round_to 1 (binary64 (r * 100)).
Proof.
  intros Hb. unfold Prediction.report. rewrite Hb. done.
Qed.

(** X21.  A request whose gender is neither [female] nor [male] is answered
    by the risk calculator whatever models are loaded: no error, confidence
    [moderate], and a percentage between 0 and 95, at most 70 without clinical
    data. *)
Theorem unlisted_gender_uses_calculator svc req :
  lower (Prediction.gender req) <> "female" ->
  lower (Prediction.gender req) <> "male" ->
  Qeq_bool (Prediction.height req) 0 = false ->
  let p := Prediction.predict_diabetes_risk svc req in
  Prediction.error p = None /\
  Prediction.confidence p = "moderate" /\
  Prediction.model_used p
    = (if Prediction.request_is_clinical req then "Risk Calculator (Clinical + Lifestyle)"
       else "Risk Calculator (Lifestyle Only)") /\
  (0 <= Prediction.risk_percentage p)%Q /\
  (Prediction.risk_percentage p
     <= (if Prediction.request_is_clinical req then 95 else 70))%Q.
Proof.
  intros Hf Hm Hh. cbv zeta.
  destruct (predict_without_model svc req) as (r & Hr & ->); auto.
  set (f := Prediction.request_features req _) in *.
  set (c := Prediction.request_is_clinical req) in *.
  destruct (report_calculator f c (Prediction.request_bmi req) r) as (E1 & E2 & E3 & E4);
    [apply request_features_bmi|done|].
  split; [done|]. split; [done|]. split; [done|].
  destruct r as [[r used] conf].
  rewrite (report_percentage f c r used conf (Prediction.request_bmi req))
    by apply request_features_bmi.
  apply risk_calculator_values in Hr.
  destruct c.
  - pose proof (forallb_elem_of _ _ _ clinical_percentages Hr) as H. cbv beta in H.
    apply andb_prop in H as [H1 H2]. by apply Qleb_le in H1, H2.
  - pose proof (forallb_elem_of _ _ _ lifestyle_percentages Hr) as H. cbv beta in H.
    apply andb_prop in H as [H1 H2]. by apply Qleb_le in H1, H2.
Qed.

Lemma unlisted_gender_uses_calculator_witness :
  lower (Prediction.gender other_gender_request) = "other" /\
  let p := Prediction.predict_diabetes_risk
             (Prediction.init (Prediction.disk Prediction.full_schema))
             other_gender_request in
  Prediction.error p = None /\
  Prediction.confidence p = "moderate" /\
  Prediction.model_used p = "Risk Calculator (Lifestyle Only)" /\
  (0 <= Prediction.risk_percentage p)%Q /\
  (Prediction.risk_percentage p <= 70)%Q.
Proof.
  split; [reflexivity|].
  apply (unlisted_gender_uses_calculator
           (Prediction.init (Prediction.disk Prediction.full_schema))
           other_gender_request); by vm_compute.
Defined.

(** X22.  When the women's model file is present and its feature schema file
    is not, every request of a woman gets the error result. *)
Theorem model_without_schema_fails fs req m :
  lower (Prediction.gender req) = "female" ->
  Prediction.diabetes_women_model_pkl fs = Some m ->
  Prediction.women_model_features_json fs = None ->
  Qeq_bool (Prediction.height req) 0 = false ->
  Prediction.predict_diabetes_risk (Prediction.init fs) req
  = Prediction.failed "object of type 'NoneType' has no len()".
Proof.
  intros Hg Hm Hs Hh.
  unfold Prediction.predict_diabetes_risk, Prediction.preprocess_input.
  rewrite Hh, Hg.
  unfold Prediction.init, Prediction.load_models.
  cbn [Prediction.women_model Prediction.women_features Prediction.men_model
       Prediction.men_features].
  rewrite Hm, Hs. done.
Qed.

Lemma model_without_schema_fails_witness :
  Prediction.predict_diabetes_risk (Prediction.init schema_missing) Prediction.sample_request
  = Prediction.failed "object of type 'NoneType' has no len()" /\
  Prediction.risk_level
    (Prediction.predict_diabetes_risk (Prediction.init schema_missing)
       Prediction.sample_request) = "unknown".
Proof.
  assert (Prediction.predict_diabetes_risk (Prediction.init schema_missing)
            Prediction.sample_request
          = Prediction.failed "object of type 'NoneType' has no len()") as E.
  { apply (model_without_schema_fails schema_missing Prediction.sample_request
             (Prediction.constant_model 0.25)); reflexivity. }
  split; [exact E|]. rewrite E. reflexivity.
Defined.

Lemma flag_of_bool (features : gmap string pyval) k b :
  features !! k = Some (PBool b) -> Prediction.flag_of features k = b.
Proof. unfold Prediction.flag_of. by intros ->. Qed.

Lemma flag_of_absent (features : gmap string pyval) k :
  features !! k = None -> Prediction.flag_of features k = false.
Proof. unfold Prediction.flag_of. by intros ->. Qed.

Ltac feature_flag req g :=
  match goal with
  | |- context [Prediction.flag_of (Prediction.request_features req g) ?k] =>
      let H := fresh in
      eassert (Prediction.request_features req g !! k = Some (PBool _)) as H
        by (unfold Prediction.request_features;
            destruct (String.eqb (lower g) "female"); reflexivity);
      rewrite (flag_of_bool _ _ _ H); clear H
  end.

Ltac Q_cases :=
  repeat match goal with
         | H : Qltb _ _ = true |- _ => apply Qltb_lt in H
         | H : Qltb _ _ = false |- _ => apply Qltb_ge in H
         end.

(** X23.  In the feature dictionary of [preprocess_input] exactly one BMI
    category flag and exactly one age group flag are set, at most one gender
    flag and at most one smoking flag, and of the gestational flags exactly
    one for a woman and none otherwise. *)
Theorem request_features_one_hot req g :
  let f := Prediction.request_features req g in
  flags_set f bmi_category_flags = 1 /\
  flags_set f age_group_flags = 1 /\
  flags_set f gender_flags <= 1 /\
  flags_set f smoking_flags <= 1 /\
  flags_set f gestational_flags = (if String.eqb (lower g) "female" then 1 else 0).
Proof.
  cbv zeta.
  unfold flags_set, bmi_category_flags, age_group_flags, gender_flags, smoking_flags,
    gestational_flags.
  cbn [List.filter].
  split; [|split; [|split; [|split]]].
  - repeat feature_flag req g.
    unfold Qleb.
    generalize (Prediction.request_bmi req). intros b.
    destruct (Qltb b 18.5) eqn:E1, (Qltb b 25) eqn:E2, (Qltb b 30) eqn:E3;
      cbn; try reflexivity; Q_cases; exfalso; Lqa.lra.
  - repeat feature_flag req g.
    unfold Qleb.
    generalize (inject_Z (Prediction.age req)). intros a.
    destruct (Qltb a 18) eqn:E1, (Qltb a 40) eqn:E2, (Qltb a 60) eqn:E3;
      cbn; try reflexivity; Q_cases; exfalso; Lqa.lra.
  - repeat feature_flag req g.
    destruct (String.eqb_spec (lower g) "female") as [->|]; [cbn; lia|].
    destruct (String.eqb (lower g) "male"); cbn; lia.
  - repeat feature_flag req g.
    generalize (lower (Prediction.smoking req)). intros s.
    destruct (String.eqb_spec s "no info") as [->|]; [cbn; lia|].
    destruct (String.eqb_spec s "current") as [->|]; [cbn; lia|].
    destruct (String.eqb_spec s "ever") as [->|]; [cbn; lia|].
    destruct (String.eqb_spec s "former") as [->|]; [cbn; lia|].
    destruct (String.eqb_spec s "never") as [->|]; [cbn; lia|].
    destruct (String.eqb s "not current"); cbn; lia.
  - unfold Prediction.request_features.
    destruct (String.eqb (lower g) "female").
    + set (yes := mem _ _).
      rewrite (flag_of_bool _ "gestational_history_0.0" (negb yes)) by reflexivity.
      rewrite (flag_of_bool _ "gestational_history_1.0" yes) by reflexivity.
      rewrite (flag_of_bool _ "gestational_history_No" false) by reflexivity.
      rewrite (flag_of_bool _ "gestational_history_Not Applicable" false) by reflexivity.
      destruct yes; reflexivity.
    + rewrite !flag_of_absent by reflexivity. reflexivity.
Qed.

Lemma age_diabetes_risk_intervals (x : Q) :
  age_diabetes_risk (Num x) =
    if Qleb x 0 then NA
    else if Qleb x 35 then Str "low_risk"
    else if Qleb x 45 then Str "moderate_risk"
    else if Qleb x 65 then Str "high_risk"
    else Str "very_high_risk".
Proof.
  unfold age_diabetes_risk, cut, age_bins, age_labels, Qleb. simpl.
  destruct (Qltb 0 x); simpl; [|done].
  destruct (Qltb 35 x); simpl; [|done].
  destruct (Qltb 45 x); simpl; [|done].
  destruct (Qltb 65 x); simpl; done.
Qed.

Lemma request_features_age_risk req g :
  Prediction.request_features req g !! "age_diabetes_risk"
  = Some (PInt (Prediction.index_of
                  (service_age_risk (inject_Z (Prediction.age req)))
                  age_risk_categories)).
Proof.
  unfold Prediction.request_features.
  destruct (String.eqb (lower g) "female"); reflexivity.
Qed.

(** X24.  For a positive age the band [age_diabetes_risk] that the pipeline
    derives with [pd.cut] equals the band the prediction service encodes
    exactly when the age is none of 35 and 65 and is not strictly between 45
    and 50. *)
Theorem age_bands_differ_between_pipeline_and_service (x : Q) :
  (0 < x)%Q ->
  (age_diabetes_risk (Num x) = Str (service_age_risk x) <->
   ~ (x == 35)%Q /\ ~ (45 < x /\ x < 50)%Q /\ ~ (x == 65)%Q).
Proof.
  intros H0. rewrite age_diabetes_risk_intervals.
  unfold service_age_risk, Qleb.
  assert (Qltb 0 x = true) as -> by (by apply Qltb_lt). simpl.
  repeat match goal with
  | |- context [Qltb ?a ?b] =>
      let E := fresh "E" in
      destruct (Qltb a b) eqn:E;
      [apply Qltb_lt in E | apply Qltb_ge in E]
  end; simpl; split;
    try (intros _; repeat split; intros ?; Lqa.lra);
    try (intros ?; discriminate);
    try (intros (A & B & C); exfalso;
         first [ apply A; Lqa.lra | apply B; split; Lqa.lra | apply C; Lqa.lra
               | Lqa.lra ]);
    try reflexivity.
Qed.

Lemma age_bands_differ_between_pipeline_and_service_witness :
  age_diabetes_risk (Num 47%Q) = Str "high_risk" /\
  service_age_risk 47 = "moderate_risk" /\
  (age_diabetes_risk (Num 52%Q) = Str (service_age_risk 52) <->
   ~ (52 == 35)%Q /\ ~ (45 < 52 /\ 52 < 50)%Q /\ ~ (52 == 65)%Q).
Proof.
  split; [reflexivity|]. split; [reflexivity|].
  apply (age_bands_differ_between_pipeline_and_service 52). reflexivity.
Defined.

Lemma validate_request_inv r req :
  validate_request r = Some req ->
  (18 <= Prediction.age req <= 120)%Z /\
  (100 <= Prediction.height req)%Q /\ (Prediction.height req <= 250)%Q /\
  (30 <= Prediction.weight req)%Q /\ (Prediction.weight req <= 300)%Q /\
  Prediction.gestationalHistory req ∈ ["yes"; "no"] /\
  (forall h, Prediction.hbA1c req = Some h -> (3 <= h)%Q /\ (h <= 15)%Q) /\
  (forall g, Prediction.bloodGlucose req = Some g -> (50 <= g)%Q /\ (g <= 500)%Q).
Proof.
  unfold validate_request, in_range.
  destruct (_ && _) eqn:E; [|done]. intros [= <-]. cbn.
  apply andb_prop in E as [E Hg].
  apply andb_prop in E as [E Hh].
  apply andb_prop in E as [E Hgest].
  apply andb_prop in E as [E Hw].
  apply andb_prop in E as [E Hht].
  apply andb_prop in E as [Ha1 Ha2].
  apply andb_prop in Hw as [Hw1 Hw2].
  apply andb_prop in Hht as [Hht1 Hht2].
  apply Z.leb_le in Ha1, Ha2.
  apply Qleb_le in Hw1, Hw2, Hht1, Hht2.
  apply mem_spec in Hgest.
  split; [lia|]. do 4 (split; [done|]). split; [done|].
  split.
  - intros h Eh. rewrite Eh in Hh. apply andb_prop in Hh as [A B].
    by split; apply Qleb_le.
  - intros g Eg. rewrite Eg in Hg. apply andb_prop in Hg as [A B].
    by split; apply Qleb_le.
Qed.

Lemma request_bmi_range req :
  (100 <= Prediction.height req)%Q -> (Prediction.height req <= 250)%Q ->
  (30 <= Prediction.weight req)%Q -> (Prediction.weight req <= 300)%Q ->
  (4.8 <= Prediction.request_bmi req)%Q /\ (Prediction.request_bmi req <= 300)%Q.
Proof.
  intros H1 H2 W1 W2. unfold Prediction.request_bmi. rewrite Qred_correct.
  set (h := Prediction.height req) in *. set (w := Prediction.weight req) in *.
  assert (1 <= h / 100)%Q as A by (apply Qle_shift_div_l; [reflexivity|]; Lqa.lra).
  assert (h / 100 <= 2.5)%Q as B by (apply Qle_shift_div_r; [reflexivity|]; Lqa.lra).
  set (u := (h / 100)%Q) in *.
  assert (1 <= u * u)%Q as C by Lqa.nra.
  assert (u * u <= 6.25)%Q as D by Lqa.nra.
  split.
  - apply Qle_shift_div_l; [Lqa.lra|]. Lqa.lra.
  - apply Qle_shift_div_r; [Lqa.lra|]. Lqa.lra.
Qed.

(** X25.  A request that passes the bounds of [PredictionRequest] is answered
    without an error whenever each loaded model has its schema: the result
    tells whether clinical data was given, its risk level is one of [low],
    [moderate] and [high], and its confidence is [high] or [moderate]. *)
Theorem validated_request_is_answered svc r req :
  validate_request r = Some req ->
  (is_Some (Prediction.women_model svc) -> is_Some (Prediction.women_features svc)) ->
  (is_Some (Prediction.men_model svc) -> is_Some (Prediction.men_features svc)) ->
  let p := Prediction.predict_diabetes_risk svc req in
  Prediction.error p = None /\
  Prediction.has_clinical_data p = Prediction.request_is_clinical req /\
  Prediction.risk_level p ∈ ["low"; "moderate"; "high"] /\
  Prediction.confidence p ∈ ["high"; "moderate"].
Proof.
  intros Hv Hw Hm. cbv zeta.
  destruct (validate_request_inv r req Hv) as (_ & H1 & _).
  assert (Qeq_bool (Prediction.height req) 0 = false) as Hh.
  { destruct (Qeq_bool _ 0) eqn:E; [|done].
    apply Qeq_bool_iff in E. rewrite E in H1. by vm_compute in H1. }
  set (f := Prediction.request_features req (lower (Prediction.gender req))).
  set (c := Prediction.request_is_clinical req).
  assert (forall x used conf, conf ∈ ["high"; "moderate"] ->
          let p := Prediction.report f c (x, used, conf) in
          Prediction.error p = None /\
          Prediction.has_clinical_data p = c /\
          Prediction.risk_level p ∈ ["low"; "moderate"; "high"] /\
          Prediction.confidence p ∈ ["high"; "moderate"]) as R.
  { intros x used conf Hconf. unfold Prediction.report. subst f.
    rewrite request_features_bmi. cbn.
    repeat split; [|done].
    destruct (Qltb _ 30); [by left|].
    destruct (Qltb _ 60); [right; by left|]. right; right; by left. }
  destruct (risk_calculator_returns req (lower (Prediction.gender req)) c)
    as [[[x used] conf] Hr]. fold f in Hr.
  assert (conf = "moderate") as ->.
  { pose proof (report_calculator f c (Prediction.request_bmi req) _
                  (request_features_bmi _ _) Hr) as (_ & E & _).
    cbv zeta in E. unfold Prediction.report in E. subst f.
    rewrite request_features_bmi in E. exact E. }
  assert ("moderate" ∈ ["high"; "moderate"]) as Hmod by (right; by left).
  assert ("high" ∈ ["high"; "moderate"]) as Hhigh by by left.
  unfold Prediction.predict_diabetes_risk, Prediction.preprocess_input.
  rewrite Hh. fold f c. rewrite Hr.
  destruct (String.eqb (lower (Prediction.gender req)) "female" &&
            bool_decide (is_Some (Prediction.women_model svc))) eqn:E1.
  - apply andb_prop in E1 as [_ E1]. apply bool_decide_eq_true in E1.
    destruct (Hw E1) as [schema Hs]. destruct E1 as [m Hmd].
    rewrite Hmd, Hs.
    destruct (Prediction.model_probability _ _ _ _ _); by apply R.
  - destruct (String.eqb (lower (Prediction.gender req)) "male" &&
              bool_decide (is_Some (Prediction.men_model svc))) eqn:E2.
    + apply andb_prop in E2 as [_ E2]. apply bool_decide_eq_true in E2.
      destruct (Hm E2) as [schema Hs]. destruct E2 as [m Hmd].
      rewrite Hmd, Hs.
      destruct (Prediction.model_probability _ _ _ _ _); by apply R.
    + by apply R.
Qed.

Lemma validated_request_is_answered_witness :
  validate_request validated_sample
    = Some {| Prediction.age := 52; Prediction.gender := "Male"; Prediction.height := 180;
              Prediction.weight := 90; Prediction.gestationalHistory := "no";
              Prediction.smoking := "former";
              Prediction.hbA1c := Some 7.1%Q; Prediction.bloodGlucose := Some 140%Q |} /\
  Prediction.error
    (Prediction.predict_diabetes_risk
       (Prediction.init (Prediction.disk Prediction.full_schema))
       {| Prediction.age := 52; Prediction.gender := "Male"; Prediction.height := 180;
          Prediction.weight := 90; Prediction.gestationalHistory := "no";
          Prediction.smoking := "former";
          Prediction.hbA1c := Some 7.1%Q; Prediction.bloodGlucose := Some 140%Q |}) = None.
Proof.
  split; [reflexivity|].
  refine (proj1 (validated_request_is_answered
            (Prediction.init (Prediction.disk Prediction.full_schema))
            validated_sample _ _ _ _)).
  - reflexivity.
  - intros _. by eexists.
  - intros [? H]. discriminate H.
Defined.

Lemma assign_row_scaled row names vals i n x col v :
  NoDup names -> names !! i = Some n -> vals !! i = Some x ->
  (col, v) ∈ Prediction.assign_row row names vals -> col = n ->
  v = PFloat (Some x).
Proof.
  revert row vals i. induction names as [|m names IH]; intros row [|y vals] i Hnd Hn Hx;
    try done.
  apply NoDup_cons in Hnd as [Hm Hnd]. cbn [Prediction.assign_row].
  destruct i as [|i]; cbn in Hn, Hx.
  - injection Hn as ->. injection Hx as ->. intros Hin ->.
    apply assign_row_other in Hin; [|done].
    apply list_elem_of_fmap in Hin as ([k z] & E & _). cbn in E.
    destruct (String.eqb_spec k n) as [->|Hne]; by simplify_eq.
  - by apply (IH _ vals i).
Qed.

Lemma transform_lookup xs means scales i x m s :
  xs !! i = Some x -> means !! i = Some m -> scales !! i = Some s ->
  Prediction.transform xs means scales !! i = Some (Qred ((x - m) / s)).
Proof.
  revert means scales i. induction xs as [|a xs IH]; intros [|b means] [|c scales] i;
    try done.
  destruct i as [|i]; cbn.
  - by intros [= ->] [= ->] [= ->].
  - apply IH.
Qed.

Lemma mapM_lookup {A B} (f : A -> option B) l ys i x :
  mapM f l = Some ys -> l !! i = Some x -> exists y, ys !! i = Some y /\ f x = Some y.
Proof.
  intros H Hx. apply mapM_Some_Forall2 in H.
  destruct (Forall2_lookup_l _ _ _ _ _ H Hx) as (y & Hy & E). by exists y.
Qed.

(** X26.  When the model branch yields a probability, the model was called on
    a row whose columns are the schema in its order; a column other than the
    four numeric features holds the request's value or its default, and each
    of the four holds [(x - mean) / scale] with the hard-coded mean and scale
    of its position. *)
Theorem model_sees_schema_ordered_scaled_row fs m schema features g p :
  Prediction.model_probability (Prediction.init fs) m schema features g = Some p ->
  exists row,
    m row = Some p /\
    fst <$> row = schema /\
    (forall col v, (col, v) ∈ row -> col ∉ Prediction.numeric_features ->
       v = default (Prediction.default_feature g col) (features !! col)) /\
    (forall i n v, Prediction.numeric_features !! i = Some n -> (n, v) ∈ row ->
       exists x mu sigma,
         Prediction.as_number
           (default (Prediction.default_feature g n) (features !! n)) = Some x /\
         Prediction.mean_ Prediction.HardcodedScaler !! i = Some mu /\
         Prediction.scale_ Prediction.HardcodedScaler !! i = Some sigma /\
         v = PFloat (Some (Qred ((x - mu) / sigma)))).
Proof.
  unfold Prediction.model_probability.
  change (Prediction.feature_scaler (Prediction.init fs))
    with (Some Prediction.HardcodedScaler).
  set (row := Prediction.feature_row features g schema).
  intros H. apply bind_Some in H as (row' & Hrow & Hm).
  apply bind_Some in Hrow as (vals & Hvals & Hrow).
  apply bind_Some in Hrow as (xs & Hxs & Hrow). apply (inj Some) in Hrow. subst row'.
  eexists. split; [exact Hm|]. split; [|split].
  - rewrite assign_row_names. apply feature_row_names.
  - intros col v Hin Hcol. apply assign_row_other in Hin; [|done].
    by apply feature_row_elem in Hin.
  - intros i n v Hn Hin.
    unfold Prediction.row_values in Hvals.
    destruct (mapM_lookup _ _ _ i n Hvals Hn) as (val & Hval & Hfind).
    destruct (List.find _ row) as [[k w]|] eqn:F; [|done]. cbn in Hfind.
    injection Hfind as ->.
    apply find_some in F as [Fin Fk]. cbn in Fk. apply String.eqb_eq in Fk as ->.
    apply list_elem_of_In in Fin. apply feature_row_elem in Fin. subst val.
    destruct (mapM_lookup _ _ _ i _ Hxs Hval) as (x & Hx & Ex).
    assert (i < 4) as Hi by (apply lookup_lt_Some in Hn; exact Hn).
    destruct (lookup_lt_is_Some_2 (Prediction.mean_ Prediction.HardcodedScaler) i Hi)
      as [mu Hmu].
    destruct (lookup_lt_is_Some_2 (Prediction.scale_ Prediction.HardcodedScaler) i Hi)
      as [sigma Hsigma].
    exists x, mu, sigma. split; [done|]. split; [done|]. split; [done|].
    eapply (assign_row_scaled row Prediction.numeric_features _ i n); [|done| |done|done].
    + apply (bool_decide_unpack _). reflexivity.
    + by apply transform_lookup.
Qed.

Lemma model_sees_schema_ordered_scaled_row_witness :
  Prediction.model_probability
    (Prediction.init (Prediction.disk Prediction.full_schema))
    (Prediction.constant_model 0.25) Prediction.full_schema
    (Prediction.request_features Prediction.sample_request "female") "female"
    = Some 0.25%Q /\
  exists row, fst <$> row = Prediction.full_schema /\
    forall v, ("age", v) ∈ row ->
      exists x, v = PFloat (Some (Qred ((x - 41.885856) / 22.51672729))).
Proof.
  assert (Prediction.model_probability
            (Prediction.init (Prediction.disk Prediction.full_schema))
            (Prediction.constant_model 0.25) Prediction.full_schema
            (Prediction.request_features Prediction.sample_request "female") "female"
          = Some 0.25%Q) as E by reflexivity.
  split; [exact E|].
  destruct (model_sees_schema_ordered_scaled_row _ _ _ _ _ _ E)
    as (row & _ & Hnames & _ & Hscaled).
  exists row. split; [exact Hnames|].
  intros v Hv. destruct (Hscaled 0 "age" v eq_refl Hv) as (x & mu & sigma & _ & Hmu & Hs & ->).
  injection Hmu as <-. injection Hs as <-. by exists x.
Defined.
